(** * Token lifecycle and identity reconciliation of the auth service

    A shallow embedding of [services/authService.ts] together with the parts
    of [db/schema.ts], [utils/jwt.ts], [utils/crypto.ts] and [types/index.ts]
    it relies on, and of what stands around the service: the [authenticate]
    and [optionalAuth] middleware, [errorHandler], and [validateConfig].

    - The PostgreSQL tables are lists of rows, in insertion order.  The
      [unique] constraints and the foreign keys of the schema are enforced by
      the insert primitives, which fail the way the driver throws.
    - [uuid().defaultRandom()] is a fresh-identifier allocator (a counter).
    - Every service method is a computation in a state-and-error monad over
      the store.  There is no transaction in the source, so a computation
      that throws keeps the writes it made before throwing.
    - The clock, the bytes drawn by [crypto.randomBytes] and the bcrypt salt
      are read from an environment handed to each call; the instants read by
      [new Date()] / [Date.now()] inside one call are identified.
    - [jsonwebtoken], SHA-256 and the functions of [utils/password.ts] are
      parameters of the development.
    - A [string] holds the UTF-8 encoding of a well-formed text without
      U+0000 (the texts PostgreSQL stores).  The length limits of the
      [varchar(n)] columns that receive values of the callers are enforced by
      the insert primitives the way PostgreSQL does: in characters, with the
      error of SQLSTATE 22001 for a value that is too long, except that excess
      spaces are cut off silently.  The columns [password_hash], [token_hash]
      and [token] only ever receive a bcrypt hash (60 characters), a SHA-256
      digest in hexadecimal (64) and 32 random bytes in hexadecimal (64),
      below their limit of 255, and carry no check. *)

From Stdlib Require Import String Ascii DecimalString List ZArith Bool Lia Arith.
From Stdlib.Strings Require Import Byte.
Import ListNotations.

Local Open Scope string_scope.
Local Open Scope Z_scope.

(** ** Schema: enums and rows *)

Definition uuid := nat.
Definition timestamp := Z.

Inductive UserStatus := active | suspended | deleted.
Inductive OAuthProviderType := google | facebook | apple.
Inductive TokenType := email_verification | password_reset.

Definition UserStatus_eqb (a b : UserStatus) : bool :=
  match a, b with
  | active, active | suspended, suspended | deleted, deleted => true
  | _, _ => false
  end.

Definition OAuthProviderType_eqb (a b : OAuthProviderType) : bool :=
  match a, b with
  | google, google | facebook, facebook | apple, apple => true
  | _, _ => false
  end.

Definition TokenType_eqb (a b : TokenType) : bool :=
  match a, b with
  | email_verification, email_verification
  | password_reset, password_reset => true
  | _, _ => false
  end.

Record DeviceInfo := mkDeviceInfo {
  userAgent : option string;
  ip : option string;
  platform : option string;
  browser : option string
}.

(** [deviceInfo || {}] *)
Definition noDevice : DeviceInfo := mkDeviceInfo None None None None.

Definition metadata := list (string * string).

Module users.
Record row := mk {
  id : uuid;
  email : option string;
  emailVerified : bool;
  passwordHash : option string;
  displayName : option string;
  avatarUrl : option string;
  phoneNumber : option string;
  status : UserStatus;
  createdAt : timestamp;
  updatedAt : timestamp;
  lastLoginAt : option timestamp
}.
End users.

Module oauthProviders.
Record row := mk {
  id : uuid;
  userId : uuid;
  provider : OAuthProviderType;
  providerUserId : string;
  providerEmail : option string;
  accessToken : option string;
  refreshToken : option string;
  tokenExpiresAt : option timestamp;
  metadata_ : metadata;
  createdAt : timestamp;
  updatedAt : timestamp
}.
End oauthProviders.

Module refreshTokens.
Record row := mk {
  id : uuid;
  userId : uuid;
  tokenHash : string;
  deviceInfo : DeviceInfo;
  expiresAt : timestamp;
  createdAt : timestamp;
  revokedAt : option timestamp
}.
End refreshTokens.

Module verificationTokens.
Record row := mk {
  id : uuid;
  userId : uuid;
  token : string;
  tokenType : TokenType;
  expiresAt : timestamp;
  usedAt : option timestamp;
  createdAt : timestamp
}.
End verificationTokens.

Module authAuditLog.
Record row := mk {
  id : uuid;
  userId : option uuid;
  eventType : string;
  ipAddress : option string;
  userAgent_ : option string;
  metadata_ : metadata;
  success : bool;
  createdAt : timestamp
}.
End authAuditLog.

(** ** The store *)

Record Store := mkStore {
  db_users : list users.row;
  db_oauthProviders : list oauthProviders.row;
  db_refreshTokens : list refreshTokens.row;
  db_verificationTokens : list verificationTokens.row;
  db_authAuditLog : list authAuditLog.row;
  next_uuid : uuid
}.

Definition empty_store : Store := mkStore [] [] [] [] [] 0%nat.

Definition with_users (l : list users.row) (s : Store) : Store :=
  mkStore l (db_oauthProviders s) (db_refreshTokens s)
          (db_verificationTokens s) (db_authAuditLog s) (next_uuid s).

Definition with_oauthProviders (l : list oauthProviders.row) (s : Store) : Store :=
  mkStore (db_users s) l (db_refreshTokens s)
          (db_verificationTokens s) (db_authAuditLog s) (next_uuid s).

Definition with_refreshTokens (l : list refreshTokens.row) (s : Store) : Store :=
  mkStore (db_users s) (db_oauthProviders s) l
          (db_verificationTokens s) (db_authAuditLog s) (next_uuid s).

Definition with_verificationTokens (l : list verificationTokens.row) (s : Store) : Store :=
  mkStore (db_users s) (db_oauthProviders s) (db_refreshTokens s)
          l (db_authAuditLog s) (next_uuid s).

Definition with_authAuditLog (l : list authAuditLog.row) (s : Store) : Store :=
  mkStore (db_users s) (db_oauthProviders s) (db_refreshTokens s)
          (db_verificationTokens s) l (next_uuid s).

Definition bump_uuid (s : Store) : Store :=
  mkStore (db_users s) (db_oauthProviders s) (db_refreshTokens s)
          (db_verificationTokens s) (db_authAuditLog s) (S (next_uuid s)).

(** ** Errors ([types/index.ts]) and the monad *)

Inductive Error :=
| ValidationError (message : string)
| UnauthorizedError (message : string)
| ForbiddenError (message : string)
| NotFoundError (message : string)
| ConflictError (message : string)
| TooManyRequestsError (message : string)
| PlainError (message : string)            (* [new Error(message)] *)
| UniqueViolation (constraint : string)    (* thrown by the driver: 23505 *)
| ForeignKeyViolation (constraint : string)                    (* 23503 *)
| ValueTooLong (column_type : string).                         (* 22001 *)


Definition M (A : Type) : Type := Store -> (Error + A) * Store.

Definition ret {A} (a : A) : M A := fun s => (inr a, s).

Definition throw {A} (e : Error) : M A := fun s => (inl e, s).

Definition bind {A B} (c : M A) (k : A -> M B) : M B :=
  fun s =>
    match c s with
    | (inl e, s') => (inl e, s')
    | (inr a, s') => k a s'
    end.

Notation "x <- c ;; k" := (bind c (fun x => k))
  (at level 61, c at next level, right associativity).
Notation "c ;;; k" := (bind c (fun _ => k))
  (at level 61, right associativity).

(** ** JavaScript truthiness of nullable strings *)

(** [x || null] on an optional string: the empty string is falsy. *)
Definition or_null (x : option string) : option string :=
  match x with
  | Some "" => None
  | _ => x
  end.

(** [!x] on a nullable string column. *)
Definition falsy (x : option string) : bool :=
  match x with
  | None | Some "" => true
  | Some _ => false
  end.

(** [eq(column, value)] on a nullable text column: NULL equals nothing. *)
Definition eq_col (c : option string) (v : string) : bool :=
  match c with
  | Some x => String.eqb x v
  | None => false
  end.

(** ** Text: characters, UTF-16 units, [varchar(n)]

    PostgreSQL counts the characters (code points) of a text, JavaScript's
    [.length] its UTF-16 code units.  In UTF-8 every character starts with
    one byte that is not a continuation byte ([10xxxxxx]), and the characters
    outside the basic plane, which take two UTF-16 units, are those whose
    first byte is [11110xxx]. *)

Definition is_continuation (c : ascii) : bool :=
  (128 <=? nat_of_ascii c)%nat && (nat_of_ascii c <? 192)%nat.

Definition is_astral_lead (c : ascii) : bool := (240 <=? nat_of_ascii c)%nat.

(** [char_length(s)] of PostgreSQL. *)
Fixpoint char_length (s : string) : nat :=
  match s with
  | EmptyString => 0%nat
  | String c rest =>
    if is_continuation c then char_length rest else S (char_length rest)
  end.

(** [s.length] of JavaScript. *)
Fixpoint utf16_length (s : string) : nat :=
  match s with
  | EmptyString => 0%nat
  | String c rest =>
    if is_continuation c then utf16_length rest
    else if is_astral_lead c then S (S (utf16_length rest))
    else S (utf16_length rest)
  end.

(** The first [n] characters of a text, and what follows them. *)
Fixpoint take_chars (n : nat) (s : string) : string :=
  match s with
  | EmptyString => EmptyString
  | String c rest =>
    if is_continuation c then String c (take_chars n rest)
    else match n with
         | O => EmptyString
         | S n' => String c (take_chars n' rest)
         end
  end.

Fixpoint skip_chars (n : nat) (s : string) : string :=
  match s with
  | EmptyString => EmptyString
  | String c rest =>
    if is_continuation c then skip_chars n rest
    else match n with
         | O => s
         | S n' => skip_chars n' rest
         end
  end.

Fixpoint only_spaces (s : string) : bool :=
  match s with
  | EmptyString => true
  | String c rest => Ascii.eqb c " " && only_spaces rest
  end.

(** What a [varchar(n)] column stores when it is given [s]: [s] itself when
    it has at most [n] characters; its first [n] characters when the excess
    consists of spaces only; nothing otherwise (the insert fails with
    SQLSTATE 22001, "value too long for type character varying(n)"). *)
Definition varchar (n : nat) (s : string) : option string :=
  if (char_length s <=? n)%nat then Some s
  else if only_spaces (skip_chars n s) then Some (take_chars n s)
  else None.

(** The same for a nullable value: NULL is stored as NULL. *)
Definition varchar_null (n : nat) (v : option string) : option (option string) :=
  match v with
  | None => Some None
  | Some s => option_map Some (varchar n s)
  end.

Definition fits (n : nat) (s : string) : Prop := (char_length s <= n)%nat.

Definition fits_null (n : nat) (v : option string) : Prop :=
  match v with
  | Some s => fits n s
  | None => True
  end.

Definition value_too_long (n : string) : Error :=
  ValueTooLong ("character varying(" ++ n ++ ")").

(** ** Database primitives *)

Definition has_user (uid : uuid) (s : Store) : bool :=
  existsb (fun u => Nat.eqb (users.id u) uid) (db_users s).

(** [db.select().from(t).where(p).limit(1)], destructured as [[row]]. *)
Definition select_first {R} (tbl : Store -> list R) (where_ : R -> bool)
  : M (option R) :=
  fun s => (inr (find where_ (tbl s)), s).

Definition update_users (set : users.row -> users.row)
           (where_ : users.row -> bool) : M unit :=
  fun s => (inr tt,
            with_users (map (fun r => if where_ r then set r else r) (db_users s)) s).

Definition update_oauthProviders (set : oauthProviders.row -> oauthProviders.row)
           (where_ : oauthProviders.row -> bool) : M unit :=
  fun s => (inr tt,
            with_oauthProviders
              (map (fun r => if where_ r then set r else r) (db_oauthProviders s)) s).

Definition update_refreshTokens (set : refreshTokens.row -> refreshTokens.row)
           (where_ : refreshTokens.row -> bool) : M unit :=
  fun s => (inr tt,
            with_refreshTokens
              (map (fun r => if where_ r then set r else r) (db_refreshTokens s)) s).

Definition update_verificationTokens
           (set : verificationTokens.row -> verificationTokens.row)
           (where_ : verificationTokens.row -> bool) : M unit :=
  fun s => (inr tt,
            with_verificationTokens
              (map (fun r => if where_ r then set r else r) (db_verificationTokens s)) s).

Definition delete_oauthProviders (where_ : oauthProviders.row -> bool) : M unit :=
  fun s => (inr tt,
            with_oauthProviders
              (filter (fun r => negb (where_ r)) (db_oauthProviders s)) s).

(** The columns an insert into [users] may set; the others take their
    defaults. *)
Record NewUser := mkNewUser {
  nu_email : option string;
  nu_passwordHash : option string;
  nu_displayName : option string;
  nu_avatarUrl : option string;
  nu_emailVerified : bool;
  nu_status : UserStatus
}.

Definition email_taken (e : option string) (l : list users.row) : bool :=
  match e with
  | Some x => existsb (fun u => eq_col (users.email u) x) l
  | None => false
  end.

(** [db.insert(users).values(v).returning()].  [email] and [display_name]
    are [varchar(255)]; the values are brought to the column type before the
    unique index is consulted, and [returning()] yields the row as stored.
    [avatar_url] is [text]. *)
Definition insert_users (v : NewUser) (now : timestamp) : M users.row :=
  fun s =>
    match varchar_null 255 (nu_email v), varchar_null 255 (nu_displayName v) with
    | Some email, Some displayName =>
      if email_taken email (db_users s)
      then (inl (UniqueViolation "users_email_unique"), s)
      else
        let r := users.mk (next_uuid s) email (nu_emailVerified v)
                          (nu_passwordHash v) displayName (nu_avatarUrl v)
                          None (nu_status v) now now None in
        (inr r, bump_uuid (with_users (db_users s ++ [r]) s))
    | _, _ => (inl (value_too_long "255"), s)
    end.

Definition oauth_key_eqb (p : OAuthProviderType) (pid : string)
           (r : oauthProviders.row) : bool :=
  OAuthProviderType_eqb (oauthProviders.provider r) p
  && String.eqb (oauthProviders.providerUserId r) pid.

(** [provider_user_id] and [provider_email] are [varchar(255)]; the provider's
    access and refresh tokens are [text]. *)
Definition insert_oauthProviders (uid : uuid) (p : OAuthProviderType)
           (pid : string) (pemail : option string) (access : option string)
           (refresh : option string) (expires : option timestamp)
           (now : timestamp) : M unit :=
  fun s =>
    match varchar 255 pid, varchar_null 255 pemail with
    | Some pid, Some pemail =>
      if negb (has_user uid s)
      then (inl (ForeignKeyViolation "oauth_providers_user_id_users_id_fk"), s)
      else if existsb (oauth_key_eqb p pid) (db_oauthProviders s)
      then (inl (UniqueViolation "idx_oauth_provider"), s)
      else
        let r := oauthProviders.mk (next_uuid s) uid p pid pemail access refresh
                                   expires [] now now in
        (inr tt, bump_uuid (with_oauthProviders (db_oauthProviders s ++ [r]) s))
    | _, _ => (inl (value_too_long "255"), s)
    end.

Definition insert_refreshTokens (uid : uuid) (hash : string) (d : DeviceInfo)
           (expires : timestamp) (now : timestamp) : M unit :=
  fun s =>
    if negb (has_user uid s)
    then (inl (ForeignKeyViolation "refresh_tokens_user_id_users_id_fk"), s)
    else if existsb (fun r => String.eqb (refreshTokens.tokenHash r) hash)
                    (db_refreshTokens s)
    then (inl (UniqueViolation "refresh_tokens_token_hash_unique"), s)
    else
      let r := refreshTokens.mk (next_uuid s) uid hash d expires now None in
      (inr tt, bump_uuid (with_refreshTokens (db_refreshTokens s ++ [r]) s)).

Definition insert_verificationTokens (uid : uuid) (tok : string)
           (ty : TokenType) (expires : timestamp) (now : timestamp) : M unit :=
  fun s =>
    if negb (has_user uid s)
    then (inl (ForeignKeyViolation "verification_tokens_user_id_users_id_fk"), s)
    else if existsb (fun r => String.eqb (verificationTokens.token r) tok)
                    (db_verificationTokens s)
    then (inl (UniqueViolation "verification_tokens_token_unique"), s)
    else
      let r := verificationTokens.mk (next_uuid s) uid tok ty expires None now in
      (inr tt, bump_uuid (with_verificationTokens (db_verificationTokens s ++ [r]) s)).

(** ** Collaborators outside the repository sources

    [jwt_sign] and [jwt_verify] stand for [jsonwebtoken]: signing reads the
    clock for [iat].  [sha256_hex] is [crypto.createHash('sha256')] followed
    by [digest('hex')].  [hashPassword], [verifyPassword] and
    [validatePasswordStrength] are the exports of [utils/password.ts]; the
    second argument of [hashPassword] is the salt bcrypt draws. *)

Inductive JwtType := access | refresh.

Record JwtPayload := mkJwtPayload {
  jp_userId : uuid;
  jp_email : option string;     (* [user.email!] may be null at run time *)
  jp_type : JwtType
}.

Record SignOptions := mkSignOptions {
  so_expiresIn : string;
  so_issuer : string;
  so_audience : string
}.

Record VerifyOptions := mkVerifyOptions {
  vo_issuer : string;
  vo_audience : string
}.

Inductive JwtOutcome :=
| Decoded (p : JwtPayload)
| TokenExpiredError
| JsonWebTokenError
| OtherJwtFailure.

Record PasswordValidation := mkPasswordValidation {
  valid : bool;
  errors : list string
}.

(** [config.jwt] of [config/index.ts] *)
Record JwtConfig := mkJwtConfig {
  secret : string;
  accessTokenExpiry : string;
  refreshTokenExpiry : string
}.

Class Platform := mkPlatform {
  config_jwt : JwtConfig;
  jwt_sign : JwtPayload -> string -> SignOptions -> timestamp -> string;
  jwt_verify : string -> string -> VerifyOptions -> timestamp -> JwtOutcome;
  sha256_hex : string -> string;
  hashPassword : string -> string -> string;
  verifyPassword : string -> string -> bool;
  validatePasswordStrength : string -> PasswordValidation
}.

(** What a call reads from outside the store. *)
Record Env := mkEnv {
  now : timestamp;          (* [new Date()], [Date.now()], milliseconds *)
  randomHex : string;       (* [crypto.randomBytes(32).toString('hex')] *)
  salt : string
}.

(** ** [utils/jwt.ts] *)

Record TokenPair := mkTokenPair {
  tp_accessToken : string;
  tp_refreshToken : string;
  tp_expiresIn : string
}.

Definition generateAccessToken `{Platform} (userId : uuid)
           (email : option string) (t : timestamp) : string :=
  let payload := mkJwtPayload userId email access in
  let options := mkSignOptions (accessTokenExpiry config_jwt)
                               "auth-system" "auth-system-api" in
  jwt_sign payload (secret config_jwt) options t.

Definition generateRefreshToken `{Platform} (userId : uuid)
           (email : option string) (t : timestamp) : string :=
  let payload := mkJwtPayload userId email refresh in
  let options := mkSignOptions (refreshTokenExpiry config_jwt)
                               "auth-system" "auth-system-api" in
  jwt_sign payload (secret config_jwt) options t.

Definition generateTokenPair `{Platform} (userId : uuid)
           (email : option string) (t : timestamp) : TokenPair :=
  mkTokenPair (generateAccessToken userId email t)
              (generateRefreshToken userId email t)
              (accessTokenExpiry config_jwt).

Definition verifyToken `{Platform} (token : string) (t : timestamp)
  : Error + JwtPayload :=
  match jwt_verify token (secret config_jwt)
                   (mkVerifyOptions "auth-system" "auth-system-api") t with
  | Decoded decoded => inr decoded
  | TokenExpiredError => inl (UnauthorizedError "Token has expired")
  | JsonWebTokenError => inl (UnauthorizedError "Invalid token")
  | OtherJwtFailure => inl (UnauthorizedError "Token verification failed")
  end.

(** ** [utils/crypto.ts] *)

Definition generateToken (env : Env) : string := randomHex env.

Definition hashToken `{Platform} (token : string) : string := sha256_hex token.

(** ** [types/index.ts]: audit event names and DTOs *)

Module AuditEventType.
Definition REGISTER := "user.register".
Definition LOGIN := "user.login".
Definition LOGOUT := "user.logout".
Definition LOGIN_FAILED := "user.login.failed".
Definition PASSWORD_RESET_REQUEST := "user.password.reset.request".
Definition PASSWORD_RESET := "user.password.reset".
Definition EMAIL_VERIFY := "user.email.verify".
Definition OAUTH_LINK := "user.oauth.link".
Definition OAUTH_UNLINK := "user.oauth.unlink".
Definition TOKEN_REFRESH := "user.token.refresh".
End AuditEventType.

Record RegisterDto := mkRegisterDto {
  reg_email : string;
  reg_password : string;
  reg_displayName : option string
}.

Record LoginDto := mkLoginDto {
  login_email : string;
  login_password : string
}.

Record OAuthProfile := mkOAuthProfile {
  op_provider : OAuthProviderType;
  op_providerId : string;
  op_email : string;
  op_displayName : option string;
  op_avatarUrl : option string;
  op_accessToken : string;
  op_refreshToken : option string;
  op_expiresAt : option timestamp
}.

Record AuditLogData := mkAuditLogData {
  ad_userId : option uuid;
  ad_eventType : string;
  ad_ipAddress : option string;
  ad_userAgent : option string;
  ad_metadata : option metadata;
  ad_success : option bool
}.

(** The projections the service returns. *)
Record RegisteredUser := mkRegisteredUser {
  ru_id : uuid;
  ru_email : option string;
  ru_displayName : option string;
  ru_emailVerified : bool
}.

Record RegisterResult := mkRegisterResult {
  rr_user : RegisteredUser;
  rr_message : string
}.

Record UserView := mkUserView {
  uv_id : uuid;
  uv_email : option string;
  uv_displayName : option string;
  uv_emailVerified : bool;
  uv_avatarUrl : option string
}.

Record LoginResult := mkLoginResult {
  lr_user : UserView;
  lr_accessToken : string;
  lr_refreshToken : string;
  lr_tokenType : string;
  lr_expiresIn : string
}.

Record RefreshResult := mkRefreshResult {
  fr_accessToken : string;
  fr_refreshToken : string;
  fr_tokenType : string;
  fr_expiresIn : string
}.

Record OAuthResult := mkOAuthResult {
  or_user : UserView;
  or_accessToken : string;
  or_refreshToken : string;
  or_tokenType : string;
  or_expiresIn : string;
  or_isNewUser : bool
}.

Record Ack := mkAck { message : string }.

(** ** [services/emailService.ts]

    Delivery happens outside the store, and every call site catches its
    failure; on the store a send is the identity. *)

Definition sendVerificationEmail (email : option string) (token : string) : M unit :=
  ret tt.

Definition sendPasswordResetEmail (email : option string) (token : string) : M unit :=
  ret tt.

Definition sendWelcomeEmail (email : option string) (name : option string) : M unit :=
  ret tt.

(** ** [services/authService.ts] *)

Definition d_ip (d : option DeviceInfo) : option string :=
  match d with Some i => ip i | None => None end.

Definition d_userAgent (d : option DeviceInfo) : option string :=
  match d with Some i => userAgent i | None => None end.

Definition d_or_empty (d : option DeviceInfo) : DeviceInfo :=
  match d with Some i => i | None => noDevice end.

Definition thirty_days : Z := 30 * 24 * 60 * 60 * 1000.
Definition one_day : Z := 24 * 60 * 60 * 1000.
Definition one_hour : Z := 60 * 60 * 1000.

(** [logAuditEvent]: the insert sits in a try/catch that only logs, so a
    rejected insert leaves the store as it was and the caller goes on.  The
    insert is rejected for an unknown [userId], for an [event_type] that does
    not fit [varchar(100)] and for an [ip_address] that does not fit
    [varchar(45)]; [user_agent] is [text]. *)
Definition logAuditEvent (data : AuditLogData) (t : timestamp) : M unit :=
  fun s =>
    let fk_ok := match ad_userId data with
                 | Some u => has_user u s
                 | None => true
                 end in
    match varchar 100 (ad_eventType data),
          varchar_null 45 (or_null (ad_ipAddress data)) with
    | Some eventType, Some ipAddress =>
      if fk_ok then
        let r := authAuditLog.mk (next_uuid s) (ad_userId data) eventType
                   ipAddress (or_null (ad_userAgent data))
                   (match ad_metadata data with Some m => m | None => [] end)
                   (match ad_success data with Some b => b | None => true end)
                   t in
        (inr tt, bump_uuid (with_authAuditLog (db_authAuditLog s ++ [r]) s))
      else (inr tt, s)
    | _, _ => (inr tt, s)
    end.

Definition provider_name (p : OAuthProviderType) : string :=
  match p with
  | google => "google"
  | facebook => "facebook"
  | apple => "apple"
  end.

Definition revoke (t : timestamp) (r : refreshTokens.row) : refreshTokens.row :=
  refreshTokens.mk (refreshTokens.id r) (refreshTokens.userId r)
                   (refreshTokens.tokenHash r) (refreshTokens.deviceInfo r)
                   (refreshTokens.expiresAt r) (refreshTokens.createdAt r) (Some t).

Definition mark_used (t : timestamp) (r : verificationTokens.row)
  : verificationTokens.row :=
  verificationTokens.mk (verificationTokens.id r) (verificationTokens.userId r)
                        (verificationTokens.token r) (verificationTokens.tokenType r)
                        (verificationTokens.expiresAt r) (Some t)
                        (verificationTokens.createdAt r).

Definition set_lastLoginAt (t : timestamp) (r : users.row) : users.row :=
  users.mk (users.id r) (users.email r) (users.emailVerified r)
           (users.passwordHash r) (users.displayName r) (users.avatarUrl r)
           (users.phoneNumber r) (users.status r) (users.createdAt r)
           (users.updatedAt r) (Some t).

Definition set_emailVerified (b : bool) (r : users.row) : users.row :=
  users.mk (users.id r) (users.email r) b
           (users.passwordHash r) (users.displayName r) (users.avatarUrl r)
           (users.phoneNumber r) (users.status r) (users.createdAt r)
           (users.updatedAt r) (users.lastLoginAt r).

Definition set_passwordHash (h : string) (r : users.row) : users.row :=
  users.mk (users.id r) (users.email r) (users.emailVerified r)
           (Some h) (users.displayName r) (users.avatarUrl r)
           (users.phoneNumber r) (users.status r) (users.createdAt r)
           (users.updatedAt r) (users.lastLoginAt r).

(** [.set({ accessToken, refreshToken, tokenExpiresAt })]: the query builder
    leaves out the keys whose value is [undefined], so an absent optional
    field of the profile keeps the stored column.  [accessToken] is a
    [string] in [OAuthProfile], so the set of assignments is never empty.
    The three columns are [text] and a timestamp: no length limit. *)
Definition set_provider_tokens (profile : OAuthProfile) (r : oauthProviders.row)
  : oauthProviders.row :=
  oauthProviders.mk
    (oauthProviders.id r) (oauthProviders.userId r) (oauthProviders.provider r)
    (oauthProviders.providerUserId r) (oauthProviders.providerEmail r)
    (Some (op_accessToken profile))
    (match op_refreshToken profile with
     | Some x => Some x
     | None => oauthProviders.refreshToken r
     end)
    (match op_expiresAt profile with
     | Some x => Some x
     | None => oauthProviders.tokenExpiresAt r
     end)
    (oauthProviders.metadata_ r) (oauthProviders.createdAt r)
    (oauthProviders.updatedAt r).

Definition register `{Platform} (data : RegisterDto) (deviceInfo : option DeviceInfo)
           (env : Env) : M RegisterResult :=
  let passwordValidation := validatePasswordStrength (reg_password data) in
  if negb (valid passwordValidation)
  then throw (ValidationError (String.concat ", " (errors passwordValidation)))
  else
    existingUser <- select_first db_users
                      (fun u => eq_col (users.email u) (reg_email data)) ;;
    match existingUser with
    | Some _ => throw (ConflictError "User with this email already exists")
    | None =>
      let passwordHash := hashPassword (reg_password data) (salt env) in
      newUser <- insert_users
                   (mkNewUser (Some (reg_email data)) (Some passwordHash)
                              (or_null (reg_displayName data)) None false active)
                   (now env) ;;
      let verificationToken := generateToken env in
      let expiresAt := now env + one_day in
      insert_verificationTokens (users.id newUser) verificationToken
                                email_verification expiresAt (now env) ;;;
      sendVerificationEmail (users.email newUser) verificationToken ;;;
      logAuditEvent
        (mkAuditLogData (Some (users.id newUser)) AuditEventType.REGISTER
                        (d_ip deviceInfo) (d_userAgent deviceInfo) None (Some true))
        (now env) ;;;
      ret (mkRegisterResult
             (mkRegisteredUser (users.id newUser) (users.email newUser)
                               (users.displayName newUser)
                               (users.emailVerified newUser))
             "Registration successful. Please check your email to verify your account.")
    end.

Definition login `{Platform} (data : LoginDto) (deviceInfo : option DeviceInfo)
           (env : Env) : M LoginResult :=
  found <- select_first db_users
             (fun u => eq_col (users.email u) (login_email data)) ;;
  let user_not_found :=
    logAuditEvent
      (mkAuditLogData None AuditEventType.LOGIN_FAILED
                      (d_ip deviceInfo) (d_userAgent deviceInfo)
                      (Some [("email", login_email data); ("reason", "user_not_found")])
                      (Some false))
      (now env) ;;;
    throw (UnauthorizedError "Invalid email or password") in
  match found with
  | None => user_not_found
  | Some user =>
    if falsy (users.passwordHash user) then user_not_found
    else
      let isPasswordValid :=
        verifyPassword (login_password data)
                       (match users.passwordHash user with Some h => h | None => "" end) in
      if negb isPasswordValid then
        logAuditEvent
          (mkAuditLogData (Some (users.id user)) AuditEventType.LOGIN_FAILED
                          (d_ip deviceInfo) (d_userAgent deviceInfo)
                          (Some [("reason", "invalid_password")]) (Some false))
          (now env) ;;;
        throw (UnauthorizedError "Invalid email or password")
      else if negb (UserStatus_eqb (users.status user) active) then
        throw (UnauthorizedError "Account is not active")
      else
        let tokens := generateTokenPair (users.id user) (users.email user) (now env) in
        let refreshTokenHash := hashToken (tp_refreshToken tokens) in
        let expiresAt := now env + thirty_days in
        insert_refreshTokens (users.id user) refreshTokenHash
                             (d_or_empty deviceInfo) expiresAt (now env) ;;;
        update_users (set_lastLoginAt (now env))
                     (fun r => Nat.eqb (users.id r) (users.id user)) ;;;
        logAuditEvent
          (mkAuditLogData (Some (users.id user)) AuditEventType.LOGIN
                          (d_ip deviceInfo) (d_userAgent deviceInfo) None (Some true))
          (now env) ;;;
        ret (mkLoginResult
               (mkUserView (users.id user) (users.email user)
                           (users.displayName user) (users.emailVerified user)
                           (users.avatarUrl user))
               (tp_accessToken tokens) (tp_refreshToken tokens)
               "Bearer" (tp_expiresIn tokens))
  end.

Definition refreshAccessToken `{Platform} (refreshToken : string)
           (deviceInfo : option DeviceInfo) (env : Env) : M RefreshResult :=
  let tokenHash := hashToken refreshToken in
  found <- select_first db_refreshTokens
             (fun r => String.eqb (refreshTokens.tokenHash r) tokenHash
                       && (now env <? refreshTokens.expiresAt r)) ;;
  match found with
  | None => throw (UnauthorizedError "Invalid or expired refresh token")
  | Some token =>
    match refreshTokens.revokedAt token with
    | Some _ => throw (UnauthorizedError "Invalid or expired refresh token")
    | None =>
      owner <- select_first db_users
                 (fun u => Nat.eqb (users.id u) (refreshTokens.userId token)) ;;
      match owner with
      | None => throw (UnauthorizedError "User not found or inactive")
      | Some user =>
        if negb (UserStatus_eqb (users.status user) active)
        then throw (UnauthorizedError "User not found or inactive")
        else
          let tokens := generateTokenPair (users.id user) (users.email user) (now env) in
          update_refreshTokens
            (revoke (now env))
            (fun r => Nat.eqb (refreshTokens.id r) (refreshTokens.id token)) ;;;
          let newTokenHash := hashToken (tp_refreshToken tokens) in
          let expiresAt := now env + thirty_days in
          insert_refreshTokens (users.id user) newTokenHash
                               (d_or_empty deviceInfo) expiresAt (now env) ;;;
          logAuditEvent
            (mkAuditLogData (Some (users.id user)) AuditEventType.TOKEN_REFRESH
                            (d_ip deviceInfo) (d_userAgent deviceInfo) None (Some true))
            (now env) ;;;
          ret (mkRefreshResult (tp_accessToken tokens) (tp_refreshToken tokens)
                               "Bearer" (tp_expiresIn tokens))
      end
    end
  end.

Definition logout `{Platform} (refreshToken : string) (userId : uuid)
           (deviceInfo : option DeviceInfo) (env : Env) : M Ack :=
  let tokenHash := hashToken refreshToken in
  update_refreshTokens
    (revoke (now env))
    (fun r => String.eqb (refreshTokens.tokenHash r) tokenHash
              && Nat.eqb (refreshTokens.userId r) userId) ;;;
  logAuditEvent
    (mkAuditLogData (Some userId) AuditEventType.LOGOUT
                    (d_ip deviceInfo) (d_userAgent deviceInfo) None (Some true))
    (now env) ;;;
  ret (mkAck "Logged out successfully").

(** The [where] clause shared by [verifyEmail] and [resetPassword]. *)
Definition one_time_lookup (token : string) (ty : TokenType) (t : timestamp)
           (r : verificationTokens.row) : bool :=
  String.eqb (verificationTokens.token r) token
  && TokenType_eqb (verificationTokens.tokenType r) ty
  && (t <? verificationTokens.expiresAt r).

Definition verifyEmail (token : string) (env : Env) : M Ack :=
  found <- select_first db_verificationTokens
             (one_time_lookup token email_verification (now env)) ;;
  match found with
  | None => throw (ValidationError "Invalid or expired verification token")
  | Some verificationToken =>
    match verificationTokens.usedAt verificationToken with
    | Some _ => throw (ValidationError "Invalid or expired verification token")
    | None =>
      update_users
        (set_emailVerified true)
        (fun u => Nat.eqb (users.id u) (verificationTokens.userId verificationToken)) ;;;
      update_verificationTokens
        (mark_used (now env))
        (fun r => Nat.eqb (verificationTokens.id r)
                          (verificationTokens.id verificationToken)) ;;;
      owner <- select_first db_users
                 (fun u => Nat.eqb (users.id u)
                                   (verificationTokens.userId verificationToken)) ;;
      match owner with
      | Some user =>
        sendWelcomeEmail (users.email user) (users.displayName user) ;;;
        logAuditEvent
          (mkAuditLogData (Some (users.id user)) AuditEventType.EMAIL_VERIFY
                          None None None (Some true))
          (now env)
      | None => ret tt
      end ;;;
      ret (mkAck "Email verified successfully")
    end
  end.

Definition requestPasswordReset (email : string) (deviceInfo : option DeviceInfo)
           (env : Env) : M Ack :=
  found <- select_first db_users (fun u => eq_col (users.email u) email) ;;
  match found with
  | None => ret (mkAck "If the email exists, a password reset link has been sent")
  | Some user =>
    let resetToken := generateToken env in
    let expiresAt := now env + one_hour in
    insert_verificationTokens (users.id user) resetToken password_reset
                              expiresAt (now env) ;;;
    sendPasswordResetEmail (users.email user) resetToken ;;;
    logAuditEvent
      (mkAuditLogData (Some (users.id user)) AuditEventType.PASSWORD_RESET_REQUEST
                      (d_ip deviceInfo) (d_userAgent deviceInfo) None (Some true))
      (now env) ;;;
    ret (mkAck "If the email exists, a password reset link has been sent")
  end.

Definition resetPassword `{Platform} (token : string) (newPassword : string)
           (deviceInfo : option DeviceInfo) (env : Env) : M Ack :=
  let passwordValidation := validatePasswordStrength newPassword in
  if negb (valid passwordValidation)
  then throw (ValidationError (String.concat ", " (errors passwordValidation)))
  else
    found <- select_first db_verificationTokens
               (one_time_lookup token password_reset (now env)) ;;
    match found with
    | None => throw (ValidationError "Invalid or expired reset token")
    | Some resetToken =>
      match verificationTokens.usedAt resetToken with
      | Some _ => throw (ValidationError "Invalid or expired reset token")
      | None =>
        let passwordHash := hashPassword newPassword (salt env) in
        update_users
          (set_passwordHash passwordHash)
          (fun u => Nat.eqb (users.id u) (verificationTokens.userId resetToken)) ;;;
        update_verificationTokens
          (mark_used (now env))
          (fun r => Nat.eqb (verificationTokens.id r)
                            (verificationTokens.id resetToken)) ;;;
        update_refreshTokens
          (revoke (now env))
          (fun r => Nat.eqb (refreshTokens.userId r)
                            (verificationTokens.userId resetToken)) ;;;
        logAuditEvent
          (mkAuditLogData (Some (verificationTokens.userId resetToken))
                          AuditEventType.PASSWORD_RESET
                          (d_ip deviceInfo) (d_userAgent deviceInfo) None (Some true))
          (now env) ;;;
        ret (mkAck "Password reset successfully")
      end
    end.

(** The first half of [handleOAuthCallback]: from the lookup of the linked
    provider down to the [if (!user)] guard.  It yields the resolved user and
    [isNewUser]. *)
Definition resolveOAuthUser (profile : OAuthProfile)
           (deviceInfo : option DeviceInfo) (env : Env) : M (users.row * bool) :=
  existingProvider <- select_first db_oauthProviders
                        (oauth_key_eqb (op_provider profile) (op_providerId profile)) ;;
  resolved <-
    match existingProvider with
    | Some existing =>
      owner <- select_first db_users
                 (fun u => Nat.eqb (users.id u) (oauthProviders.userId existing)) ;;
      update_oauthProviders
        (set_provider_tokens profile)
        (fun r => Nat.eqb (oauthProviders.id r) (oauthProviders.id existing)) ;;;
      ret (owner, false)
    | None =>
      existingUser <- select_first db_users
                        (fun u => eq_col (users.email u) (op_email profile)) ;;
      created <-
        match existingUser with
        | Some u => ret (u, false)
        | None =>
          u <- insert_users
                 (mkNewUser (Some (op_email profile)) None
                            (or_null (op_displayName profile))
                            (or_null (op_avatarUrl profile)) true active)
                 (now env) ;;
          logAuditEvent
            (mkAuditLogData (Some (users.id u)) AuditEventType.REGISTER
                            (d_ip deviceInfo) (d_userAgent deviceInfo)
                            (Some [("provider", provider_name (op_provider profile))])
                            (Some true))
            (now env) ;;;
          ret (u, true)
        end ;;
      let '(user, isNewUser) := created in
      insert_oauthProviders (users.id user) (op_provider profile)
                            (op_providerId profile) (Some (op_email profile))
                            (Some (op_accessToken profile)) (op_refreshToken profile)
                            (op_expiresAt profile) (now env) ;;;
      logAuditEvent
        (mkAuditLogData (Some (users.id user)) AuditEventType.OAUTH_LINK
                        (d_ip deviceInfo) (d_userAgent deviceInfo)
                        (Some [("provider", provider_name (op_provider profile))])
                        (Some true))
        (now env) ;;;
      ret (Some user, isNewUser)
    end ;;
  match fst resolved with
  | None => throw (PlainError "Failed to create or find user")
  | Some user => ret (user, snd resolved)
  end.

(** The second half: token issue, last-login update, audit, projection. *)
Definition issueOAuthSession `{Platform} (profile : OAuthProfile)
           (deviceInfo : option DeviceInfo) (env : Env)
           (user : users.row) (isNewUser : bool) : M OAuthResult :=
  let tokens := generateTokenPair (users.id user) (users.email user) (now env) in
  let refreshTokenHash := hashToken (tp_refreshToken tokens) in
  let expiresAt := now env + thirty_days in
  insert_refreshTokens (users.id user) refreshTokenHash
                       (d_or_empty deviceInfo) expiresAt (now env) ;;;
  update_users (set_lastLoginAt (now env))
               (fun r => Nat.eqb (users.id r) (users.id user)) ;;;
  logAuditEvent
    (mkAuditLogData (Some (users.id user)) AuditEventType.LOGIN
                    (d_ip deviceInfo) (d_userAgent deviceInfo)
                    (Some [("provider", provider_name (op_provider profile))])
                    (Some true))
    (now env) ;;;
  ret (mkOAuthResult
         (mkUserView (users.id user) (users.email user) (users.displayName user)
                     (users.emailVerified user) (users.avatarUrl user))
         (tp_accessToken tokens) (tp_refreshToken tokens)
         "Bearer" (tp_expiresIn tokens) isNewUser).

Definition handleOAuthCallback `{Platform} (profile : OAuthProfile)
           (deviceInfo : option DeviceInfo) (env : Env) : M OAuthResult :=
  resolved <- resolveOAuthUser profile deviceInfo env ;;
  issueOAuthSession profile deviceInfo env (fst resolved) (snd resolved).

(** [removeOAuthProvider]: no primitive it calls can throw on these
    arguments, so the [catch] branch is not reachable in the embedding. *)
Definition removeOAuthProvider (provider : OAuthProviderType)
           (providerUserId : string) (deviceInfo : option DeviceInfo)
           (env : Env) : M bool :=
  existingProvider <- select_first db_oauthProviders
                        (oauth_key_eqb provider providerUserId) ;;
  match existingProvider with
  | None => ret false
  | Some existing =>
    delete_oauthProviders
      (fun r => Nat.eqb (oauthProviders.id r) (oauthProviders.id existing)) ;;;
    logAuditEvent
      (mkAuditLogData (Some (oauthProviders.userId existing))
                      AuditEventType.OAUTH_UNLINK
                      (d_ip deviceInfo) (d_userAgent deviceInfo)
                      (Some [("provider", provider_name provider);
                             ("providerUserId", providerUserId)])
                      (Some true))
      (now env) ;;;
    ret true
  end.

(** ** Calls and traces

    The public methods of [AuthService], as requests a caller can make.  The
    only other write to the store in the sources, [updateProfile] of the
    controller, sets the display name, phone number and avatar of one
    [users] row and touches no token table. *)

Inductive Request :=
| ReqRegister (data : RegisterDto) (deviceInfo : option DeviceInfo)
| ReqLogin (data : LoginDto) (deviceInfo : option DeviceInfo)
| ReqRefresh (refreshToken : string) (deviceInfo : option DeviceInfo)
| ReqLogout (refreshToken : string) (userId : uuid) (deviceInfo : option DeviceInfo)
| ReqVerifyEmail (token : string)
| ReqForgotPassword (email : string) (deviceInfo : option DeviceInfo)
| ReqResetPassword (token : string) (newPassword : string)
                   (deviceInfo : option DeviceInfo)
| ReqOAuth (profile : OAuthProfile) (deviceInfo : option DeviceInfo)
| ReqUnlink (provider : OAuthProviderType) (providerUserId : string)
            (deviceInfo : option DeviceInfo).

(** The store a call leaves behind, whether it returned or threw. *)
Definition step `{Platform} (q : Request) (env : Env) (s : Store) : Store :=
  match q with
  | ReqRegister data d => snd (register data d env s)
  | ReqLogin data d => snd (login data d env s)
  | ReqRefresh t d => snd (refreshAccessToken t d env s)
  | ReqLogout t u d => snd (logout t u d env s)
  | ReqVerifyEmail t => snd (verifyEmail t env s)
  | ReqForgotPassword e d => snd (requestPasswordReset e d env s)
  | ReqResetPassword t p d => snd (resetPassword t p d env s)
  | ReqOAuth p d => snd (handleOAuthCallback p d env s)
  | ReqUnlink p i d => snd (removeOAuthProvider p i d env s)
  end.

Fixpoint run `{Platform} (trace : list (Request * Env)) (s : Store) : Store :=
  match trace with
  | [] => s
  | (q, env) :: rest => run rest (step q env s)
  end.

(** The clock never goes back along a trace that starts at instant [t]. *)
Fixpoint clock_monotone (t : timestamp) (trace : list (Request * Env)) : Prop :=
  match trace with
  | [] => True
  | (_, env) :: rest => t <= now env /\ clock_monotone (now env) rest
  end.

Definition last_instant (t : timestamp) (trace : list (Request * Env)) : timestamp :=
  fold_left (fun _ qe => now (snd qe)) trace t.

(** ** Store invariant: what the schema's constraints guarantee *)

Definition user_emails (l : list users.row) : list string :=
  flat_map (fun u => match users.email u with Some e => [e] | None => [] end) l.

Definition oauth_keys (l : list oauthProviders.row)
  : list (OAuthProviderType * string) :=
  map (fun r => (oauthProviders.provider r, oauthProviders.providerUserId r)) l.

Record wf (s : Store) : Prop := mkWf {
  wf_user_ids : NoDup (map users.id (db_users s));
  wf_user_fresh : forall u, In u (db_users s) -> (users.id u < next_uuid s)%nat;
  wf_user_emails : NoDup (user_emails (db_users s));
  wf_oauth_ids : NoDup (map oauthProviders.id (db_oauthProviders s));
  wf_oauth_fresh :
    forall r, In r (db_oauthProviders s) -> (oauthProviders.id r < next_uuid s)%nat;
  wf_oauth_keys : NoDup (oauth_keys (db_oauthProviders s));
  wf_oauth_fk :
    forall r, In r (db_oauthProviders s) ->
              has_user (oauthProviders.userId r) s = true;
  wf_refresh_ids : NoDup (map refreshTokens.id (db_refreshTokens s));
  wf_refresh_fresh :
    forall r, In r (db_refreshTokens s) -> (refreshTokens.id r < next_uuid s)%nat;
  wf_refresh_hashes : NoDup (map refreshTokens.tokenHash (db_refreshTokens s));
  wf_verification_ids : NoDup (map verificationTokens.id (db_verificationTokens s));
  wf_verification_fresh :
    forall r, In r (db_verificationTokens s) ->
              (verificationTokens.id r < next_uuid s)%nat;
  wf_verification_tokens :
    NoDup (map verificationTokens.token (db_verificationTokens s))
}.

(** ** A concrete platform and scenarios

    Closed examples need the collaborators to compute.  The token codec below
    writes the payload in clear behind the secret, separated by bars, with
    [iat] in whole seconds as [jsonwebtoken] has it; checking the signature
    is comparing the secret, and the expiry is read back from the token.
    The digest wraps its argument.  They are used by the closed examples
    only; every general statement is about an arbitrary [Platform]. *)

Module Demo.

Fixpoint cut (s : string) : string * string :=
  match s with
  | EmptyString => ("", "")
  | String c rest =>
    if Ascii.eqb c "|" then ("", rest)
    else let (a, b) := cut rest in (String c a, b)
  end.

Definition show_N (n : N) : string := NilEmpty.string_of_uint (N.to_uint n).

Definition read_N (s : string) : option N :=
  match s with
  | EmptyString => None
  | _ => option_map N.of_uint (NilEmpty.uint_of_string s)
  end.

(** Seconds in the [expiresIn] spans the configuration uses. *)
Definition span_seconds (span : string) : Z :=
  if String.eqb span "15m" then 900
  else if String.eqb span "1h" then 3600
  else if String.eqb span "7d" then 604800
  else if String.eqb span "30d" then 2592000
  else 0.

Definition type_tag (ty : JwtType) : string :=
  match ty with access => "access" | refresh => "refresh" end.

Definition read_type (s : string) : option JwtType :=
  if String.eqb s "access" then Some access
  else if String.eqb s "refresh" then Some refresh
  else None.

Definition sign (p : JwtPayload) (key : string) (o : SignOptions)
           (t : timestamp) : string :=
  let iat := t / 1000 in
  let exp := iat + span_seconds (so_expiresIn o) in
  key ++ "|" ++ type_tag (jp_type p)
      ++ "|" ++ show_N (N.of_nat (jp_userId p))
      ++ "|" ++ show_N (Z.to_N exp)
      ++ "|" ++ match jp_email p with Some e => e | None => "" end.

Definition verify (token : string) (key : string) (o : VerifyOptions)
           (t : timestamp) : JwtOutcome :=
  let (sig, r1) := cut token in
  let (ty, r2) := cut r1 in
  let (uid, r3) := cut r2 in
  let (exp, mail) := cut r3 in
  if negb (String.eqb sig key) then JsonWebTokenError
  else
    match read_type ty, read_N uid, read_N exp with
    | Some ty', Some uid', Some exp' =>
      if Z.of_N exp' * 1000 <=? t then TokenExpiredError
      else Decoded (mkJwtPayload (N.to_nat uid') (Some mail) ty')
    | _, _, _ => JsonWebTokenError
    end.

Definition digest (s : string) : string := "sha256(" ++ s ++ ")".

Definition hash_password (pw salt_ : string) : string := salt_ ++ "|" ++ pw.

Definition verify_password (pw hash : string) : bool :=
  String.eqb (snd (cut hash)) pw.

Definition between (lo hi : nat) (c : ascii) : bool :=
  let n := nat_of_ascii c in (lo <=? n)%nat && (n <=? hi)%nat.

Fixpoint any (p : ascii -> bool) (s : string) : bool :=
  match s with
  | EmptyString => false
  | String c rest => p c || any p rest
  end.

Definition is_upper := between 65 90.
Definition is_lower := between 97 122.
Definition is_digit := between 48 57.
Definition is_symbol (c : ascii) : bool :=
  negb (is_upper c || is_lower c || is_digit c) && between 33 126 c.

(** Modelled from the spec: [utils/password.ts] is not among the sources.
    The rule set is the one of section 4.4 (at least 8 characters, an upper
    case letter, a lower case letter, a digit, a symbol), every violation
    reported; the messages are those its test file expects. *)
Definition validate_password_strength (pw : string) : PasswordValidation :=
  let errs :=
    ((if (String.length pw <? 8)%nat
      then ["Password must be at least 8 characters long"] else [])
     ++ (if any is_upper pw then []
         else ["Password must contain at least one uppercase letter"])
     ++ (if any is_lower pw then []
         else ["Password must contain at least one lowercase letter"])
     ++ (if any is_digit pw then []
         else ["Password must contain at least one number"])
     ++ (if any is_symbol pw then []
         else ["Password must contain at least one special character"]))%list in
  mkPasswordValidation (match errs with [] => true | _ => false end) errs.

Definition platform_with (cfg : JwtConfig) : Platform :=
  mkPlatform cfg sign verify digest hash_password verify_password
             validate_password_strength.

(** The defaults of [config/index.ts]. *)
Definition platform : Platform :=
  platform_with (mkJwtConfig "k1" "15m" "30d").

Definition t0 : timestamp := 1700000000000.

Definition env_at (offset_ms : Z) (rnd : string) : Env :=
  mkEnv (t0 + offset_ms) rnd "salt".

Definition alice : RegisterDto :=
  mkRegisterDto "alice@x.com" "Str0ng!Pass" (Some "Alice").

Definition alice_login : LoginDto := mkLoginDto "alice@x.com" "Str0ng!Pass".

(** Alice registers, then logs in one minute later. *)
Definition after_register : Store :=
  @run platform [(ReqRegister alice None, env_at 0 "c0ffee")] empty_store.

Definition after_login : Store :=
  @run platform [(ReqLogin alice_login None, env_at 60000 "")] after_register.

Definition alice_refresh_token : string :=
  @generateRefreshToken platform 0%nat (Some "alice@x.com") (t0 + 60000).

(** A minute later she asks for a password reset. *)
Definition after_forgot : Store :=
  @run platform [(ReqForgotPassword "alice@x.com" None, env_at 120000 "beef")]
       after_login.

(** Bob signs in with Google. *)
Definition bob : OAuthProfile :=
  mkOAuthProfile google "g-1" "bob@x.com" (Some "Bob") None "ya29.first"
                 (Some "1//refresh") None.

(** The same Google identity five seconds later, with the provider's new
    access token and no refresh token. *)
Definition bob_again : OAuthProfile :=
  mkOAuthProfile google "g-1" "bob@x.com" (Some "Bob") None "ya29.second"
                 None None.

(** Someone signs in with Facebook under Alice's address. *)
Definition alice_facebook : OAuthProfile :=
  mkOAuthProfile facebook "fb-9" "alice@x.com" (Some "Alice F") None "EAAB"
                 None None.




(** Bob has signed in with Google; his account is then suspended (a status
    change made outside the service, for which it has no method). *)
Definition set_status (st : UserStatus) (r : users.row) : users.row :=
  users.mk (users.id r) (users.email r) (users.emailVerified r)
           (users.passwordHash r) (users.displayName r) (users.avatarUrl r)
           (users.phoneNumber r) st (users.createdAt r)
           (users.updatedAt r) (users.lastLoginAt r).

Definition after_bob : Store :=
  @run platform [(ReqOAuth bob None, env_at 0 "")] empty_store.

Definition bob_suspended : Store :=
  snd (update_users (set_status suspended) (fun _ => true) after_bob).






Definition padded_address : string := "alice@x.com" ++ String.concat "" (repeat " " 250).

(** U+00E9 in UTF-8; sixteen of them make 32 bytes, 16 characters and 16
    UTF-16 code units. *)
Definition e_acute : string :=
  String (ascii_of_nat 195) (String (ascii_of_nat 169) EmptyString).

Definition accented_secret : string := String.concat "" (repeat e_acute 16).
End Demo.

(** ** Vocabulary of the statements *)

(** A computation whose every run relates the store it starts from to the
    store it leaves. *)
Definition respects (R : Store -> Store -> Prop) {A} (c : M A) : Prop :=
  forall s, R s (snd (c s)).

Definition keeps_wf (s s' : Store) : Prop := wf s -> wf s'.

Definition refresh_le (r r' : refreshTokens.row) : Prop :=
  refreshTokens.id r' = refreshTokens.id r
  /\ refreshTokens.userId r' = refreshTokens.userId r
  /\ refreshTokens.tokenHash r' = refreshTokens.tokenHash r
  /\ refreshTokens.expiresAt r' = refreshTokens.expiresAt r
  /\ (refreshTokens.revokedAt r <> None -> refreshTokens.revokedAt r' <> None).

Definition verification_le (r r' : verificationTokens.row) : Prop :=
  verificationTokens.id r' = verificationTokens.id r
  /\ verificationTokens.userId r' = verificationTokens.userId r
  /\ verificationTokens.token r' = verificationTokens.token r
  /\ verificationTokens.tokenType r' = verificationTokens.tokenType r
  /\ verificationTokens.expiresAt r' = verificationTokens.expiresAt r
  /\ (verificationTokens.usedAt r <> None -> verificationTokens.usedAt r' <> None).

Record evolves (s s' : Store) : Prop := mkEvolves {
  ev_refresh :
    forall r, In r (db_refreshTokens s) ->
              exists r', In r' (db_refreshTokens s') /\ refresh_le r r';
  ev_verification :
    forall r, In r (db_verificationTokens s) ->
              exists r', In r' (db_verificationTokens s') /\ verification_le r r'
}.

(** The refresh-token table after a rotation: the presented row revoked in
    place, the issued row appended. *)
Definition rotated (t : timestamp) (old issued : refreshTokens.row)
           (l : list refreshTokens.row) : list refreshTokens.row :=
  (map (fun x => if Nat.eqb (refreshTokens.id x) (refreshTokens.id old)
                 then revoke t x else x) l ++ [issued])%list.

(** A stored one-time token that has been consumed, or whose expiry is at or
    before instant [t]. *)
Definition spent (tok : string) (t : timestamp) (s : Store) : Prop :=
  exists r, In r (db_verificationTokens s)
            /\ verificationTokens.token r = tok
            /\ (verificationTokens.usedAt r <> None
                \/ verificationTokens.expiresAt r <= t).



Definition user_view (u : users.row) : UserView :=
  mkUserView (users.id u) (users.email u) (users.displayName u)
             (users.emailVerified u) (users.avatarUrl u).

Definition generic_reset_ack : Ack :=
  mkAck "If the email exists, a password reset link has been sent".






(** ** [middleware/auth.ts] *)

Record AuthUser := mkAuthUser {
  au_id : uuid;
  au_email : option string;
  au_emailVerified : bool;
  au_displayName : option string;
  au_avatarUrl : option string;
  au_status : UserStatus
}.

(** The columns the middleware selects. *)
Definition select_auth_user (u : users.row) : AuthUser :=
  mkAuthUser (users.id u) (users.email u) (users.emailVerified u)
             (users.displayName u) (users.avatarUrl u) (users.status u).

(** [s.substring(n)] *)
Fixpoint drop_chars (n : nat) (s : string) : string :=
  match n, s with
  | O, _ => s
  | S _, EmptyString => EmptyString
  | S n', String _ rest => drop_chars n' rest
  end.

(** [e instanceof C].  The constructor of [AppError] ([types/index.ts]) ends
    with [Object.setPrototypeOf(this, AppError.prototype)] and no subclass
    sets the prototype again, so an object made by [new ValidationError(..)],
    [new UnauthorizedError(..)] and the like has [AppError.prototype] as its
    prototype: it is an instance of [AppError] and of [Error], and of no
    subclass.  The errors of the database driver are plain [Error]s. *)
Inductive ErrorClass := class_Error | class_AppError | class_UnauthorizedError.

Definition prototype_of (e : Error) : ErrorClass :=
  match e with
  | PlainError _ | UniqueViolation _ | ForeignKeyViolation _
  | ValueTooLong _ => class_Error
  | ValidationError _ | UnauthorizedError _ | ForbiddenError _
  | NotFoundError _ | ConflictError _ | TooManyRequestsError _ => class_AppError
  end.

(** [c.prototype] is on the prototype chain that starts at [p]:
    [UnauthorizedError] extends [AppError], which extends [Error]. *)
Definition on_chain (p c : ErrorClass) : bool :=
  match p, c with
  | _, class_Error => true
  | (class_AppError | class_UnauthorizedError), class_AppError => true
  | class_UnauthorizedError, class_UnauthorizedError => true
  | _, _ => false
  end.

Definition instanceof (e : Error) (c : ErrorClass) : bool :=
  on_chain (prototype_of e) c.

(** The [catch] of [authenticate]: an error that is an instance of
    [UnauthorizedError] is passed on, anything else becomes
    [new UnauthorizedError('Invalid token')]. *)
Definition pass_unauthorized {A} (c : M A) : M A :=
  fun s =>
    match c s with
    | (inl e, s') =>
      if instanceof e class_UnauthorizedError then (inl e, s')
      else (inl (UnauthorizedError "Invalid token"), s')
    | (inr a, s') => (inr a, s')
    end.

Definition authenticate `{Platform} (authorization : option string)
           (t : timestamp) : M AuthUser :=
  pass_unauthorized
    (match authorization with
     | None => throw (UnauthorizedError "No token provided")
     | Some authHeader =>
       if negb (String.prefix "Bearer " authHeader)
       then throw (UnauthorizedError "No token provided")
       else
         let token := drop_chars 7 authHeader in
         match verifyToken token t with
         | inl e => throw e
         | inr payload =>
           match jp_type payload with
           | refresh => throw (UnauthorizedError "Invalid token type")
           | access =>
             found <- select_first db_users
                        (fun u => Nat.eqb (users.id u) (jp_userId payload)) ;;
             match found with
             | None => throw (UnauthorizedError "User not found")
             | Some user =>
               if negb (UserStatus_eqb (users.status user) active)
               then throw (UnauthorizedError "Account is not active")
               else ret (select_auth_user user)
             end
           end
         end
     end).

(** [optionalAuth]: what it attaches to the request, if anything. *)
Definition optionalAuth `{Platform} (authorization : option string)
           (t : timestamp) : M (option AuthUser) :=
  match authorization with
  | None => ret None
  | Some authHeader =>
    if negb (String.prefix "Bearer " authHeader) then ret None
    else
      let token := drop_chars 7 authHeader in
      match verifyToken token t with
      | inl _ => ret None
      | inr payload =>
        match jp_type payload with
        | refresh => ret None
        | access =>
          found <- select_first db_users
                     (fun u => Nat.eqb (users.id u) (jp_userId payload)) ;;
          match found with
          | Some user =>
            if UserStatus_eqb (users.status user) active
            then ret (Some (select_auth_user user))
            else ret None
          | None => ret None
          end
        end
      end
  end.

(** ** [middleware/errorHandler.ts] *)







(** ** [controllers/firebaseController.ts] *)

(** The fields [firebaseAuth] reads from the decoded Firebase ID token. *)
Record DecodedIdToken := mkDecodedIdToken {
  fb_uid : string;
  fb_email : option string;
  fb_name : option string;
  fb_picture : option string;
  fb_sign_in_provider : string
}.

Definition mapFirebaseProvider (providerId : string) : option OAuthProviderType :=
  if String.eqb providerId "google.com" then Some google
  else if String.eqb providerId "facebook.com" then Some facebook
  else if String.eqb providerId "apple.com" then Some apple
  else None.

(** What the controller answers: a status with a message, or status 200 with
    the session that [handleOAuthCallback] returned. *)
Inductive FirebaseReply :=
| fb_refused (status : Z) (message_ : string)
| fb_session (result : OAuthResult).

(** [firebaseAuth].  [validation_failed] is [!validationResult(req).isEmpty()],
    [enabled] is [config.features.firebaseAuth], and [verifyFirebaseToken]
    stands for the function of [config/firebase.ts]: it throws when Firebase
    is not initialised and returns [null] for a token Firebase rejects.  An
    error is handed to [next]. *)
Definition firebaseAuth `{Platform}
           (verifyFirebaseToken : string -> Error + option DecodedIdToken)
           (validation_failed enabled : bool) (idToken : string)
           (deviceInfo : DeviceInfo) (env : Env) : M FirebaseReply :=
  if validation_failed then ret (fb_refused 400 "Validation failed")
  else if negb enabled
  then ret (fb_refused 503 "Firebase authentication is not enabled")
  else
    match verifyFirebaseToken idToken with
    | inl e => throw e
    | inr None => ret (fb_refused 401 "Invalid or expired Firebase token")
    | inr (Some decodedToken) =>
      let sign_in_provider := fb_sign_in_provider decodedToken in
      match mapFirebaseProvider sign_in_provider with
      | Some provider =>
        result <- handleOAuthCallback
                    (mkOAuthProfile provider (fb_uid decodedToken)
                       (match fb_email decodedToken with Some e => e | None => "" end)
                       (fb_name decodedToken) (fb_picture decodedToken)
                       idToken None None)
                    (Some deviceInfo) env ;;
        ret (fb_session result)
      | None =>
        if negb (String.eqb sign_in_provider "password")
        then ret (fb_refused 400 ("Unsupported authentication provider: "
                                    ++ sign_in_provider))
        else
          match fb_email decodedToken with
          | None | Some "" => ret (fb_refused 400 "Unable to process authentication")
          | Some email =>
            result <- handleOAuthCallback
                        (mkOAuthProfile google (fb_uid decodedToken) email
                           (fb_name decodedToken) None idToken None None)
                        (Some deviceInfo) env ;;
            ret (fb_session result)
          end
      end
    end.

(** ** [controllers/oauthController.ts]: [facebookDeauthorize] *)

(** [s.split(sep)] for a one-character separator. *)
Fixpoint split_on (sep : ascii) (s : string) : list string :=
  match s with
  | EmptyString => [EmptyString]
  | String c rest =>
    if Ascii.eqb c sep then EmptyString :: split_on sep rest
    else match split_on sep rest with
         | first :: others => String c first :: others
         | [] => [String c EmptyString]
         end
  end.

(** What [JSON.parse] of the decoded payload yields: [null] (reading a
    property of it throws), or a value whose [user_id] can be read. *)
Inductive ParsedPayload :=
| payload_null
| payload_value (user_id : option string).

Inductive DeauthorizeReply :=
| deauthorize_refused (status : Z) (message_ : string)
| deauthorize_confirmed (confirmation_code : string).

(** [facebookDeauthorize].  [parse_payload] stands for the base64 decoding
    followed by [JSON.parse] ([None] when either throws) and
    [expected_signature] for the HMAC-SHA256 of the payload under the app
    secret, in URL-safe base64 without padding.  Whatever is thrown is
    answered with status 500. *)
Definition facebookDeauthorize
           (parse_payload : string -> option ParsedPayload)
           (expected_signature : string -> string)
           (signed_request : option string)
           (ip_ userAgent_ : option string) (env : Env) : M DeauthorizeReply :=
  match signed_request with
  | None | Some "" => ret (deauthorize_refused 400 "Missing signed_request")
  | Some signedRequest =>
    let parts := split_on "." signedRequest in
    match nth_error parts 0, nth_error parts 1 with
    | Some encodedSig, Some payload =>
      if falsy (Some encodedSig) || falsy (Some payload)
      then ret (deauthorize_refused 400 "Invalid signed_request")
      else
        match parse_payload payload with
        | None => ret (deauthorize_refused 500 "Internal server error")
        | Some data =>
          if negb (String.eqb encodedSig (expected_signature payload))
          then ret (deauthorize_refused 403 "Invalid signature")
          else
            match data with
            | payload_null => ret (deauthorize_refused 500 "Internal server error")
            | payload_value (None | Some "") =>
              ret (deauthorize_refused 400 "Missing user_id")
            | payload_value (Some facebookUserId) =>
              removeOAuthProvider facebook facebookUserId
                                  (Some (mkDeviceInfo userAgent_ ip_ None None)) env ;;;
              ret (deauthorize_confirmed facebookUserId)
            end
        end
    | _, _ => ret (deauthorize_refused 400 "Invalid signed_request")
    end
  end.

(** ** [config/index.ts]: what [validateConfig] reads *)

(** [process.env] *)
Definition ProcessEnv := string -> option string.

(** [process.env.X || fallback] *)
Definition env_or (v : option string) (fallback : string) : string :=
  match v with
  | None | Some "" => fallback
  | Some x => x
  end.

Definition default_jwt_secret : string :=
  "your-super-secret-jwt-key-change-this-in-production-min-32-chars".

Definition config_env (e : ProcessEnv) : string :=
  env_or (e "NODE_ENV") "development".

Definition config_jwt_secret (e : ProcessEnv) : string :=
  env_or (e "JWT_SECRET") default_jwt_secret.

Definition required_variables : list string :=
  ["JWT_SECRET"; "DB_NAME"; "DB_USER"; "DB_PASSWORD"].

(** [validateConfig]: [None] when it returns, the message when it throws.
    [config.jwt.secret.length] is a number of UTF-16 code units. *)
Definition validateConfig (e : ProcessEnv) : option string :=
  let missing := filter (fun key => falsy (e key)) required_variables in
  if (0 <? length missing)%nat && String.eqb (config_env e) "production"
  then Some ("Missing required environment variables: "
               ++ String.concat ", " missing)
  else if (utf16_length (config_jwt_secret e) <? 32)%nat
          && String.eqb (config_env e) "production"
  then Some "JWT_SECRET must be at least 32 characters long in production"
  else None.

(** ** [utils/crypto.ts]: hexadecimal tokens

    [generateToken] and [generateSecureRandom] once more, this time down to
    the characters: the bytes come from a function standing for
    [crypto.randomBytes]. *)

Module Crypto.

Definition hex_digit (n : N) : ascii :=
  match n with
  | 0%N => "0" | 1%N => "1" | 2%N => "2" | 3%N => "3"
  | 4%N => "4" | 5%N => "5" | 6%N => "6" | 7%N => "7"
  | 8%N => "8" | 9%N => "9" | 10%N => "a" | 11%N => "b"
  | 12%N => "c" | 13%N => "d" | 14%N => "e" | _ => "f"
  end%char.

(** [buffer.toString('hex')] *)
Fixpoint toHex (bytes : list Byte.byte) : string :=
  match bytes with
  | [] => EmptyString
  | b :: rest =>
    String (hex_digit (N.div (Byte.to_N b) 16))
           (String (hex_digit (N.modulo (Byte.to_N b) 16)) (toHex rest))
  end.

Definition generateToken (randomBytes : nat -> list Byte.byte) (length : nat)
  : string :=
  toHex (randomBytes length).

(** [Math.ceil(length / 2)] bytes, in hexadecimal, cut by [slice(0, length)]. *)
Definition generateSecureRandom (randomBytes : nat -> list Byte.byte)
           (length : nat) : string :=
  String.substring 0 length (toHex (randomBytes (Nat.div (length + 1) 2))).

End Crypto.

(** ** More vocabulary *)

Definition account_le (u u' : users.row) : Prop :=
  users.id u' = users.id u
  /\ users.email u' = users.email u
  /\ users.status u' = users.status u
  /\ users.createdAt u' = users.createdAt u
  /\ (users.emailVerified u = true -> users.emailVerified u' = true).

(** No account disappears or changes identity. *)
Definition accounts_persist (s s' : Store) : Prop :=
  forall u, In u (db_users s) ->
            exists u', In u' (db_users s') /\ account_le u u'.

(** The audit log only grows at its end. *)
Definition audit_extends (s s' : Store) : Prop :=
  exists added, db_authAuditLog s' = (db_authAuditLog s ++ added)%list.

(** The one error by which the unique index on [token_hash] rejects a
    refresh token. *)
(** No account has gained a password: every account of [s'] either has no
    password hash or carries the address and the hash of an account of
    [s]. *)
Definition no_new_password (s s' : Store) : Prop :=
  forall x, In x (db_users s') ->
            users.passwordHash x = None
            \/ exists y, In y (db_users s)
                         /\ users.email y = users.email x
                         /\ users.passwordHash y = users.passwordHash x.

Definition token_hash_taken : Error :=
  UniqueViolation "refresh_tokens_token_hash_unique".

(** * Proofs *)

(** ** Lists: updates in place, appends, keys *)

Lemma NoDup_snoc {A} (l : list A) (x : A) :
  NoDup l -> ~ In x l -> NoDup (l ++ [x]).
Proof.
  intros Hl Hx. induction Hl as [|y l Hy Hl IH]; simpl.
  - constructor; [intros []|constructor].
  - constructor.
    + rewrite in_app_iff. simpl. intros [H|[H|[]]]; [tauto|].
      subst. apply Hx. now left.
    + apply IH. intros H. apply Hx. now right.
Qed.

Lemma map_update_where {A B} (f : A -> B) (set : A -> A) (w : A -> bool) l :
  (forall r, f (set r) = f r) ->
  map f (map (fun r => if w r then set r else r) l) = map f l.
Proof.
  intros Hk. rewrite map_map. apply map_ext. intros r.
  destruct (w r); auto.
Qed.

Lemma In_update_where {A} (set : A -> A) (w : A -> bool) l r' :
  In r' (map (fun r => if w r then set r else r) l) ->
  exists r, In r l /\ ((w r = true /\ r' = set r) \/ (w r = false /\ r' = r)).
Proof.
  rewrite in_map_iff. intros (r & Hr & Hin). exists r. split; [exact Hin|].
  destruct (w r); [left|right]; split; congruence.
Qed.

Lemma update_where_In {A} (set : A -> A) (w : A -> bool) l r :
  In r l -> In (if w r then set r else r) (map (fun r => if w r then set r else r) l).
Proof. intros H. apply in_map_iff. exists r. split; auto. Qed.

Lemma NoDup_map_filter {A B} (f : A -> B) (p : A -> bool) l :
  NoDup (map f l) -> NoDup (map f (filter p l)).
Proof.
  induction l as [|a l IH]; simpl; intros H; [constructor|].
  inversion H as [|? ? Hn Hd]; subst.
  destruct (p a); simpl; [constructor|]; auto.
  intros Hin. apply Hn. apply in_map_iff in Hin. destruct Hin as (x & Hx & Hf).
  apply filter_In in Hf. apply in_map_iff. exists x. tauto.
Qed.

Lemma existsb_false_not_In {A B} (f : A -> B) (eqb : B -> B -> bool) (k : B) l :
  (forall x, eqb x x = true) ->
  existsb (fun r => eqb (f r) k) l = false -> ~ In k (map f l).
Proof.
  intros Hrefl He Hin. apply in_map_iff in Hin. destruct Hin as (r & Hr & Hin).
  assert (existsb (fun r => eqb (f r) k) l = true).
  { apply existsb_exists. exists r. split; [exact Hin|]. rewrite Hr. apply Hrefl. }
  congruence.
Qed.

Lemma find_In {A} (p : A -> bool) l x : find p l = Some x -> In x l /\ p x = true.
Proof. apply find_some. Qed.

(** With a key that identifies rows, the first match is the only match. *)
Lemma NoDup_key_eq {A B} (f : A -> B) l x y :
  NoDup (map f l) -> In x l -> In y l -> f x = f y -> x = y.
Proof.
  induction l as [|a l IH]; simpl; intros Hd Hx Hy Hf; [tauto|].
  inversion Hd as [|? ? Hn Hd']; subst.
  destruct Hx as [Hx|Hx], Hy as [Hy|Hy]; subst; auto.
  - exfalso. apply Hn. rewrite Hf. now apply in_map.
  - exfalso. apply Hn. rewrite <- Hf. now apply in_map.
Qed.

Lemma user_emails_In e l :
  In e (user_emails l) <-> exists u, In u l /\ users.email u = Some e.
Proof.
  unfold user_emails. rewrite in_flat_map. split.
  - intros (u & Hu & He). exists u. split; auto.
    destruct (users.email u); simpl in He; [|tauto].
    destruct He as [->|[]]. reflexivity.
  - intros (u & Hu & He). exists u. split; auto. rewrite He. now left.
Qed.

Lemma user_emails_app l1 l2 :
  user_emails (l1 ++ l2) = (user_emails l1 ++ user_emails l2)%list.
Proof. unfold user_emails. apply flat_map_app. Qed.

Lemma user_emails_update (set : users.row -> users.row) (w : users.row -> bool) l :
  (forall r, users.email (set r) = users.email r) ->
  user_emails (map (fun r => if w r then set r else r) l) = user_emails l.
Proof.
  intros Hk. unfold user_emails. induction l as [|a l IH]; simpl; [reflexivity|].
  rewrite IH. destruct (w a); [rewrite Hk|]; reflexivity.
Qed.

Lemma eq_col_true c v : eq_col c v = true <-> c = Some v.
Proof.
  destruct c as [x|]; simpl; [|split; discriminate].
  rewrite String.eqb_eq. split; congruence.
Qed.

Lemma email_free e l : email_taken (Some e) l = false -> ~ In e (user_emails l).
Proof.
  simpl. intros He Hin. apply user_emails_In in Hin. destruct Hin as (u & Hu & Hm).
  assert (existsb (fun u => eq_col (users.email u) e) l = true).
  { apply existsb_exists. exists u. split; auto. now apply eq_col_true. }
  congruence.
Qed.

(** A user with a given e-mail address is found by the e-mail lookup, and
    under the uniqueness of addresses it is that very user. *)
Lemma find_by_email l u e :
  NoDup (user_emails l) -> In u l -> users.email u = Some e ->
  find (fun x => eq_col (users.email x) e) l = Some u.
Proof.
  induction l as [|a l IH]; simpl; intros Hd Hin He; [tauto|].
  destruct (eq_col (users.email a) e) eqn:Ha.
  - apply eq_col_true in Ha. destruct Hin as [->|Hin]; [reflexivity|].
    exfalso. unfold user_emails in Hd. simpl in Hd. rewrite Ha in Hd. simpl in Hd.
    inversion Hd as [|? ? Hn _]; subst. apply Hn.
    apply (proj2 (user_emails_In e l)). eauto.
  - destruct Hin as [->|Hin].
    + apply eq_col_true in He. congruence.
    + apply IH; auto. unfold user_emails in *. simpl in Hd.
      apply NoDup_app_remove_l in Hd. exact Hd.
Qed.

Lemma has_user_In uid s :
  has_user uid s = true <-> exists u, In u (db_users s) /\ users.id u = uid.
Proof.
  unfold has_user. rewrite existsb_exists. split; intros (u & Hu & He); exists u;
    split; auto; now apply Nat.eqb_eq.
Qed.

Lemma OAuthProviderType_eqb_eq a b : OAuthProviderType_eqb a b = true <-> a = b.
Proof. destruct a, b; simpl; split; congruence. Qed.

Lemma TokenType_eqb_eq a b : TokenType_eqb a b = true <-> a = b.
Proof. destruct a, b; simpl; split; congruence. Qed.

Lemma UserStatus_eqb_eq a b : UserStatus_eqb a b = true <-> a = b.
Proof. destruct a, b; simpl; split; congruence. Qed.

Lemma oauth_key_eqb_true p pid r :
  oauth_key_eqb p pid r = true <->
  oauthProviders.provider r = p /\ oauthProviders.providerUserId r = pid.
Proof.
  unfold oauth_key_eqb. rewrite andb_true_iff, OAuthProviderType_eqb_eq, String.eqb_eq.
  tauto.
Qed.

Lemma oauth_key_free p pid l :
  existsb (oauth_key_eqb p pid) l = false -> ~ In (p, pid) (oauth_keys l).
Proof.
  intros He Hin. unfold oauth_keys in Hin. apply in_map_iff in Hin.
  destruct Hin as (r & Hr & Hin). inversion Hr; subst.
  assert (existsb (oauth_key_eqb (oauthProviders.provider r)
                                 (oauthProviders.providerUserId r)) l = true).
  { apply existsb_exists. exists r. split; auto. now apply oauth_key_eqb_true. }
  congruence.
Qed.

(** ** Relating the store before and after a computation *)

Section Respects.
Variable R : Store -> Store -> Prop.
Hypothesis R_refl : forall s, R s s.
Hypothesis R_trans : forall a b c, R a b -> R b c -> R a c.

Lemma respects_ret {A} (a : A) : respects R (ret a).
Proof. intros s. apply R_refl. Qed.

Lemma respects_throw {A} (e : Error) : respects R (@throw A e).
Proof. intros s. apply R_refl. Qed.

Lemma respects_select {T} (tbl : Store -> list T) w : respects R (select_first tbl w).
Proof. intros s. apply R_refl. Qed.

Lemma respects_bind {A B} (c : M A) (k : A -> M B) :
  respects R c -> (forall a, respects R (k a)) -> respects R (bind c k).
Proof.
  intros Hc Hk s. unfold bind. specialize (Hc s).
  destruct (c s) as [[e|a] s']; simpl in *; [exact Hc|].
  eapply R_trans; [exact Hc|apply Hk].
Qed.
End Respects.

(** *** The schema's constraints hold in every store the service produces *)

Lemma keeps_wf_refl s : keeps_wf s s.
Proof. intros H; exact H. Qed.

Lemma keeps_wf_trans a b c : keeps_wf a b -> keeps_wf b c -> keeps_wf a c.
Proof. unfold keeps_wf; auto. Qed.

Lemma wf_empty : wf empty_store.
Proof. constructor; simpl; try constructor; intros ? []. Qed.

Lemma has_user_update_users uid (set : users.row -> users.row)
      (w : users.row -> bool) s :
  (forall r, users.id (set r) = users.id r) ->
  has_user uid (with_users (map (fun r => if w r then set r else r) (db_users s)) s)
  = has_user uid s.
Proof.
  intros Hk. unfold has_user. simpl. induction (db_users s) as [|a l IH]; simpl; auto.
  rewrite IH. destruct (w a); [rewrite Hk|]; reflexivity.
Qed.

Ltac fresh_bound H :=
  let x := fresh "x" in let Hx := fresh "Hx" in
  intros x Hx; simpl in Hx;
  try (apply in_app_iff in Hx; destruct Hx as [Hx|[<-|[]]]; [|simpl; lia]);
  specialize (H x Hx); simpl; lia.

Lemma update_users_wf set w :
  (forall r, users.id (set r) = users.id r) ->
  (forall r, users.email (set r) = users.email r) ->
  respects keeps_wf (update_users set w).
Proof.
  intros Hid Hem s [].
  constructor; cbn [update_users snd with_users db_users db_oauthProviders
                    db_refreshTokens db_verificationTokens next_uuid]; auto.
  - now rewrite map_update_where.
  - intros u Hu. apply In_update_where in Hu.
    destruct Hu as (r & Hr & [[_ ->]|[_ ->]]); [rewrite Hid|]; auto.
  - now rewrite user_emails_update.
  - intros r Hr.
    change (has_user (oauthProviders.userId r)
              (with_users (map (fun r => if w r then set r else r) (db_users s)) s) = true).
    rewrite has_user_update_users; auto.
Qed.

Lemma update_oauthProviders_wf set w :
  (forall r, oauthProviders.id (set r) = oauthProviders.id r) ->
  (forall r, oauthProviders.userId (set r) = oauthProviders.userId r) ->
  (forall r, oauthProviders.provider (set r) = oauthProviders.provider r) ->
  (forall r, oauthProviders.providerUserId (set r) = oauthProviders.providerUserId r) ->
  respects keeps_wf (update_oauthProviders set w).
Proof.
  intros Hid Hu Hp Hq s [].
  constructor; cbn [update_oauthProviders snd with_oauthProviders db_users
                    db_oauthProviders db_refreshTokens db_verificationTokens
                    next_uuid]; auto.
  - now rewrite map_update_where.
  - intros u Hin. apply In_update_where in Hin.
    destruct Hin as (r & Hr & [[_ ->]|[_ ->]]); [rewrite Hid|]; auto.
  - unfold oauth_keys. rewrite map_update_where; auto.
    intros r. now rewrite Hp, Hq.
  - intros u Hin. apply In_update_where in Hin.
    destruct Hin as (r & Hr & [[_ ->]|[_ ->]]); [rewrite Hu|];
      apply (wf_oauth_fk0 r Hr).
Qed.

Lemma update_refreshTokens_wf set w :
  (forall r, refreshTokens.id (set r) = refreshTokens.id r) ->
  (forall r, refreshTokens.tokenHash (set r) = refreshTokens.tokenHash r) ->
  respects keeps_wf (update_refreshTokens set w).
Proof.
  intros Hid Hh s [].
  constructor; cbn [update_refreshTokens snd with_refreshTokens db_users
                    db_oauthProviders db_refreshTokens db_verificationTokens
                    next_uuid]; auto.
  - now rewrite map_update_where.
  - intros u Hin. apply In_update_where in Hin.
    destruct Hin as (r & Hr & [[_ ->]|[_ ->]]); [rewrite Hid|]; auto.
  - now rewrite map_update_where.
Qed.

Lemma update_verificationTokens_wf set w :
  (forall r, verificationTokens.id (set r) = verificationTokens.id r) ->
  (forall r, verificationTokens.token (set r) = verificationTokens.token r) ->
  respects keeps_wf (update_verificationTokens set w).
Proof.
  intros Hid Hh s [].
  constructor; cbn [update_verificationTokens snd with_verificationTokens db_users
                    db_oauthProviders db_refreshTokens db_verificationTokens
                    next_uuid]; auto.
  - now rewrite map_update_where.
  - intros u Hin. apply In_update_where in Hin.
    destruct Hin as (r & Hr & [[_ ->]|[_ ->]]); [rewrite Hid|]; auto.
  - now rewrite map_update_where.
Qed.

Lemma delete_oauthProviders_wf w : respects keeps_wf (delete_oauthProviders w).
Proof.
  intros s [].
  constructor; cbn [delete_oauthProviders snd with_oauthProviders db_users
                    db_oauthProviders db_refreshTokens db_verificationTokens
                    next_uuid]; auto.
  - now apply NoDup_map_filter.
  - intros r Hr. apply filter_In in Hr. apply wf_oauth_fresh0. tauto.
  - unfold oauth_keys. now apply NoDup_map_filter.
  - intros r Hr. apply filter_In in Hr. apply (wf_oauth_fk0 r). tauto.
Qed.

Lemma fresh_not_In {A} (f : A -> nat) (l : list A) (n : nat) :
  (forall x, In x l -> (f x < n)%nat) -> ~ In n (map f l).
Proof.
  intros H Hin. apply in_map_iff in Hin. destruct Hin as (x & Hx & Hin).
  specialize (H x Hin). lia.
Qed.

(** Splits on what the [varchar] columns make of the values they are given. *)
Ltac columns :=
  repeat match goal with
         | |- context [match varchar ?n ?x with _ => _ end] =>
           destruct (varchar n x)
         | |- context [match varchar_null ?n ?x with _ => _ end] =>
           destruct (varchar_null n x)
         end.

Lemma insert_users_wf v t : respects keeps_wf (insert_users v t).
Proof.
  intros s Hwf. unfold insert_users.
  destruct (varchar_null 255 (nu_email v)) as [email|]; [|exact Hwf].
  destruct (varchar_null 255 (nu_displayName v)) as [displayName|]; [|exact Hwf].
  destruct (email_taken email (db_users s)) eqn:He; [exact Hwf|].
  destruct Hwf. constructor; simpl; auto.
  - rewrite map_app. apply NoDup_snoc; auto. now apply fresh_not_In.
  - fresh_bound wf_user_fresh0.
  - rewrite user_emails_app. unfold user_emails at 2. simpl.
    destruct email as [e|]; simpl.
    + apply NoDup_snoc; auto. now apply email_free.
    + now rewrite app_nil_r.
  - fresh_bound wf_oauth_fresh0.
  - intros r Hr. specialize (wf_oauth_fk0 r Hr). unfold has_user in *. simpl.
    rewrite existsb_app, wf_oauth_fk0. reflexivity.
  - fresh_bound wf_refresh_fresh0.
  - fresh_bound wf_verification_fresh0.
Qed.

Lemma insert_oauthProviders_wf uid p pid pe a r e t :
  respects keeps_wf (insert_oauthProviders uid p pid pe a r e t).
Proof.
  intros s Hwf. unfold insert_oauthProviders.
  destruct (varchar 255 pid) as [pid'|]; [|exact Hwf].
  destruct (varchar_null 255 pe) as [pe'|]; [|exact Hwf].
  destruct (has_user uid s) eqn:Hu; simpl; [|exact Hwf].
  destruct (existsb (oauth_key_eqb p pid') (db_oauthProviders s)) eqn:He; [exact Hwf|].
  destruct Hwf. constructor; simpl; auto.
  - fresh_bound wf_user_fresh0.
  - rewrite map_app. apply NoDup_snoc; auto. now apply fresh_not_In.
  - fresh_bound wf_oauth_fresh0.
  - unfold oauth_keys. rewrite map_app. apply NoDup_snoc; auto.
    now apply oauth_key_free.
  - intros x Hx. apply in_app_iff in Hx. destruct Hx as [Hx|[<-|[]]].
    + apply (wf_oauth_fk0 x Hx).
    + exact Hu.
  - fresh_bound wf_refresh_fresh0.
  - fresh_bound wf_verification_fresh0.
Qed.

Lemma insert_refreshTokens_wf uid h d e t :
  respects keeps_wf (insert_refreshTokens uid h d e t).
Proof.
  intros s Hwf. unfold insert_refreshTokens.
  destruct (has_user uid s) eqn:Hu; simpl; [|exact Hwf].
  destruct (existsb _ (db_refreshTokens s)) eqn:He; [exact Hwf|].
  destruct Hwf. constructor; simpl; auto.
  - fresh_bound wf_user_fresh0.
  - fresh_bound wf_oauth_fresh0.
  - rewrite map_app. apply NoDup_snoc; auto. now apply fresh_not_In.
  - fresh_bound wf_refresh_fresh0.
  - rewrite map_app. apply NoDup_snoc; auto.
    eapply existsb_false_not_In; [apply String.eqb_refl|exact He].
  - fresh_bound wf_verification_fresh0.
Qed.

Lemma insert_verificationTokens_wf uid k ty e t :
  respects keeps_wf (insert_verificationTokens uid k ty e t).
Proof.
  intros s Hwf. unfold insert_verificationTokens.
  destruct (has_user uid s) eqn:Hu; simpl; [|exact Hwf].
  destruct (existsb _ (db_verificationTokens s)) eqn:He; [exact Hwf|].
  destruct Hwf. constructor; simpl; auto.
  - fresh_bound wf_user_fresh0.
  - fresh_bound wf_oauth_fresh0.
  - fresh_bound wf_refresh_fresh0.
  - rewrite map_app. apply NoDup_snoc; auto. now apply fresh_not_In.
  - fresh_bound wf_verification_fresh0.
  - rewrite map_app. apply NoDup_snoc; auto.
    eapply existsb_false_not_In; [apply String.eqb_refl|exact He].
Qed.

Lemma logAuditEvent_wf data t : respects keeps_wf (logAuditEvent data t).
Proof.
  intros s Hwf. unfold logAuditEvent.
  destruct (varchar 100 (ad_eventType data)) as [eventType|]; [|exact Hwf].
  destruct (varchar_null 45 (or_null (ad_ipAddress data))) as [ipAddress|];
    [|exact Hwf].
  match goal with |- wf (snd (if ?b then _ else _)) => destruct b end; [|exact Hwf].
  destruct Hwf. constructor; simpl; auto.
  - fresh_bound wf_user_fresh0.
  - fresh_bound wf_oauth_fresh0.
  - fresh_bound wf_refresh_fresh0.
  - fresh_bound wf_verification_fresh0.
Qed.

(** Walks through a service method, one primitive at a time. *)
Ltac walk refl trans prim :=
  unfold sendVerificationEmail, sendPasswordResetEmail, sendWelcomeEmail;
  repeat first
    [ apply (respects_ret _ refl)
    | apply (respects_throw _ refl)
    | apply (respects_select _ refl)
    | apply (respects_bind _ trans); [|intros ?]
    | prim
    | match goal with
      | |- respects _ (match ?x with _ => _ end) => destruct x
      end
    | progress cbv zeta ].

Ltac wf_prim :=
  first
    [ apply update_users_wf; intros; reflexivity
    | apply update_oauthProviders_wf; intros; reflexivity
    | apply update_refreshTokens_wf; intros; reflexivity
    | apply update_verificationTokens_wf; intros; reflexivity
    | apply delete_oauthProviders_wf
    | apply insert_users_wf
    | apply insert_oauthProviders_wf
    | apply insert_refreshTokens_wf
    | apply insert_verificationTokens_wf
    | apply logAuditEvent_wf ].

Ltac walk_wf := walk keeps_wf_refl keeps_wf_trans wf_prim.

Section Invariant.
Context {P : Platform}.

Lemma register_wf data d env : respects keeps_wf (register data d env).
Proof. unfold register. walk_wf. Qed.

Lemma login_wf data d env : respects keeps_wf (login data d env).
Proof. unfold login. walk_wf. Qed.

Lemma refreshAccessToken_wf t d env : respects keeps_wf (refreshAccessToken t d env).
Proof. unfold refreshAccessToken. walk_wf. Qed.

Lemma logout_wf t u d env : respects keeps_wf (logout t u d env).
Proof. unfold logout. walk_wf. Qed.

Lemma verifyEmail_wf t env : respects keeps_wf (verifyEmail t env).
Proof. unfold verifyEmail. walk_wf. Qed.

Lemma requestPasswordReset_wf e d env :
  respects keeps_wf (requestPasswordReset e d env).
Proof. unfold requestPasswordReset. walk_wf. Qed.

Lemma resetPassword_wf t p d env : respects keeps_wf (resetPassword t p d env).
Proof. unfold resetPassword. walk_wf. Qed.

Lemma resolveOAuthUser_wf p d env : respects keeps_wf (resolveOAuthUser p d env).
Proof. unfold resolveOAuthUser. walk_wf. Qed.

Lemma issueOAuthSession_wf p d env u b :
  respects keeps_wf (issueOAuthSession p d env u b).
Proof. unfold issueOAuthSession. walk_wf. Qed.

Lemma handleOAuthCallback_wf p d env :
  respects keeps_wf (handleOAuthCallback p d env).
Proof.
  unfold handleOAuthCallback.
  apply (respects_bind _ keeps_wf_trans);
    [apply resolveOAuthUser_wf|intros; apply issueOAuthSession_wf].
Qed.

Lemma removeOAuthProvider_wf p i d env :
  respects keeps_wf (removeOAuthProvider p i d env).
Proof. unfold removeOAuthProvider. walk_wf. Qed.

Lemma step_wf q env s : wf s -> wf (step q env s).
Proof.
  destruct q; simpl;
    [ apply register_wf | apply login_wf | apply refreshAccessToken_wf
    | apply logout_wf | apply verifyEmail_wf | apply requestPasswordReset_wf
    | apply resetPassword_wf | apply handleOAuthCallback_wf
    | apply removeOAuthProvider_wf ].
Qed.

Lemma run_wf trace : forall s, wf s -> wf (run trace s).
Proof.
  induction trace as [|[q env] rest IH]; simpl; intros s Hs; [exact Hs|].
  apply IH. now apply step_wf.
Qed.
End Invariant.

(** *** Token rows are never deleted, and consumption is never undone *)

Lemma refresh_le_refl r : refresh_le r r.
Proof. unfold refresh_le; tauto. Qed.

Lemma verification_le_refl r : verification_le r r.
Proof. unfold verification_le; tauto. Qed.

Lemma evolves_refl s : evolves s s.
Proof.
  constructor; intros r Hr; exists r; split; auto using refresh_le_refl, verification_le_refl.
Qed.

Lemma evolves_trans a b c : evolves a b -> evolves b c -> evolves a c.
Proof.
  intros [Hr1 Hv1] [Hr2 Hv2]. constructor.
  - intros r Hr. destruct (Hr1 r Hr) as (r1 & Hin1 & H1).
    destruct (Hr2 r1 Hin1) as (r2 & Hin2 & H2). exists r2. split; auto.
    unfold refresh_le in *. intuition congruence.
  - intros r Hr. destruct (Hv1 r Hr) as (r1 & Hin1 & H1).
    destruct (Hv2 r1 Hin1) as (r2 & Hin2 & H2). exists r2. split; auto.
    unfold verification_le in *. intuition congruence.
Qed.

(** A primitive that touches neither token table. *)
Lemma evolves_same s s' :
  db_refreshTokens s' = db_refreshTokens s ->
  db_verificationTokens s' = db_verificationTokens s ->
  evolves s s'.
Proof.
  intros Hr Hv. constructor; intros r Hin; exists r; rewrite ?Hr, ?Hv;
    split; auto using refresh_le_refl, verification_le_refl.
Qed.

Lemma update_users_evolves set w : respects evolves (update_users set w).
Proof. intros s. now apply evolves_same. Qed.

Lemma update_oauthProviders_evolves set w :
  respects evolves (update_oauthProviders set w).
Proof. intros s. now apply evolves_same. Qed.

Lemma delete_oauthProviders_evolves w : respects evolves (delete_oauthProviders w).
Proof. intros s. now apply evolves_same. Qed.

Lemma update_refreshTokens_evolves set w :
  (forall r, refresh_le r (set r)) -> respects evolves (update_refreshTokens set w).
Proof.
  intros Hset s. constructor; simpl.
  - intros r Hr. exists (if w r then set r else r). split.
    + now apply update_where_In.
    + destruct (w r); [apply Hset|apply refresh_le_refl].
  - intros r Hr. exists r. split; auto using verification_le_refl.
Qed.

Lemma update_verificationTokens_evolves set w :
  (forall r, verification_le r (set r)) ->
  respects evolves (update_verificationTokens set w).
Proof.
  intros Hset s. constructor; simpl.
  - intros r Hr. exists r. split; auto using refresh_le_refl.
  - intros r Hr. exists (if w r then set r else r). split.
    + now apply update_where_In.
    + destruct (w r); [apply Hset|apply verification_le_refl].
Qed.

Lemma revoke_le t r : refresh_le r (revoke t r).
Proof. unfold refresh_le; simpl. intuition discriminate. Qed.

Lemma mark_used_le t r : verification_le r (mark_used t r).
Proof. unfold verification_le; simpl. intuition discriminate. Qed.

Lemma insert_users_evolves v t : respects evolves (insert_users v t).
Proof.
  intros s. unfold insert_users. columns; try apply evolves_refl.
  destruct (email_taken _ _); simpl;
    [apply evolves_refl|now apply evolves_same].
Qed.

Lemma insert_oauthProviders_evolves uid p pid pe a r e t :
  respects evolves (insert_oauthProviders uid p pid pe a r e t).
Proof.
  intros s. unfold insert_oauthProviders. columns; try apply evolves_refl.
  destruct (negb _); [apply evolves_refl|].
  destruct (existsb _ _); simpl; [apply evolves_refl|now apply evolves_same].
Qed.

Lemma insert_refreshTokens_evolves uid h d e t :
  respects evolves (insert_refreshTokens uid h d e t).
Proof.
  intros s. unfold insert_refreshTokens.
  destruct (negb _); [apply evolves_refl|].
  destruct (existsb _ _); simpl; [apply evolves_refl|].
  constructor; simpl; intros r Hr; exists r; split;
    auto using refresh_le_refl, verification_le_refl.
  apply in_app_iff; now left.
Qed.

Lemma insert_verificationTokens_evolves uid k ty e t :
  respects evolves (insert_verificationTokens uid k ty e t).
Proof.
  intros s. unfold insert_verificationTokens.
  destruct (negb _); [apply evolves_refl|].
  destruct (existsb _ _); simpl; [apply evolves_refl|].
  constructor; simpl; intros r Hr; exists r; split;
    auto using refresh_le_refl, verification_le_refl.
  apply in_app_iff; now left.
Qed.

Lemma logAuditEvent_evolves data t : respects evolves (logAuditEvent data t).
Proof.
  intros s. unfold logAuditEvent. columns; try apply evolves_refl.
  match goal with |- evolves _ (snd (if ?b then _ else _)) => destruct b end;
    [now apply evolves_same|apply evolves_refl].
Qed.

Ltac evolves_prim :=
  first
    [ apply update_users_evolves
    | apply update_oauthProviders_evolves
    | apply update_refreshTokens_evolves; apply revoke_le
    | apply update_verificationTokens_evolves; apply mark_used_le
    | apply delete_oauthProviders_evolves
    | apply insert_users_evolves
    | apply insert_oauthProviders_evolves
    | apply insert_refreshTokens_evolves
    | apply insert_verificationTokens_evolves
    | apply logAuditEvent_evolves ].

Ltac walk_evolves := walk evolves_refl evolves_trans evolves_prim.

Section Monotone.
Context {P : Platform}.

Lemma step_evolves q env s : evolves s (step q env s).
Proof.
  revert s. destruct q; simpl.
  - change (respects evolves (register data deviceInfo env)).
    unfold register. walk_evolves.
  - change (respects evolves (login data deviceInfo env)).
    unfold login. walk_evolves.
  - change (respects evolves (refreshAccessToken refreshToken deviceInfo env)).
    unfold refreshAccessToken. walk_evolves.
  - change (respects evolves (logout refreshToken userId deviceInfo env)).
    unfold logout. walk_evolves.
  - change (respects evolves (verifyEmail token env)).
    unfold verifyEmail. walk_evolves.
  - change (respects evolves (requestPasswordReset email deviceInfo env)).
    unfold requestPasswordReset. walk_evolves.
  - change (respects evolves (resetPassword token newPassword deviceInfo env)).
    unfold resetPassword. walk_evolves.
  - change (respects evolves (handleOAuthCallback profile deviceInfo env)).
    unfold handleOAuthCallback, resolveOAuthUser, issueOAuthSession. walk_evolves.
  - change (respects evolves
              (removeOAuthProvider provider providerUserId deviceInfo env)).
    unfold removeOAuthProvider. walk_evolves.
Qed.

Lemma run_evolves trace : forall s, evolves s (run trace s).
Proof.
  induction trace as [|[q env] rest IH]; simpl; intros s; [apply evolves_refl|].
  eapply evolves_trans; [apply step_evolves|apply IH].
Qed.
End Monotone.

(** ** Running a computation backwards from its result *)

Lemma bind_inr {A B} (c : M A) (k : A -> M B) s b s2 :
  bind c k s = (inr b, s2) ->
  exists a s1, c s = (inr a, s1) /\ k a s1 = (inr b, s2).
Proof.
  unfold bind. destruct (c s) as [[e|a] s1]; intros H; [discriminate|eauto].
Qed.

Lemma insert_refreshTokens_inr uid h d e t s u s' :
  insert_refreshTokens uid h d e t s = (inr u, s') ->
  has_user uid s = true
  /\ ~ In h (map refreshTokens.tokenHash (db_refreshTokens s))
  /\ s' = bump_uuid
            (with_refreshTokens
               (db_refreshTokens s ++ [refreshTokens.mk (next_uuid s) uid h d e t None]) s).
Proof.
  unfold insert_refreshTokens. destruct (has_user uid s); simpl; [|discriminate].
  destruct (existsb _ _) eqn:He; [discriminate|]. intros H; inversion H; subst.
  repeat split. eapply existsb_false_not_In; [apply String.eqb_refl|exact He].
Qed.

Lemma insert_refreshTokens_fresh uid h d e t s :
  has_user uid s = true ->
  ~ In h (map refreshTokens.tokenHash (db_refreshTokens s)) ->
  insert_refreshTokens uid h d e t s
  = (inr tt,
     bump_uuid
       (with_refreshTokens
          (db_refreshTokens s ++ [refreshTokens.mk (next_uuid s) uid h d e t None]) s)).
Proof.
  intros Hu Hh. unfold insert_refreshTokens. rewrite Hu. simpl.
  destruct (existsb _ _) eqn:He; [|reflexivity].
  exfalso. apply Hh. apply existsb_exists in He. destruct He as (r & Hr & He).
  apply String.eqb_eq in He. subst h. now apply in_map.
Qed.

Lemma insert_refreshTokens_taken uid h d e t s :
  has_user uid s = true ->
  In h (map refreshTokens.tokenHash (db_refreshTokens s)) ->
  insert_refreshTokens uid h d e t s = (inl token_hash_taken, s).
Proof.
  intros Hu Hin. unfold insert_refreshTokens. rewrite Hu. cbn [negb].
  replace (existsb _ _) with true; [reflexivity|].
  symmetry. apply existsb_exists. apply in_map_iff in Hin as (r & Hh & Hr).
  exists r. split; [exact Hr|]. apply String.eqb_eq. exact Hh.
Qed.

Lemma logAuditEvent_tables data t s :
  fst (logAuditEvent data t s) = inr tt
  /\ db_users (snd (logAuditEvent data t s)) = db_users s
  /\ db_oauthProviders (snd (logAuditEvent data t s)) = db_oauthProviders s
  /\ db_refreshTokens (snd (logAuditEvent data t s)) = db_refreshTokens s
  /\ db_verificationTokens (snd (logAuditEvent data t s)) = db_verificationTokens s.
Proof.
  unfold logAuditEvent. columns; try (simpl; tauto).
  match goal with |- context [if ?b then _ else _] => destruct b end; simpl; tauto.
Qed.

Lemma logAuditEvent_inr data t s u s' :
  logAuditEvent data t s = (inr u, s') ->
  db_users s' = db_users s
  /\ db_oauthProviders s' = db_oauthProviders s
  /\ db_refreshTokens s' = db_refreshTokens s
  /\ db_verificationTokens s' = db_verificationTokens s.
Proof.
  intros H. pose proof (logAuditEvent_tables data t s) as Ht. rewrite H in Ht.
  simpl in Ht. tauto.
Qed.

Section Refresh.
Context {P : Platform}.

(** A presented token whose stored row is revoked is turned away, and the
    store is left as it was. *)
Lemma refresh_rejects_revoked s t d env r :
  wf s ->
  In r (db_refreshTokens s) ->
  refreshTokens.tokenHash r = hashToken t ->
  refreshTokens.revokedAt r <> None ->
  refreshAccessToken t d env s
  = (inl (UnauthorizedError "Invalid or expired refresh token"), s).
Proof.
  intros Hwf Hin Hh Hrev. unfold refreshAccessToken, bind, select_first.
  destruct (find _ (db_refreshTokens s)) as [token|] eqn:Hf; [|reflexivity].
  apply find_In in Hf. destruct Hf as [Htok Hp].
  apply andb_true_iff in Hp. destruct Hp as [Hp _]. apply String.eqb_eq in Hp.
  assert (token = r) as ->.
  { eapply (NoDup_key_eq refreshTokens.tokenHash); eauto using wf_refresh_hashes.
    congruence. }
  destruct (refreshTokens.revokedAt r); [reflexivity|congruence].
Qed.
End Refresh.

Lemma select_first_inr {T} (tbl : Store -> list T) w s o s' :
  select_first tbl w s = (inr o, s') -> o = find w (tbl s) /\ s' = s.
Proof. unfold select_first. intros H. inversion H. auto. Qed.

Lemma ret_inr {A} (a b : A) s s' : ret a s = (inr b, s') -> b = a /\ s' = s.
Proof. unfold ret. intros H. inversion H. auto. Qed.

Section Rotation.
Context {P : Platform}.

(** What a refresh that returned did to the refresh-token table. *)
Lemma refresh_rotates t d env s r s1 :
  wf s ->
  refreshAccessToken t d env s = (inr r, s1) ->
  exists old issued,
    In old (db_refreshTokens s)
    /\ refreshTokens.tokenHash old = hashToken t
    /\ refreshTokens.revokedAt old = None
    /\ now env < refreshTokens.expiresAt old
    /\ issued = refreshTokens.mk (next_uuid s) (refreshTokens.userId old)
                                 (hashToken (fr_refreshToken r))
                                 (d_or_empty d) (now env + thirty_days)
                                 (now env) None
    /\ db_refreshTokens s1 = rotated (now env) old issued (db_refreshTokens s)
    /\ In (revoke (now env) old) (db_refreshTokens s1)
    /\ ~ In (refreshTokens.id issued) (map refreshTokens.id (db_refreshTokens s))
    /\ ~ In (refreshTokens.tokenHash issued)
           (map refreshTokens.tokenHash (db_refreshTokens s))
    /\ refreshTokens.tokenHash issued <> refreshTokens.tokenHash old
    /\ fr_refreshToken r <> t.
Proof.
  intros Hwf Hrun.
  unfold refreshAccessToken in Hrun.
  apply bind_inr in Hrun. destruct Hrun as (found & s0 & Hsel & Hrun).
  apply select_first_inr in Hsel. destruct Hsel as [-> ->].
  destruct (find _ (db_refreshTokens s)) as [token|] eqn:Hf; [|discriminate].
  destruct (refreshTokens.revokedAt token) eqn:Hrev; [discriminate|].
  apply bind_inr in Hrun. destruct Hrun as (owner & s0' & Hsel & Hrun).
  apply select_first_inr in Hsel. destruct Hsel as [-> ->].
  destruct (find _ (db_users s)) as [user|] eqn:Hu; [|discriminate].
  destruct (negb _) eqn:Hact; [discriminate|].
  cbv zeta in Hrun.
  apply bind_inr in Hrun. destruct Hrun as ([] & s2 & Hupd & Hrun).
  apply bind_inr in Hrun. destruct Hrun as ([] & s3 & Hins & Hrun).
  apply bind_inr in Hrun. destruct Hrun as ([] & s4 & Hlog & Hrun).
  apply ret_inr in Hrun. destruct Hrun as [-> ->].
  unfold update_refreshTokens in Hupd. injection Hupd as <-.
  apply insert_refreshTokens_inr in Hins. destruct Hins as (Hhas & Hfresh & ->).
  apply logAuditEvent_inr in Hlog. destruct Hlog as (_ & _ & Hlog & _).
  apply find_In in Hf. destruct Hf as [Hin Hp].
  apply andb_true_iff in Hp. destruct Hp as [Hh Hexp].
  apply String.eqb_eq in Hh. apply Z.ltb_lt in Hexp.
  apply find_In in Hu. destruct Hu as [Huin Hue]. apply Nat.eqb_eq in Hue.
  cbn [db_refreshTokens with_refreshTokens] in Hfresh.
  rewrite map_update_where in Hfresh by reflexivity.
  assert (Hnew : hashToken
                   (tp_refreshToken
                      (generateTokenPair (users.id user) (users.email user) (now env)))
                 <> hashToken t).
  { intros Heq. apply Hfresh. rewrite Heq, <- Hh. now apply in_map. }
  assert (Hs1 : db_refreshTokens s4
                = rotated (now env) token
                    (refreshTokens.mk (next_uuid s) (refreshTokens.userId token)
                       (hashToken
                          (tp_refreshToken
                             (generateTokenPair (users.id user) (users.email user)
                                                (now env))))
                       (d_or_empty d) (now env + thirty_days) (now env) None)
                    (db_refreshTokens s)).
  { rewrite Hlog. simpl. unfold rotated. rewrite Hue. reflexivity. }
  assert (Hold : In (revoke (now env) token) (db_refreshTokens s4)).
  { rewrite Hs1. unfold rotated. apply in_app_iff. left.
    apply in_map_iff. exists token. split; auto. now rewrite Nat.eqb_refl. }
  exists token. eexists. repeat split; eauto.
  - simpl. apply fresh_not_In. apply (wf_refresh_fresh s Hwf).
  - cbn [refreshTokens.tokenHash]. rewrite Hh. exact Hnew.
  - intros Heq. apply Hnew. apply f_equal. exact Heq.
Qed.

(** C1 (refresh rotation).  When [refreshAccessToken t] returns, the row
    matched by the hash of [t] was live (unrevoked, unexpired); the same
    call revokes that row in place and appends one new row, with a fresh
    identifier, the hash of the returned refresh token, no revocation and
    an expiry thirty days after the call.  The hash of the returned token
    is new to the table, so the token and its hash differ from [t] and its
    hash.  From then on, whatever calls are made
    in between, presenting [t] again fails with
    [UnauthorizedError "Invalid or expired refresh token"] and changes
    nothing. *)
Theorem refresh_rotation_single_use t d env s r s1 :
  wf s ->
  refreshAccessToken t d env s = (inr r, s1) ->
  (exists old issued,
      In old (db_refreshTokens s)
      /\ refreshTokens.tokenHash old = hashToken t
      /\ refreshTokens.revokedAt old = None
      /\ now env < refreshTokens.expiresAt old
      /\ issued = refreshTokens.mk (next_uuid s) (refreshTokens.userId old)
                                   (hashToken (fr_refreshToken r))
                                   (d_or_empty d) (now env + thirty_days)
                                   (now env) None
      /\ db_refreshTokens s1 = rotated (now env) old issued (db_refreshTokens s)
      /\ In (revoke (now env) old) (db_refreshTokens s1)
      /\ ~ In (refreshTokens.id issued) (map refreshTokens.id (db_refreshTokens s))
      /\ ~ In (refreshTokens.tokenHash issued)
             (map refreshTokens.tokenHash (db_refreshTokens s))
      /\ refreshTokens.tokenHash issued <> refreshTokens.tokenHash old
      /\ fr_refreshToken r <> t)
  /\ forall trace d' env',
      refreshAccessToken t d' env' (run trace s1)
      = (inl (UnauthorizedError "Invalid or expired refresh token"), run trace s1).
Proof.
  intros Hwf Hrun.
  assert (Hwf1 : wf s1).
  { pose proof (refreshAccessToken_wf t d env s Hwf) as H. now rewrite Hrun in H. }
  pose proof (refresh_rotates t d env s r s1 Hwf Hrun) as Hrot.
  split; [exact Hrot|].
  destruct Hrot as (old & issued & _ & Hh & _ & _ & _ & _ & Hold & _).
  intros trace d' env'.
  destruct (ev_refresh _ _ (run_evolves trace s1) _ Hold) as (r' & Hin' & Hle).
  destruct Hle as (_ & _ & Hh' & _ & Hrev').
  apply refresh_rejects_revoked with (r := r').
  - now apply run_wf.
  - exact Hin'.
  - cbn [revoke refreshTokens.tokenHash] in Hh'. congruence.
  - apply Hrev'. simpl. discriminate.
Qed.
End Rotation.

(** One minute after her login Alice refreshes; five seconds later the same
    raw token is presented again. *)
Lemma refresh_rotation_witness :
  wf Demo.after_login
  /\ (exists r s1,
         @refreshAccessToken Demo.platform Demo.alice_refresh_token None
                             (Demo.env_at 65000 "") Demo.after_login = (inr r, s1)
         /\ fst (@refreshAccessToken Demo.platform Demo.alice_refresh_token None
                                     (Demo.env_at 70000 "") s1)
            = inl (UnauthorizedError "Invalid or expired refresh token")).
Proof.
  assert (Hwf : wf Demo.after_login).
  { apply (@run_wf Demo.platform), (@run_wf Demo.platform), wf_empty. }
  split; [exact Hwf|].
  destruct (@refreshAccessToken Demo.platform Demo.alice_refresh_token None
                                (Demo.env_at 65000 "") Demo.after_login)
    as [[e|r] s1] eqn:Hrun.
  - vm_compute in Hrun. discriminate.
  - exists r, s1. split; [reflexivity|].
    destruct (@refresh_rotation_single_use Demo.platform _ _ _ _ _ _ Hwf Hrun)
      as [_ Hagain].
    specialize (Hagain [] None (Demo.env_at 70000 "")). cbn [run] in Hagain.
    rewrite Hagain. reflexivity.
Defined.

Section SessionInvalidation.
Context {P : Platform}.

(** C4 (full session invalidation).  When [resetPassword] returns, it was
    given an unused, unexpired [password_reset] token of some account;
    every refresh-token row of that account is revoked in the resulting
    store, and every raw refresh token whose row belonged to the account
    before the reset is turned away by [refreshAccessToken] with
    [UnauthorizedError], then and after any further calls. *)
Theorem reset_password_revokes_sessions tok pw d env s a s1 :
  wf s ->
  resetPassword tok pw d env s = (inr a, s1) ->
  exists rt,
    In rt (db_verificationTokens s)
    /\ verificationTokens.token rt = tok
    /\ verificationTokens.tokenType rt = password_reset
    /\ verificationTokens.usedAt rt = None
    /\ now env < verificationTokens.expiresAt rt
    /\ db_refreshTokens s1
       = map (fun r => if Nat.eqb (refreshTokens.userId r)
                                  (verificationTokens.userId rt)
                       then revoke (now env) r else r) (db_refreshTokens s)
    /\ (forall r, In r (db_refreshTokens s1) ->
                  refreshTokens.userId r = verificationTokens.userId rt ->
                  refreshTokens.revokedAt r <> None)
    /\ (forall r t,
           In r (db_refreshTokens s) ->
           refreshTokens.userId r = verificationTokens.userId rt ->
           refreshTokens.tokenHash r = hashToken t ->
           forall trace d' env',
             refreshAccessToken t d' env' (run trace s1)
             = (inl (UnauthorizedError "Invalid or expired refresh token"),
                run trace s1)).
Proof.
  intros Hwf Hrun.
  assert (Hwf1 : wf s1).
  { pose proof (resetPassword_wf tok pw d env s Hwf) as H. now rewrite Hrun in H. }
  unfold resetPassword in Hrun. cbv zeta in Hrun.
  destruct (negb (valid _)); [discriminate|].
  apply bind_inr in Hrun. destruct Hrun as (found & s0 & Hsel & Hrun).
  apply select_first_inr in Hsel. destruct Hsel as [-> ->].
  destruct (find _ (db_verificationTokens s)) as [rt|] eqn:Hf; [|discriminate].
  destruct (verificationTokens.usedAt rt) eqn:Hused; [discriminate|].
  apply bind_inr in Hrun. destruct Hrun as ([] & s2 & Hup1 & Hrun).
  apply bind_inr in Hrun. destruct Hrun as ([] & s3 & Hup2 & Hrun).
  apply bind_inr in Hrun. destruct Hrun as ([] & s4 & Hup3 & Hrun).
  apply bind_inr in Hrun. destruct Hrun as ([] & s5 & Hlog & Hrun).
  apply ret_inr in Hrun. destruct Hrun as [-> ->].
  unfold update_users in Hup1. injection Hup1 as <-.
  unfold update_verificationTokens in Hup2. injection Hup2 as <-.
  unfold update_refreshTokens in Hup3. injection Hup3 as <-.
  apply logAuditEvent_inr in Hlog. destruct Hlog as (_ & _ & Hlog & _).
  cbn [db_refreshTokens with_refreshTokens with_verificationTokens with_users] in Hlog.
  apply find_In in Hf. destruct Hf as [Hin Hp]. unfold one_time_lookup in Hp.
  apply andb_true_iff in Hp. destruct Hp as [Hp Hexp].
  apply andb_true_iff in Hp. destruct Hp as [Htok Hty].
  apply String.eqb_eq in Htok. apply TokenType_eqb_eq in Hty. apply Z.ltb_lt in Hexp.
  assert (Hall : forall r, In r (db_refreshTokens s5) ->
                           refreshTokens.userId r = verificationTokens.userId rt ->
                           refreshTokens.revokedAt r <> None).
  { rewrite Hlog. intros r Hr Hu. apply In_update_where in Hr.
    destruct Hr as (r0 & _ & [[_ ->]|[Hw ->]]); [simpl; discriminate|].
    apply Nat.eqb_neq in Hw. congruence. }
  exists rt. repeat split; auto.
  intros r t Hr Hu Hh trace d' env'.
  assert (Hr5 : In (revoke (now env) r) (db_refreshTokens s5)).
  { rewrite Hlog. apply in_map_iff. exists r. split; auto.
    rewrite Hu, Nat.eqb_refl. reflexivity. }
  destruct (ev_refresh _ _ (run_evolves trace s5) _ Hr5) as (r' & Hin' & Hle).
  destruct Hle as (_ & _ & Hh' & _ & Hrev').
  apply refresh_rejects_revoked with (r := r').
  - now apply run_wf.
  - exact Hin'.
  - cbn [revoke refreshTokens.tokenHash] in Hh'. congruence.
  - apply Hrev'. simpl. discriminate.
Qed.
End SessionInvalidation.

(** ** One-time tokens *)

Lemma spent_later tok t t' s : spent tok t s -> t <= t' -> spent tok t' s.
Proof.
  intros (r & Hin & Htok & H) Hle. exists r. repeat split; auto.
  destruct H; [left; auto|right; lia].
Qed.

Lemma spent_evolves tok t s s' : evolves s s' -> spent tok t s -> spent tok t s'.
Proof.
  intros Hev (r & Hin & Htok & H).
  destruct (ev_verification _ _ Hev r Hin) as (r' & Hin' & Hle).
  destruct Hle as (_ & _ & Ht & _ & He & Hu).
  exists r'. repeat split; auto; [congruence|].
  destruct H; [left; auto|right; lia].
Qed.

(** The lookup of a spent token finds nothing usable. *)
Lemma lookup_spent tok ty t s x :
  wf s -> spent tok t s ->
  find (one_time_lookup tok ty t) (db_verificationTokens s) = Some x ->
  verificationTokens.usedAt x <> None.
Proof.
  intros Hwf (r & Hin & Htok & H) Hf. apply find_In in Hf. destruct Hf as [Hx Hp].
  unfold one_time_lookup in Hp.
  apply andb_true_iff in Hp. destruct Hp as [Hp Hexp].
  apply andb_true_iff in Hp. destruct Hp as [Hk _].
  apply String.eqb_eq in Hk. apply Z.ltb_lt in Hexp.
  assert (x = r) as ->.
  { eapply (NoDup_key_eq verificationTokens.token);
      eauto using wf_verification_tokens. congruence. }
  destruct H; [assumption|lia].
Qed.

Lemma verifyEmail_rejects_spent tok env s :
  wf s -> spent tok (now env) s ->
  verifyEmail tok env s
  = (inl (ValidationError "Invalid or expired verification token"), s).
Proof.
  intros Hwf Hs. unfold verifyEmail, bind, select_first.
  destruct (find _ (db_verificationTokens s)) as [x|] eqn:Hf; [|reflexivity].
  pose proof (lookup_spent _ _ _ _ _ Hwf Hs Hf) as Hu.
  destruct (verificationTokens.usedAt x); [reflexivity|congruence].
Qed.

Lemma resetPassword_rejects_spent `{Platform} tok pw d env s :
  wf s -> spent tok (now env) s ->
  exists m, resetPassword tok pw d env s = (inl (ValidationError m), s).
Proof.
  intros Hwf Hs. unfold resetPassword. cbv zeta.
  destruct (negb (valid _)); [eexists; reflexivity|].
  unfold bind, select_first.
  destruct (find _ (db_verificationTokens s)) as [x|] eqn:Hf;
    [|eexists; reflexivity].
  pose proof (lookup_spent _ _ _ _ _ Hwf Hs Hf) as Hu.
  destruct (verificationTokens.usedAt x); [eexists; reflexivity|congruence].
Qed.

Section OneTime.
Context {P : Platform}.

(** C5 (single use of one-time tokens).  In a store that satisfies the
    schema's constraints:
    - a token whose row is consumed, or expired at instant [t], is refused
      with [ValidationError] by [verifyEmail] and by [resetPassword] at
      every instant from [t] on, after any calls in between, and the
      refusal changes nothing;
    - no sequence of calls turns a non-null [usedAt] back to null (the row
      keeps its identifier and its token);
    - when [verifyEmail tok] returns, the row was an unused, unexpired
      [email_verification] token, it is now marked used at the instant of
      the call, and [verifyEmail tok] is refused with [ValidationError]
      from then on, leaving the store (so also [emailVerified]) as it
      is. *)
Theorem one_time_token_single_use s :
  wf s ->
  (forall tok t trace env' pw d,
      spent tok t s -> t <= now env' ->
      verifyEmail tok env' (run trace s)
      = (inl (ValidationError "Invalid or expired verification token"),
         run trace s)
      /\ exists m, resetPassword tok pw d env' (run trace s)
                   = (inl (ValidationError m), run trace s))
  /\ (forall trace r,
         In r (db_verificationTokens s) ->
         verificationTokens.usedAt r <> None ->
         exists r', In r' (db_verificationTokens (run trace s))
                    /\ verificationTokens.id r' = verificationTokens.id r
                    /\ verificationTokens.token r' = verificationTokens.token r
                    /\ verificationTokens.usedAt r' <> None)
  /\ (forall tok env a s1,
         verifyEmail tok env s = (inr a, s1) ->
         (exists vt,
             In vt (db_verificationTokens s)
             /\ verificationTokens.token vt = tok
             /\ verificationTokens.tokenType vt = email_verification
             /\ verificationTokens.usedAt vt = None
             /\ now env < verificationTokens.expiresAt vt
             /\ In (mark_used (now env) vt) (db_verificationTokens s1)
             /\ forall u, In u (db_users s1) ->
                          users.id u = verificationTokens.userId vt ->
                          users.emailVerified u = true)
         /\ forall trace env',
             verifyEmail tok env' (run trace s1)
             = (inl (ValidationError "Invalid or expired verification token"),
                run trace s1)).
Proof.
  intros Hwf. split; [|split].
  - intros tok t trace env' pw d Hs Hle.
    assert (Hs' : spent tok (now env') (run trace s)).
    { eapply spent_evolves; [apply run_evolves|]. eapply spent_later; eauto. }
    pose proof (run_wf trace s Hwf) as Hwf'.
    split; [now apply verifyEmail_rejects_spent|now apply resetPassword_rejects_spent].
  - intros trace r Hin Hu.
    destruct (ev_verification _ _ (run_evolves trace s) r Hin) as (r' & Hin' & Hle).
    destruct Hle as (Hid & _ & Ht & _ & _ & Hu').
    exists r'. auto.
  - intros tok env a s1 Hrun.
    assert (Hwf1 : wf s1).
    { pose proof (verifyEmail_wf tok env s Hwf) as H. now rewrite Hrun in H. }
    unfold verifyEmail in Hrun.
    apply bind_inr in Hrun. destruct Hrun as (found & s0 & Hsel & Hrun).
    apply select_first_inr in Hsel. destruct Hsel as [-> ->].
    destruct (find _ (db_verificationTokens s)) as [vt|] eqn:Hf; [|discriminate].
    destruct (verificationTokens.usedAt vt) eqn:Hused; [discriminate|].
    apply bind_inr in Hrun. destruct Hrun as ([] & s2 & Hup1 & Hrun).
    apply bind_inr in Hrun. destruct Hrun as ([] & s3 & Hup2 & Hrun).
    unfold update_users in Hup1. injection Hup1 as <-.
    unfold update_verificationTokens in Hup2. injection Hup2 as <-.
    apply bind_inr in Hrun. destruct Hrun as (owner & s5 & Hsel & Hrun).
    apply select_first_inr in Hsel. destruct Hsel as [-> ->].
    apply bind_inr in Hrun. destruct Hrun as ([] & s4 & Hrest & Hrun).
    apply ret_inr in Hrun. destruct Hrun as [-> ->].
    assert (Htabs : db_users s4
                    = map (fun u => if Nat.eqb (users.id u)
                                               (verificationTokens.userId vt)
                                    then set_emailVerified true u else u)
                          (db_users s)
                    /\ db_verificationTokens s4
                       = map (fun r => if Nat.eqb (verificationTokens.id r)
                                                  (verificationTokens.id vt)
                                       then mark_used (now env) r else r)
                             (db_verificationTokens s)).
    { match type of Hrest with
      | context [find ?p ?l] => destruct (find p l)
      end.
      - apply bind_inr in Hrest. destruct Hrest as ([] & s6 & Hmail & Hrest).
        apply ret_inr in Hmail. destruct Hmail as [_ ->].
        apply logAuditEvent_inr in Hrest. destruct Hrest as (Hu & _ & _ & Hv).
        rewrite Hu, Hv. split; reflexivity.
      - apply ret_inr in Hrest. destruct Hrest as [_ ->]. split; reflexivity. }
    destruct Htabs as [Husers Hver].
    apply find_In in Hf. destruct Hf as [Hin Hp]. unfold one_time_lookup in Hp.
    apply andb_true_iff in Hp. destruct Hp as [Hp Hexp].
    apply andb_true_iff in Hp. destruct Hp as [Htok Hty].
    apply String.eqb_eq in Htok. apply TokenType_eqb_eq in Hty.
    apply Z.ltb_lt in Hexp.
    assert (Hmarked : In (mark_used (now env) vt) (db_verificationTokens s4)).
    { rewrite Hver. apply in_map_iff. exists vt. split; auto.
      now rewrite Nat.eqb_refl. }
    split.
    + exists vt. repeat split; auto.
      intros u Hu Hid. rewrite Husers in Hu. apply In_update_where in Hu.
      destruct Hu as (u0 & _ & [[_ ->]|[Hw ->]]); [reflexivity|].
      apply Nat.eqb_neq in Hw. congruence.
    + intros trace env'. apply verifyEmail_rejects_spent; [now apply run_wf|].
      eapply spent_evolves; [apply run_evolves|].
      exists (mark_used (now env) vt). repeat split; auto.
      left. simpl. discriminate.
Qed.
End OneTime.

(** Alice resets her password with the mailed token; the refresh token of
    her earlier login is then presented. *)
Lemma reset_password_revokes_sessions_witness :
  wf Demo.after_forgot
  /\ (exists a s1,
         @resetPassword Demo.platform "beef" "N3w!Passw0rd" None
                        (Demo.env_at 180000 "") Demo.after_forgot = (inr a, s1)
         /\ fst (@refreshAccessToken Demo.platform Demo.alice_refresh_token None
                                     (Demo.env_at 240000 "") s1)
            = inl (UnauthorizedError "Invalid or expired refresh token")).
Proof.
  assert (Hwf : wf Demo.after_forgot).
  { repeat apply (@run_wf Demo.platform). apply wf_empty. }
  split; [exact Hwf|].
  destruct (@resetPassword Demo.platform "beef" "N3w!Passw0rd" None
                           (Demo.env_at 180000 "") Demo.after_forgot)
    as [[e|a] s1] eqn:Hrun.
  - vm_compute in Hrun. discriminate.
  - exists a, s1. split; [reflexivity|].
    destruct (@reset_password_revokes_sessions Demo.platform _ _ _ _ _ _ _ Hwf Hrun)
      as (rt & Hin & Htok & _ & _ & _ & _ & _ & Hrej).
    vm_compute in Hin. destruct Hin as [<-|[<-|[]]];
      [vm_compute in Htok; discriminate|].
    pose (row := refreshTokens.mk 3%nat 0%nat
                   (@hashToken Demo.platform Demo.alice_refresh_token)
                   noDevice 1702592060000 1700000060000 None).
    assert (Hrow : In row (db_refreshTokens Demo.after_forgot))
      by (vm_compute; left; reflexivity).
    pose proof (Hrej row Demo.alice_refresh_token Hrow eq_refl eq_refl
                     [] None (Demo.env_at 240000 "")) as Hagain.
    cbn [run] in Hagain. rewrite Hagain. reflexivity.
Defined.

(** Alice follows the verification link twice. *)
Lemma one_time_token_single_use_witness :
  wf Demo.after_register
  /\ (exists a s1,
         verifyEmail "c0ffee" (Demo.env_at 30000 "") Demo.after_register = (inr a, s1)
         /\ verifyEmail "c0ffee" (Demo.env_at 31000 "") s1
            = (inl (ValidationError "Invalid or expired verification token"), s1)).
Proof.
  assert (Hwf : wf Demo.after_register).
  { apply (@run_wf Demo.platform), wf_empty. }
  split; [exact Hwf|].
  destruct (verifyEmail "c0ffee" (Demo.env_at 30000 "") Demo.after_register)
    as [[e|a] s1] eqn:Hrun.
  - vm_compute in Hrun. discriminate.
  - exists a, s1. split; [reflexivity|].
    destruct (@one_time_token_single_use Demo.platform _ Hwf) as (_ & _ & Honce).
    destruct (Honce _ _ _ _ Hrun) as [_ Hagain].
    exact (Hagain [] (Demo.env_at 31000 "")).
Defined.

(** ** External identities: the reconciliation in [handleOAuthCallback] *)

Lemma bind_run {A B} (c : M A) (k : A -> M B) s a s' :
  c s = (inr a, s') -> bind c k s = k a s'.
Proof. unfold bind. now intros ->. Qed.

Lemma logAuditEvent_run data t s :
  exists s', logAuditEvent data t s = (inr tt, s')
             /\ db_users s' = db_users s
             /\ db_oauthProviders s' = db_oauthProviders s
             /\ db_refreshTokens s' = db_refreshTokens s
             /\ db_verificationTokens s' = db_verificationTokens s.
Proof.
  pose proof (logAuditEvent_tables data t s) as H.
  destruct (logAuditEvent data t s) as [res s'].
  simpl in H. destruct H as (-> & H). exists s'. split; [reflexivity|exact H].
Qed.

Lemma resolve_linked p d env s existing :
  wf s ->
  find (oauth_key_eqb (op_provider p) (op_providerId p)) (db_oauthProviders s)
  = Some existing ->
  exists owner,
    In owner (db_users s)
    /\ users.id owner = oauthProviders.userId existing
    /\ resolveOAuthUser p d env s
       = (inr (owner, false),
          with_oauthProviders
            (map (fun r => if Nat.eqb (oauthProviders.id r) (oauthProviders.id existing)
                           then set_provider_tokens p r else r)
                 (db_oauthProviders s)) s).
Proof.
  intros Hwf Hf. pose proof (find_In _ _ _ Hf) as [Hin _].
  pose proof (wf_oauth_fk s Hwf existing Hin) as Hfk.
  unfold has_user in Hfk.
  destruct (find (fun u => Nat.eqb (users.id u) (oauthProviders.userId existing))
                 (db_users s)) as [owner|] eqn:Hown.
  2:{ apply existsb_exists in Hfk. destruct Hfk as (u & Hu & He).
      eapply find_none in Hown; eauto. simpl in Hown. congruence. }
  exists owner. apply find_In in Hown as Hown'. destruct Hown' as [Ho He].
  apply Nat.eqb_eq in He. repeat split; auto.
  unfold resolveOAuthUser, bind, select_first. rewrite Hf. cbn [fst snd].
  rewrite Hown. reflexivity.
Qed.

Lemma varchar_fits n x : fits n x -> varchar n x = Some x.
Proof.
  unfold fits, varchar. intros H. apply Nat.leb_le in H. now rewrite H.
Qed.

Lemma varchar_null_fits n v : fits_null n v -> varchar_null n v = Some v.
Proof.
  destruct v as [x|]; simpl; intros H; [|reflexivity].
  now rewrite (varchar_fits n x H).
Qed.




Lemma logAuditEvent_for_user data t s u :
  fits 100 (ad_eventType data) -> fits_null 45 (or_null (ad_ipAddress data)) ->
  ad_userId data = Some u -> has_user u s = true ->
  logAuditEvent data t s
  = (inr tt,
     bump_uuid
       (with_authAuditLog
          (db_authAuditLog s
           ++ [authAuditLog.mk (next_uuid s) (Some u) (ad_eventType data)
                 (or_null (ad_ipAddress data)) (or_null (ad_userAgent data))
                 (match ad_metadata data with Some m => m | None => [] end)
                 (match ad_success data with Some b => b | None => true end) t])%list
          s)).
Proof.
  intros He Hi Hu Hh. unfold logAuditEvent.
  rewrite (varchar_fits _ _ He), (varchar_null_fits _ _ Hi), Hu, Hh. reflexivity.
Qed.



Lemma insert_users_stored v t s u s' :
  insert_users v t s = (inr u, s') ->
  exists email displayName,
    varchar_null 255 (nu_email v) = Some email
    /\ varchar_null 255 (nu_displayName v) = Some displayName
    /\ email_taken email (db_users s) = false
    /\ u = users.mk (next_uuid s) email (nu_emailVerified v) (nu_passwordHash v)
                    displayName (nu_avatarUrl v) None (nu_status v) t t None
    /\ s' = bump_uuid (with_users (db_users s ++ [u])%list s).
Proof.
  unfold insert_users.
  destruct (varchar_null 255 (nu_email v)) as [email|]; [|discriminate].
  destruct (varchar_null 255 (nu_displayName v)) as [displayName|]; [|discriminate].
  destruct (email_taken email (db_users s)) eqn:He; [discriminate|].
  intros H. injection H as <- <-. exists email, displayName. auto.
Qed.

Lemma insert_oauthProviders_stored uid p pid pe a r e t s x s' :
  insert_oauthProviders uid p pid pe a r e t s = (inr x, s') ->
  exists pid' pe',
    varchar 255 pid = Some pid'
    /\ varchar_null 255 pe = Some pe'
    /\ has_user uid s = true
    /\ existsb (oauth_key_eqb p pid') (db_oauthProviders s) = false
    /\ s' = bump_uuid
              (with_oauthProviders
                 (db_oauthProviders s
                  ++ [oauthProviders.mk (next_uuid s) uid p pid' pe' a r e [] t t])%list
                 s).
Proof.
  unfold insert_oauthProviders.
  destruct (varchar 255 pid) as [pid'|]; [|discriminate].
  destruct (varchar_null 255 pe) as [pe'|]; [|discriminate].
  destruct (has_user uid s); cbn [negb]; [|discriminate].
  destruct (existsb _ _) eqn:He; [discriminate|].
  intros H. injection H as <-. exists pid', pe'. auto.
Qed.

(** What the reconciliation leaves when the key was not linked and it
    returns: the link row it appended, with the values as the columns took
    them, and the account it resolved to, found by e-mail address or
    created. *)
Lemma resolve_unseen_inr p d env s u b s' :
  find (oauth_key_eqb (op_provider p) (op_providerId p)) (db_oauthProviders s) = None ->
  resolveOAuthUser p d env s = (inr (u, b), s') ->
  exists pid pe n,
    varchar 255 (op_providerId p) = Some pid
    /\ varchar_null 255 (Some (op_email p)) = Some pe
    /\ db_oauthProviders s'
       = (db_oauthProviders s
          ++ [oauthProviders.mk n (users.id u) (op_provider p) pid pe
                (Some (op_accessToken p)) (op_refreshToken p) (op_expiresAt p)
                [] (now env) (now env)])%list
    /\ db_refreshTokens s' = db_refreshTokens s
    /\ db_verificationTokens s' = db_verificationTokens s
    /\ (if b
        then find (fun x => eq_col (users.email x) (op_email p)) (db_users s) = None
             /\ (exists displayName,
                    varchar_null 255 (or_null (op_displayName p)) = Some displayName
                    /\ u = users.mk (next_uuid s) pe true None displayName
                                    (or_null (op_avatarUrl p)) None active
                                    (now env) (now env) None)
             /\ db_users s' = (db_users s ++ [u])%list
        else find (fun x => eq_col (users.email x) (op_email p)) (db_users s) = Some u
             /\ db_users s' = db_users s).
Proof.
  intros Hf Hrun. unfold resolveOAuthUser in Hrun.
  apply bind_inr in Hrun. destruct Hrun as (o & s0 & Hsel & Hrun).
  apply select_first_inr in Hsel. destruct Hsel as [-> ->]. rewrite Hf in Hrun.
  apply bind_inr in Hrun. destruct Hrun as ([ou nb] & s4 & Hres & Hrun).
  cbn [fst snd] in Hrun.
  destruct ou as [u'|]; [|discriminate].
  apply ret_inr in Hrun. destruct Hrun as [Hub ->]. injection Hub as -> ->.
  apply bind_inr in Hres. destruct Hres as (o & s0 & Hsel & Hres).
  apply select_first_inr in Hsel. destruct Hsel as [-> ->].
  apply bind_inr in Hres. destruct Hres as ([u0 b0] & s1 & Hcre & Hres).
  apply bind_inr in Hres. destruct Hres as ([] & s2 & Hins & Hres).
  apply bind_inr in Hres. destruct Hres as ([] & s3 & Hlog & Hres).
  apply ret_inr in Hres. destruct Hres as [Hub ->]. injection Hub as -> ->.
  apply insert_oauthProviders_stored in Hins.
  destruct Hins as (pid & pe & Hpid & Hpe & _ & _ & ->).
  apply logAuditEvent_inr in Hlog. destruct Hlog as (Hus & Hoa & Hrt & Hvt).
  cbn [bump_uuid with_oauthProviders db_users db_oauthProviders db_refreshTokens
       db_verificationTokens] in Hus, Hoa, Hrt, Hvt.
  destruct (find (fun x => eq_col (users.email x) (op_email p)) (db_users s))
    as [found|] eqn:Hmail.
  - apply ret_inr in Hcre. destruct Hcre as [Hub ->]. injection Hub as -> ->.
    exists pid, pe, (next_uuid s). repeat split; auto.
  - apply bind_inr in Hcre. destruct Hcre as (nu & sa & Hnew & Hcre).
    apply bind_inr in Hcre. destruct Hcre as ([] & sb & Hlog0 & Hcre).
    apply ret_inr in Hcre. destruct Hcre as [Hub ->]. injection Hub as -> ->.
    apply insert_users_stored in Hnew.
    destruct Hnew as (email & displayName & Hem & Hdn & _ & -> & ->).
    apply logAuditEvent_inr in Hlog0. destruct Hlog0 as (Hus0 & Hoa0 & Hrt0 & Hvt0).
    cbn [bump_uuid with_users db_users db_oauthProviders db_refreshTokens
         db_verificationTokens nu_email nu_displayName nu_emailVerified
         nu_passwordHash nu_avatarUrl nu_status] in *.
    rewrite Hem in Hpe. injection Hpe as ->.
    exists pid, pe, (next_uuid sb). rewrite Hoa, Hoa0, Hrt, Hrt0, Hvt, Hvt0, Hus, Hus0.
    repeat split; auto. exists displayName. split; auto.
Qed.

Section Issue.
Context {P : Platform}.


End Issue.

Lemma find_first {A} (p : A -> bool) l x :
  In x l -> p x = true -> exists y, find p l = Some y.
Proof.
  intros Hin Hp. destruct (find p l) as [y|] eqn:Hf; [eauto|].
  eapply find_none in Hf; eauto. congruence.
Qed.

Lemma find_by_oauth_key s link :
  wf s -> In link (db_oauthProviders s) ->
  find (oauth_key_eqb (oauthProviders.provider link)
                      (oauthProviders.providerUserId link)) (db_oauthProviders s)
  = Some link.
Proof.
  intros Hwf Hin.
  destruct (find_first (oauth_key_eqb (oauthProviders.provider link)
                                      (oauthProviders.providerUserId link))
                       _ _ Hin) as (y & Hy).
  { now apply oauth_key_eqb_true. }
  rewrite Hy. f_equal. apply find_In in Hy. destruct Hy as [Hyin Hk].
  apply oauth_key_eqb_true in Hk. destruct Hk as [Hp Hq].
  apply (NoDup_key_eq (fun r => (oauthProviders.provider r,
                                 oauthProviders.providerUserId r))
                      (db_oauthProviders s)); auto.
  - apply (wf_oauth_keys s Hwf).
  - simpl. congruence.
Qed.

Lemma find_by_user_id s u :
  wf s -> In u (db_users s) ->
  find (fun x => Nat.eqb (users.id x) (users.id u)) (db_users s) = Some u.
Proof.
  intros Hwf Hin.
  destruct (find_first (fun x => Nat.eqb (users.id x) (users.id u)) _ _ Hin)
    as (y & Hy); [apply Nat.eqb_refl|].
  rewrite Hy. f_equal. apply find_In in Hy. destruct Hy as [Hyin Hk].
  apply Nat.eqb_eq in Hk.
  apply (NoDup_key_eq users.id (db_users s)); auto. apply (wf_user_ids s Hwf).
Qed.

Section Callback.
Context {P : Platform}.

Lemma callback_after_resolve p d env s u b s' :
  resolveOAuthUser p d env s = (inr (u, b), s') ->
  handleOAuthCallback p d env s = issueOAuthSession p d env u b s'.
Proof. intros H. unfold handleOAuthCallback, bind. now rewrite H. Qed.


Lemma issue_session_inr p d env user isNew s r s1 :
  issueOAuthSession p d env user isNew s = (inr r, s1) ->
  has_user (users.id user) s = true
  /\ ~ In (hashToken (generateRefreshToken (users.id user) (users.email user)
                                           (now env)))
          (map refreshTokens.tokenHash (db_refreshTokens s))
  /\ or_user r = user_view user
  /\ or_isNewUser r = isNew
  /\ or_refreshToken r
     = generateRefreshToken (users.id user) (users.email user) (now env)
  /\ db_users s1
     = map (fun x => if Nat.eqb (users.id x) (users.id user)
                     then set_lastLoginAt (now env) x else x) (db_users s)
  /\ db_oauthProviders s1 = db_oauthProviders s
  /\ db_refreshTokens s1
     = (db_refreshTokens s
        ++ [refreshTokens.mk (next_uuid s) (users.id user)
              (hashToken (generateRefreshToken (users.id user) (users.email user)
                                               (now env)))
              (d_or_empty d) (now env + thirty_days) (now env) None])%list.
Proof.
  intros Hrun. unfold issueOAuthSession in Hrun. cbv zeta in Hrun.
  apply bind_inr in Hrun. destruct Hrun as ([] & s2 & Hins & Hrun).
  apply bind_inr in Hrun. destruct Hrun as ([] & s3 & Hupd & Hrun).
  apply bind_inr in Hrun. destruct Hrun as ([] & s4 & Hlog & Hrun).
  apply ret_inr in Hrun. destruct Hrun as [-> ->].
  apply insert_refreshTokens_inr in Hins. destruct Hins as (Hhas & Hfresh & ->).
  unfold update_users in Hupd. injection Hupd as <-.
  apply logAuditEvent_inr in Hlog. destruct Hlog as (Hu & Ho & Hr & _).
  repeat split; auto.
Qed.
End Callback.

Section CallbackLinked.
Context {P : Platform}.

Lemma touched_user_In now_ (u : users.row) l :
  In u l ->
  In (set_lastLoginAt now_ u)
     (map (fun x => if Nat.eqb (users.id x) (users.id u)
                    then set_lastLoginAt now_ x else x) l).
Proof.
  intros Hin. apply in_map_iff. exists u. split; auto. now rewrite Nat.eqb_refl.
Qed.

(** What a callback that returned leaves in the store: a link row for the
    profile's key, owned by the account whose projection was returned. *)
Lemma callback_leaves_link_stored p d env s r s1 :
  wf s ->
  handleOAuthCallback p d env s = (inr r, s1) ->
  exists link u,
    In link (db_oauthProviders s1)
    /\ oauthProviders.provider link = op_provider p
    /\ (oauthProviders.providerUserId link = op_providerId p
        \/ varchar 255 (op_providerId p) = Some (oauthProviders.providerUserId link))
    /\ oauthProviders.userId link = users.id u
    /\ In u (db_users s1)
    /\ or_user r = user_view u.
Proof.
  intros Hwf Hrun.
  destruct (find (oauth_key_eqb (op_provider p) (op_providerId p))
                 (db_oauthProviders s)) as [existing|] eqn:Hf.
  - destruct (resolve_linked p d env s existing Hwf Hf) as (owner & Ho & Hid & Hres).
    rewrite (callback_after_resolve _ _ _ _ _ _ _ Hres) in Hrun.
    apply issue_session_inr in Hrun.
    destruct Hrun as (_ & _ & Hview & _ & _ & Hus & Hoa & _).
    apply find_In in Hf. destruct Hf as [Hin Hk]. apply oauth_key_eqb_true in Hk.
    exists (set_provider_tokens p existing), (set_lastLoginAt (now env) owner).
    destruct Hk as [Hk1 Hk2]. repeat split.
    + rewrite Hoa. simpl. apply in_map_iff. exists existing. split; auto.
      now rewrite Nat.eqb_refl.
    + exact Hk1.
    + left. exact Hk2.
    + simpl. congruence.
    + rewrite Hus. now apply touched_user_In.
    + exact Hview.
  - unfold handleOAuthCallback in Hrun. apply bind_inr in Hrun.
    destruct Hrun as ([u b] & s' & Hres & Hrun). cbn [fst snd] in Hrun.
    destruct (resolve_unseen_inr p d env s u b s' Hf Hres)
      as (pid & pe & n & Hv & _ & Hoa' & _ & _ & Hb).
    apply issue_session_inr in Hrun.
    destruct Hrun as (_ & _ & Hview & _ & _ & Hus & Hoa & _).
    assert (Hin : In u (db_users s')).
    { destruct b.
      - destruct Hb as (_ & _ & ->). apply in_app_iff. right. now left.
      - destruct Hb as (Hfound & ->). apply find_In in Hfound. tauto. }
    eexists. exists (set_lastLoginAt (now env) u). split.
    + rewrite Hoa, Hoa'. apply in_app_iff. right. left. reflexivity.
    + cbn [oauthProviders.provider oauthProviders.providerUserId
           oauthProviders.userId]. repeat split; auto.
      rewrite Hus. now apply touched_user_In.
Qed.


End CallbackLinked.

Lemma no_user_with_email e l :
  (forall x, In x l -> users.email x <> Some e) ->
  find (fun x => eq_col (users.email x) e) l = None.
Proof.
  intros H. destruct (find _ l) as [y|] eqn:Hf; [|reflexivity].
  apply find_In in Hf. destruct Hf as [Hin He]. apply eq_col_true in He.
  exfalso. exact (H y Hin He).
Qed.

Section CallbackUnseen.
Context {P : Platform}.


End CallbackUnseen.

Section Reconciliation.
Context {P : Platform}.

End Reconciliation.

(** C2 as the claim states it fails when the same assertion is submitted
    twice within one second: the first callback returns, the second signs
    the same refresh token and is rejected by the unique index on
    [token_hash], so it returns no account. *)
Lemma oauth_resubmission_same_second_counterexample :
  exists r1 s1,
    @handleOAuthCallback Demo.platform Demo.bob None (Demo.env_at 0 "") empty_store
    = (inr r1, s1)
    /\ fst (@handleOAuthCallback Demo.platform Demo.bob None (Demo.env_at 400 "") s1)
       = inl token_hash_taken.
Proof.
  destruct (@handleOAuthCallback Demo.platform Demo.bob None (Demo.env_at 0 "")
                                 empty_store) as [[e|r1] s1] eqn:Hrun.
  - vm_compute in Hrun. discriminate.
  - exists r1, s1. split; [reflexivity|].
    vm_compute in Hrun. injection Hrun as <- <-. vm_compute. reflexivity.
Qed.


Section Convergence.
Context {P : Platform}.



End Convergence.

(** A Facebook identity carrying Alice's address arrives after she has
    registered with a password. *)
(** C3 as the claim states it fails when the assertion arrives within the
    second in which Alice logged in: her account is found by its address,
    but the refresh token signed for the session is the one her login
    stored, the unique index on [token_hash] rejects it, and the call
    returns nothing. *)
Lemma oauth_link_same_second_counterexample :
  find (oauth_key_eqb (op_provider Demo.alice_facebook)
                      (op_providerId Demo.alice_facebook))
       (db_oauthProviders Demo.after_login) = None
  /\ (exists A, In A (db_users Demo.after_login)
                /\ users.email A = Some (op_email Demo.alice_facebook)
                /\ op_email Demo.alice_facebook <> "")
  /\ fst (@handleOAuthCallback Demo.platform Demo.alice_facebook None
                               (Demo.env_at 60400 "") Demo.after_login)
     = inl token_hash_taken.
Proof.
  split; [reflexivity|]. split.
  - eexists. split; [vm_compute; left; reflexivity|]. split; [reflexivity|].
    discriminate.
  - vm_compute. reflexivity.
Qed.




(** C10 as the claim states it fails for suspended Bob when his Google
    identity signs in again within the second of his first sign-in: the
    refresh token signed for the session is already stored, the unique
    index on [token_hash] rejects it, and no token pair is issued. *)
Lemma oauth_callback_same_second_counterexample :
  exists u link,
    In u (db_users Demo.bob_suspended)
    /\ users.status u = suspended
    /\ In link (db_oauthProviders Demo.bob_suspended)
    /\ oauthProviders.provider link = op_provider Demo.bob
    /\ oauthProviders.providerUserId link = op_providerId Demo.bob
    /\ oauthProviders.userId link = users.id u
    /\ (let out := @handleOAuthCallback Demo.platform Demo.bob None
                                        (Demo.env_at 400 "") Demo.bob_suspended in
        fst out = inl token_hash_taken
        /\ db_refreshTokens (snd out) = db_refreshTokens Demo.bob_suspended
        /\ db_users (snd out) = db_users Demo.bob_suspended).
Proof.
  exists (users.mk 0%nat (Some "bob@x.com") true None (Some "Bob") None None suspended
                   Demo.t0 Demo.t0 (Some Demo.t0)),
         (oauthProviders.mk 2%nat 0%nat google "g-1" (Some "bob@x.com")
                            (Some "ya29.first") (Some "1//refresh") None []
                            Demo.t0 Demo.t0).
  split; [vm_compute; left; reflexivity|].
  split; [reflexivity|]. split; [vm_compute; left; reflexivity|].
  split; [reflexivity|]. split; [reflexivity|]. split; [reflexivity|].
  vm_compute. repeat split.
Qed.


(** ** Uniform failures *)

Section Enumeration.
Context {P : Platform}.

(** C9 (no account enumeration).  [login] fails with the one error
    [UnauthorizedError "Invalid email or password"] when no account has
    the address, when the account has no password hash, and when the
    password does not verify.  [requestPasswordReset] answers with the
    same acknowledgement when no account has the address and when one
    has; in the latter case it returns whenever the token it draws is not
    already stored. *)
Theorem failures_do_not_reveal_accounts s :
  wf s ->
  (forall data d env,
      let denied := inl (UnauthorizedError "Invalid email or password") in
      ((forall x, In x (db_users s) -> users.email x <> Some (login_email data)) ->
       fst (login data d env s) = denied)
      /\ (forall u,
             In u (db_users s) -> users.email u = Some (login_email data) ->
             (falsy (users.passwordHash u) = true ->
              fst (login data d env s) = denied)
             /\ (forall h, users.passwordHash u = Some h ->
                           verifyPassword (login_password data) h = false ->
                           fst (login data d env s) = denied)))
  /\ (forall e d env,
         ((forall x, In x (db_users s) -> users.email x <> Some e) ->
          requestPasswordReset e d env s = (inr generic_reset_ack, s))
         /\ (forall u,
                In u (db_users s) -> users.email u = Some e ->
                ~ In (generateToken env)
                     (map verificationTokens.token (db_verificationTokens s)) ->
                fst (requestPasswordReset e d env s) = inr generic_reset_ack)).
Proof.
  intros Hwf. split.
  - intros data d env denied. split.
    + intros Hnone. pose proof (no_user_with_email _ _ Hnone) as Hf.
      unfold login, bind, select_first. rewrite Hf. cbv zeta.
      match goal with
      | |- context [logAuditEvent ?a ?b ?c] =>
        destruct (logAuditEvent_run a b c) as (s' & -> & _)
      end. reflexivity.
    + intros u Hu He.
      pose proof (find_by_email _ _ _ (wf_user_emails s Hwf) Hu He) as Hf.
      split.
      * intros Hfalsy. unfold login, bind, select_first. rewrite Hf. cbv zeta.
        rewrite Hfalsy.
        match goal with
        | |- context [logAuditEvent ?a ?b ?c] =>
          destruct (logAuditEvent_run a b c) as (s' & -> & _)
        end. reflexivity.
      * intros h Hh Hbad. unfold login, bind, select_first. rewrite Hf. cbv zeta.
        rewrite Hh. destruct (falsy (Some h)).
        -- match goal with
           | |- context [logAuditEvent ?a ?b ?c] =>
             destruct (logAuditEvent_run a b c) as (s' & -> & _)
           end. reflexivity.
        -- rewrite Hbad. cbn [negb].
           match goal with
           | |- context [logAuditEvent ?a ?b ?c] =>
             destruct (logAuditEvent_run a b c) as (s' & -> & _)
           end. reflexivity.
  - intros e d env. split.
    + intros Hnone. pose proof (no_user_with_email _ _ Hnone) as Hf.
      unfold requestPasswordReset, bind, select_first. rewrite Hf. reflexivity.
    + intros u Hu He Hfresh.
      pose proof (find_by_email _ _ _ (wf_user_emails s Hwf) Hu He) as Hf.
      unfold requestPasswordReset, bind, select_first. rewrite Hf. cbv zeta.
      unfold insert_verificationTokens.
      assert (Hhas : has_user (users.id u) s = true) by (apply has_user_In; eauto).
      rewrite Hhas. cbn [negb].
      match goal with
      | |- context [existsb ?f ?l] => destruct (existsb f l) eqn:Hex
      end.
      { exfalso. apply Hfresh. apply existsb_exists in Hex.
        destruct Hex as (x & Hx & Hk). apply String.eqb_eq in Hk.
        apply in_map_iff. exists x. auto. }
      unfold sendPasswordResetEmail, ret.
      match goal with
      | |- context [logAuditEvent ?a ?b ?c] =>
        destruct (logAuditEvent_run a b c) as (s' & -> & _)
      end. reflexivity.
Qed.
End Enumeration.

(** Against the store in which only Alice is registered: a login for an
    unknown address and a login for Alice with a wrong password are refused
    alike. *)
Lemma failures_do_not_reveal_accounts_witness :
  wf Demo.after_register
  /\ fst (@login Demo.platform (mkLoginDto "nobody@x.com" "Str0ng!Pass") None
                 (Demo.env_at 1000 "") Demo.after_register)
     = fst (@login Demo.platform (mkLoginDto "alice@x.com" "Wr0ng!Pass") None
                   (Demo.env_at 1000 "") Demo.after_register).
Proof.
  assert (Hwf : wf Demo.after_register).
  { apply (@run_wf Demo.platform), wf_empty. }
  split; [exact Hwf|].
  destruct (@failures_do_not_reveal_accounts Demo.platform _ Hwf) as [Hlogin _].
  pose (A := users.mk 0%nat (Some "alice@x.com") false (Some "salt|Str0ng!Pass")
                      (Some "Alice") None None active Demo.t0 Demo.t0 None).
  assert (HA : In A (db_users Demo.after_register)) by (vm_compute; left; reflexivity).
  destruct (Hlogin (mkLoginDto "nobody@x.com" "Str0ng!Pass") None (Demo.env_at 1000 ""))
    as [Hunknown _].
  destruct (Hlogin (mkLoginDto "alice@x.com" "Wr0ng!Pass") None (Demo.env_at 1000 ""))
    as [_ Hknown].
  destruct (Hknown A HA eq_refl) as [_ Hwrong].
  rewrite Hunknown, (Hwrong "salt|Str0ng!Pass" eq_refl eq_refl); [reflexivity|].
  intros x Hx. vm_compute in Hx. destruct Hx as [<-|[]]. discriminate.
Defined.

(** ** What makes a refresh token valid *)

Lemma find_by_refresh_hash s r h t :
  wf s -> In r (db_refreshTokens s) ->
  refreshTokens.tokenHash r = h -> t < refreshTokens.expiresAt r ->
  find (fun x => String.eqb (refreshTokens.tokenHash x) h
                 && (t <? refreshTokens.expiresAt x)) (db_refreshTokens s)
  = Some r.
Proof.
  intros Hwf Hin Hh Hexp.
  destruct (find_first (fun x => String.eqb (refreshTokens.tokenHash x) h
                                 && (t <? refreshTokens.expiresAt x)) _ _ Hin)
    as (y & Hy).
  { apply andb_true_iff. split; [now apply String.eqb_eq|now apply Z.ltb_lt]. }
  rewrite Hy. f_equal. apply find_In in Hy. destruct Hy as [Hyin Hk].
  apply andb_true_iff in Hk. destruct Hk as [Hk _]. apply String.eqb_eq in Hk.
  apply (NoDup_key_eq refreshTokens.tokenHash (db_refreshTokens s)); auto.
  - apply (wf_refresh_hashes s Hwf).
  - congruence.
Qed.

Section Validity.
Context {P : Platform}.

End Validity.



(** ** In what form tokens are stored *)










Section Storage.
Context {P : Platform}.

Section Signer.
Variable sign' : JwtPayload -> string -> SignOptions -> timestamp -> string.



End Signer.

End Storage.



(** * Further properties of the service and of its callers *)

(** ** Accounts persist *)

Lemma account_le_refl u : account_le u u.
Proof. repeat split; auto. Qed.

Lemma account_le_trans a b c : account_le a b -> account_le b c -> account_le a c.
Proof.
  intros (i1 & e1 & s1 & c1 & v1) (i2 & e2 & s2 & c2 & v2).
  repeat split; try congruence. auto.
Qed.

Lemma accounts_persist_refl s : accounts_persist s s.
Proof. intros u Hu. exists u. split; [exact Hu|apply account_le_refl]. Qed.

Lemma accounts_persist_trans a b c :
  accounts_persist a b -> accounts_persist b c -> accounts_persist a c.
Proof.
  intros Hab Hbc u Hu.
  destruct (Hab u Hu) as (u1 & Hu1 & L1).
  destruct (Hbc u1 Hu1) as (u2 & Hu2 & L2).
  exists u2. split; [exact Hu2|]. eapply account_le_trans; eassumption.
Qed.

Lemma accounts_persist_same s s' : db_users s' = db_users s -> accounts_persist s s'.
Proof. intros E u Hu. exists u. rewrite E. split; [exact Hu|apply account_le_refl]. Qed.

Lemma update_users_persist set w :
  (forall r, account_le r (set r)) -> respects accounts_persist (update_users set w).
Proof.
  intros Hset s u Hu. simpl.
  exists (if w u then set u else u). split.
  - apply (update_where_In set w), Hu.
  - destruct (w u); [apply Hset|apply account_le_refl].
Qed.

Lemma insert_users_persist v t : respects accounts_persist (insert_users v t).
Proof.
  intros s u Hu. unfold insert_users.
  columns; try (exists u; split; [exact Hu|apply account_le_refl]).
  destruct (email_taken _ _); simpl.
  - exists u. split; [exact Hu|apply account_le_refl].
  - exists u. split; [apply in_or_app; left; exact Hu|apply account_le_refl].
Qed.

Ltac persist_same :=
  let s := fresh "s" in
  intros s; apply accounts_persist_same;
  unfold update_oauthProviders, update_refreshTokens, update_verificationTokens,
    delete_oauthProviders, insert_oauthProviders, insert_refreshTokens,
    insert_verificationTokens, logAuditEvent;
  columns;
  repeat match goal with
         | |- context [if ?b then _ else _] => destruct b
         end;
  reflexivity.

Ltac persist_prim :=
  first
    [ apply update_users_persist; intros ?; repeat split; auto
    | apply insert_users_persist
    | persist_same ].

Ltac walk_persist := walk accounts_persist_refl accounts_persist_trans persist_prim.

(** ** The audit log only grows *)

Lemma audit_extends_refl s : audit_extends s s.
Proof. exists []. symmetry. apply app_nil_r. Qed.

Lemma audit_extends_trans a b c :
  audit_extends a b -> audit_extends b c -> audit_extends a c.
Proof.
  intros [l1 E1] [l2 E2]. exists (l1 ++ l2)%list.
  rewrite E2, E1. symmetry. apply app_assoc.
Qed.

Lemma logAuditEvent_extends data t : respects audit_extends (logAuditEvent data t).
Proof.
  intros s. unfold logAuditEvent. columns; try apply audit_extends_refl.
  destruct (match ad_userId data with Some u => has_user u s | None => true end).
  - eexists. reflexivity.
  - apply audit_extends_refl.
Qed.

Ltac audit_same :=
  let s := fresh "s" in
  intros s; exists (@nil authAuditLog.row);
  unfold update_users, update_oauthProviders, update_refreshTokens,
    update_verificationTokens, delete_oauthProviders, insert_users,
    insert_oauthProviders, insert_refreshTokens, insert_verificationTokens;
  columns;
  repeat match goal with
         | |- context [if ?b then _ else _] => destruct b
         end;
  simpl; symmetry; apply app_nil_r.

Ltac audit_prim := first [ apply logAuditEvent_extends | audit_same ].

Ltac walk_audit := walk audit_extends_refl audit_extends_trans audit_prim.

Section Persistence.
Context {P : Platform}.

Lemma step_persist q env s : accounts_persist s (step q env s).
Proof.
  revert s. destruct q; cbn [step].
  - change (respects accounts_persist (register data deviceInfo env)).
    unfold register. walk_persist.
  - change (respects accounts_persist (login data deviceInfo env)).
    unfold login. walk_persist.
  - change (respects accounts_persist (refreshAccessToken refreshToken deviceInfo env)).
    unfold refreshAccessToken. walk_persist.
  - change (respects accounts_persist (logout refreshToken userId deviceInfo env)).
    unfold logout. walk_persist.
  - change (respects accounts_persist (verifyEmail token env)).
    unfold verifyEmail. walk_persist.
  - change (respects accounts_persist (requestPasswordReset email deviceInfo env)).
    unfold requestPasswordReset. walk_persist.
  - change (respects accounts_persist (resetPassword token newPassword deviceInfo env)).
    unfold resetPassword. walk_persist.
  - change (respects accounts_persist (handleOAuthCallback profile deviceInfo env)).
    unfold handleOAuthCallback, resolveOAuthUser, issueOAuthSession. walk_persist.
  - change (respects accounts_persist
              (removeOAuthProvider provider providerUserId deviceInfo env)).
    unfold removeOAuthProvider. walk_persist.
Qed.

Lemma run_persist trace : forall s, accounts_persist s (run trace s).
Proof.
  induction trace as [|[q env] rest IH]; intros s; cbn [run].
  - apply accounts_persist_refl.
  - eapply accounts_persist_trans; [apply step_persist|apply IH].
Qed.

Lemma step_audit q env s : audit_extends s (step q env s).
Proof.
  revert s. destruct q; cbn [step].
  - change (respects audit_extends (register data deviceInfo env)).
    unfold register. walk_audit.
  - change (respects audit_extends (login data deviceInfo env)).
    unfold login. walk_audit.
  - change (respects audit_extends (refreshAccessToken refreshToken deviceInfo env)).
    unfold refreshAccessToken. walk_audit.
  - change (respects audit_extends (logout refreshToken userId deviceInfo env)).
    unfold logout. walk_audit.
  - change (respects audit_extends (verifyEmail token env)).
    unfold verifyEmail. walk_audit.
  - change (respects audit_extends (requestPasswordReset email deviceInfo env)).
    unfold requestPasswordReset. walk_audit.
  - change (respects audit_extends (resetPassword token newPassword deviceInfo env)).
    unfold resetPassword. walk_audit.
  - change (respects audit_extends (handleOAuthCallback profile deviceInfo env)).
    unfold handleOAuthCallback, resolveOAuthUser, issueOAuthSession. walk_audit.
  - change (respects audit_extends
              (removeOAuthProvider provider providerUserId deviceInfo env)).
    unfold removeOAuthProvider. walk_audit.
Qed.

Lemma run_audit trace : forall s, audit_extends s (run trace s).
Proof.
  induction trace as [|[q env] rest IH]; intros s; cbn [run].
  - apply audit_extends_refl.
  - eapply audit_extends_trans; [apply step_audit|apply IH].
Qed.

(** X1.  Whatever calls are made, an account is never deleted and its id,
    e-mail address, status and creation time never change; a verified
    address stays verified. *)
Theorem accounts_are_never_removed trace s u :
  In u (db_users s) ->
  exists u',
    In u' (db_users (run trace s))
    /\ users.id u' = users.id u
    /\ users.email u' = users.email u
    /\ users.status u' = users.status u
    /\ users.createdAt u' = users.createdAt u
    /\ (users.emailVerified u = true -> users.emailVerified u' = true).
Proof.
  intros Hu. destruct (run_persist trace s u Hu) as (u' & Hu' & L).
  exists u'. split; [exact Hu'|exact L].
Qed.

(** X2.  The audit log is append-only: after any calls, the log is the
    earlier log followed by new rows. *)
Theorem audit_log_is_append_only trace s :
  exists added,
    db_authAuditLog (run trace s) = (db_authAuditLog s ++ added)%list.
Proof. apply run_audit. Qed.

End Persistence.

(** ** Registration *)

Lemma insert_verificationTokens_inv uid k ty e t s u s' :
  insert_verificationTokens uid k ty e t s = (inr u, s') ->
  has_user uid s = true
  /\ ~ In k (map verificationTokens.token (db_verificationTokens s))
  /\ s' = bump_uuid
            (with_verificationTokens
               (db_verificationTokens s
                ++ [verificationTokens.mk (next_uuid s) uid k ty e None t]) s).
Proof.
  unfold insert_verificationTokens.
  destruct (has_user uid s); cbn [negb]; [|discriminate].
  destruct (existsb _ _) eqn:E; [discriminate|].
  intros H. inversion H; subst. repeat split.
  apply (existsb_false_not_In verificationTokens.token String.eqb);
    [apply String.eqb_refl|exact E].
Qed.

Lemma not_In_existsb_false {A B} (f : A -> B) (eqb : B -> B -> bool) (k : B) l :
  (forall x y, eqb x y = true -> x = y) ->
  ~ In k (map f l) -> existsb (fun r => eqb (f r) k) l = false.
Proof.
  intros Heq Hn. destruct (existsb _ l) eqn:E; [|reflexivity].
  apply existsb_exists in E as (x & Hx & Hk). exfalso. apply Hn.
  apply Heq in Hk. subst. apply in_map, Hx.
Qed.

Lemma insert_verificationTokens_fresh uid k ty e t s :
  has_user uid s = true ->
  ~ In k (map verificationTokens.token (db_verificationTokens s)) ->
  insert_verificationTokens uid k ty e t s
  = (inr tt,
     bump_uuid
       (with_verificationTokens
          (db_verificationTokens s
           ++ [verificationTokens.mk (next_uuid s) uid k ty e None t]) s)).
Proof.
  intros Hu Hk. unfold insert_verificationTokens. rewrite Hu. cbn [negb].
  rewrite (not_In_existsb_false verificationTokens.token String.eqb); auto.
  intros x y. apply String.eqb_eq.
Qed.

Lemma find_none_email e l :
  find (fun x => eq_col (users.email x) e) l = None ->
  forall x, In x l -> users.email x <> Some e.
Proof.
  intros Hf x Hx He. pose proof (find_none _ _ Hf x Hx) as H. cbv beta in H.
  apply eq_col_true in He. congruence.
Qed.

Lemma email_taken_false e l :
  (forall x, In x l -> users.email x <> Some e) -> email_taken (Some e) l = false.
Proof.
  intros H. unfold email_taken. destruct (existsb _ l) eqn:E; [|reflexivity].
  apply existsb_exists in E as (x & Hx & Hk). apply eq_col_true in Hk.
  exfalso. exact (H x Hx Hk).
Qed.



(** What the two [varchar(255)] columns of an insert into [users] store. *)
Lemma varchar_null_Some n x v :
  varchar_null n (Some x) = Some v -> v = varchar n x.
Proof.
  unfold varchar_null. destruct (varchar n x); simpl; intros H; congruence.
Qed.


Section Registration.
Context {P : Platform}.

Lemma register_inr data d env s r s1 :
  register data d env s = (inr r, s1) ->
  valid (validatePasswordStrength (reg_password data)) = true
  /\ (forall x, In x (db_users s) -> users.email x <> Some (reg_email data))
  /\ ~ In (generateToken env) (map verificationTokens.token (db_verificationTokens s))
  /\ email_taken (varchar 255 (reg_email data)) (db_users s) = false
  /\ varchar 255 (reg_email data) <> None
  /\ exists name,
      varchar_null 255 (or_null (reg_displayName data)) = Some name
      /\ db_users s1
         = (db_users s
            ++ [users.mk (next_uuid s) (varchar 255 (reg_email data)) false
                  (Some (hashPassword (reg_password data) (salt env)))
                  name None None active (now env) (now env) None])%list
      /\ db_verificationTokens s1
         = (db_verificationTokens s
            ++ [verificationTokens.mk (S (next_uuid s)) (next_uuid s) (generateToken env)
                  email_verification (now env + one_day) None (now env)])%list
      /\ db_refreshTokens s1 = db_refreshTokens s
      /\ db_oauthProviders s1 = db_oauthProviders s
      /\ rr_user r = mkRegisteredUser (next_uuid s) (varchar 255 (reg_email data))
                                      name false.
Proof.
  unfold register.
  destruct (valid (validatePasswordStrength (reg_password data))) eqn:Hv;
    cbn [negb]; [|discriminate].
  intros H. apply bind_inr in H as (o & s0 & H0 & H).
  apply select_first_inr in H0 as [-> ->].
  destruct (find _ (db_users s)) eqn:Hfind; [discriminate|].
  apply bind_inr in H as (nu & s2 & Hins & H).
  apply bind_inr in H as ([] & s3 & Htok & H).
  apply bind_inr in H as ([] & s4 & Hmail & H).
  apply ret_inr in Hmail as [_ ->].
  apply bind_inr in H as ([] & s5 & Hlog & H).
  apply ret_inr in H as [-> ->].
  apply insert_users_stored in Hins as (mail & name & Hm & Hn & Hfree & -> & ->).
  cbn [nu_email nu_displayName nu_emailVerified nu_passwordHash nu_avatarUrl
       nu_status] in *.
  assert (Hsome : varchar 255 (reg_email data) <> None).
  { unfold varchar_null in Hm. destruct (varchar 255 (reg_email data));
      [discriminate|discriminate Hm]. }
  apply varchar_null_Some in Hm. subst mail.
  apply insert_verificationTokens_inv in Htok as (_ & Hfresh & ->).
  apply logAuditEvent_inr in Hlog as (Eu & Eo & Er & Ev).
  split; [reflexivity|]. split; [apply find_none_email, Hfind|].
  split; [exact Hfresh|]. split; [exact Hfree|]. split; [exact Hsome|].
  exists name. rewrite Eu, Ev, Er, Eo. repeat split. exact Hn.
Qed.






End Registration.

Lemma find_by_token s r tok ty t :
  wf s -> In r (db_verificationTokens s) ->
  verificationTokens.token r = tok ->
  verificationTokens.tokenType r = ty ->
  t < verificationTokens.expiresAt r ->
  find (one_time_lookup tok ty t) (db_verificationTokens s) = Some r.
Proof.
  intros Hwf Hr Htok Hty Hexp.
  destruct (find_first (one_time_lookup tok ty t) (db_verificationTokens s) r Hr)
    as (y & Hy).
  - unfold one_time_lookup. rewrite Htok, Hty, String.eqb_refl.
    replace (TokenType_eqb ty ty) with true
      by (symmetry; apply TokenType_eqb_eq; reflexivity).
    apply Z.ltb_lt in Hexp. rewrite Hexp. reflexivity.
  - rewrite Hy. f_equal. apply find_In in Hy as [Hy Hp].
    unfold one_time_lookup in Hp.
    apply andb_prop in Hp as [Hp _]. apply andb_prop in Hp as [Hp _].
    apply String.eqb_eq in Hp.
    apply (NoDup_key_eq verificationTokens.token (db_verificationTokens s));
      [apply (wf_verification_tokens _ Hwf)|exact Hy|exact Hr|congruence].
Qed.

Lemma verifyEmail_live tok env s vt :
  find (one_time_lookup tok email_verification (now env)) (db_verificationTokens s)
  = Some vt ->
  verificationTokens.usedAt vt = None ->
  exists s2,
    verifyEmail tok env s = (inr (mkAck "Email verified successfully"), s2)
    /\ db_users s2
       = map (fun u => if Nat.eqb (users.id u) (verificationTokens.userId vt)
                       then set_emailVerified true u else u) (db_users s)
    /\ db_verificationTokens s2
       = map (fun r => if Nat.eqb (verificationTokens.id r) (verificationTokens.id vt)
                       then mark_used (now env) r else r) (db_verificationTokens s)
    /\ db_refreshTokens s2 = db_refreshTokens s
    /\ db_oauthProviders s2 = db_oauthProviders s.
Proof.
  intros Hfind Hused. unfold verifyEmail.
  unfold bind at 1, select_first at 1. rewrite Hfind, Hused.
  unfold bind at 1, update_users at 1.
  unfold bind at 1, update_verificationTokens at 1.
  unfold bind at 1. unfold bind at 1, select_first at 1.
  cbv beta iota.
  match goal with
  | |- context [find ?p ?l] => destruct (find p l) as [owner|]
  end.
  - unfold sendWelcomeEmail. unfold bind at 1, ret at 1. cbv beta iota.
    match goal with
    | |- context [logAuditEvent ?a ?b ?c] =>
      destruct (logAuditEvent_run a b c) as (s' & Hlog & Eu & Eo & Er & Ev)
    end.
    rewrite Hlog. unfold ret. eexists. split; [reflexivity|].
    rewrite Eu, Eo, Er, Ev. repeat split.
  - unfold ret. eexists. split; [reflexivity|]. repeat split.
Qed.

Section RegistrationTheorems.
Context {P : Platform}.


(** X4.  The token that [register] mails verifies the address: presented to
    [verifyEmail] within 24 hours of a registration that returned, it is
    accepted, the new account, which holds the address as its column
    stored it, becomes verified, and still no session exists for it. *)
Theorem registration_token_verifies data d env s r s1 env' :
  wf s ->
  register data d env s = (inr r, s1) ->
  now env' < now env + one_day ->
  exists s2,
    verifyEmail (generateToken env) env' s1
    = (inr (mkAck "Email verified successfully"), s2)
    /\ (exists u, In u (db_users s2)
                  /\ users.id u = ru_id (rr_user r)
                  /\ users.email u = varchar 255 (reg_email data)
                  /\ users.emailVerified u = true)
    /\ db_refreshTokens s2 = db_refreshTokens s.
Proof.
  intros Hwf Hreg Hnow.
  assert (Hwf1 : wf s1).
  { pose proof (register_wf data d env s Hwf) as H. rewrite Hreg in H. exact H. }
  apply register_inr in Hreg
    as (_ & _ & _ & _ & _ & name & _ & Eu & Ev & Er & _ & Eview).
  set (vt := verificationTokens.mk (S (next_uuid s)) (next_uuid s) (generateToken env)
               email_verification (now env + one_day) None (now env)) in *.
  assert (Hin : In vt (db_verificationTokens s1)).
  { rewrite Ev. apply in_or_app. right. left. reflexivity. }
  destruct (verifyEmail_live (generateToken env) env' s1 vt)
    as (s2 & Hrun & Eu2 & _ & Er2 & _).
  { apply find_by_token; auto. }
  { reflexivity. }
  exists s2. split; [exact Hrun|]. split; [|congruence].
  set (acct := users.mk (next_uuid s) (varchar 255 (reg_email data)) false
                 (Some (hashPassword (reg_password data) (salt env)))
                 name None None active (now env) (now env) None) in *.
  exists (set_emailVerified true acct). rewrite Eu2, Eview. repeat split.
  assert (Hacct : In acct (db_users s1)).
  { rewrite Eu. apply in_or_app. right. left. reflexivity. }
  pose proof (update_where_In (set_emailVerified true)
                (fun u => Nat.eqb (users.id u) (verificationTokens.userId vt))
                (db_users s1) acct Hacct) as H.
  cbn [verificationTokens.userId vt users.id acct] in H.
  rewrite Nat.eqb_refl in H. exact H.
Qed.


End RegistrationTheorems.

(** ** Ending a session *)

Lemma revoked_stays_rejected `{Platform} t s row :
  wf s ->
  In row (db_refreshTokens s) ->
  refreshTokens.tokenHash row = hashToken t ->
  refreshTokens.revokedAt row <> None ->
  forall trace d env,
    refreshAccessToken t d env (run trace s)
    = (inl (UnauthorizedError "Invalid or expired refresh token"), run trace s).
Proof.
  intros Hwf Hin Hh Hrev trace d env.
  destruct (ev_refresh _ _ (run_evolves trace s) row Hin)
    as (row' & Hin' & _ & _ & Hh' & _ & Hrev').
  apply refresh_rejects_revoked with (r := row').
  - apply run_wf, Hwf.
  - exact Hin'.
  - congruence.
  - auto.
Qed.

Section Logout.
Context {P : Platform}.

Lemma logout_run t u d env s :
  exists s1,
    logout t u d env s = (inr (mkAck "Logged out successfully"), s1)
    /\ db_refreshTokens s1
       = map (fun r => if String.eqb (refreshTokens.tokenHash r) (hashToken t)
                          && Nat.eqb (refreshTokens.userId r) u
                       then revoke (now env) r else r) (db_refreshTokens s)
    /\ db_users s1 = db_users s
    /\ db_oauthProviders s1 = db_oauthProviders s
    /\ db_verificationTokens s1 = db_verificationTokens s.
Proof.
  unfold logout. cbv zeta. unfold bind at 1, update_refreshTokens at 1.
  match goal with
  | |- context [bind (logAuditEvent ?a ?b) _ ?c] =>
    destruct (logAuditEvent_run a b c) as (s' & Hlog & Eu & Eo & Er & Ev)
  end.
  erewrite bind_run; [|exact Hlog]. eexists. split; [reflexivity|].
  rewrite Eu, Eo, Er, Ev. repeat split.
Qed.

(** X6.  [logout] ends the session it names: when the presented token's row
    belongs to the caller, the call returns, and from then on, whatever
    calls follow, that token is refused by [refreshAccessToken]. *)
Theorem logout_ends_the_session t u d env s row :
  wf s ->
  In row (db_refreshTokens s) ->
  refreshTokens.tokenHash row = hashToken t ->
  refreshTokens.userId row = u ->
  exists s1,
    logout t u d env s = (inr (mkAck "Logged out successfully"), s1)
    /\ forall trace d' env',
        refreshAccessToken t d' env' (run trace s1)
        = (inl (UnauthorizedError "Invalid or expired refresh token"), run trace s1).
Proof.
  intros Hwf Hin Hh Hu.
  destruct (logout_run t u d env s) as (s1 & Hrun & Er & _).
  exists s1. split; [exact Hrun|].
  assert (Hwf1 : wf s1).
  { pose proof (logout_wf t u d env s Hwf) as H. rewrite Hrun in H. exact H. }
  apply revoked_stays_rejected with (row := revoke (now env) row); auto.
  - rewrite Er.
    pose proof (update_where_In (revoke (now env))
                  (fun r => String.eqb (refreshTokens.tokenHash r) (hashToken t)
                            && Nat.eqb (refreshTokens.userId r) u)
                  (db_refreshTokens s) row Hin) as H.
    cbv beta in H. rewrite Hh, Hu, String.eqb_refl, Nat.eqb_refl in H. exact H.
  - discriminate.
Qed.

(** X7.  [logout] is scoped to the caller and silent: when no stored row has
    both the presented token's hash and the caller's id (an unknown token,
    or another account's token), it still answers 'Logged out successfully'
    and every refresh-token row is left exactly as it was. *)
Theorem logout_of_a_foreign_token_changes_nothing t u d env s :
  (forall row, In row (db_refreshTokens s) ->
               refreshTokens.tokenHash row = hashToken t ->
               refreshTokens.userId row <> u) ->
  fst (logout t u d env s) = inr (mkAck "Logged out successfully")
  /\ db_refreshTokens (snd (logout t u d env s)) = db_refreshTokens s
  /\ db_users (snd (logout t u d env s)) = db_users s.
Proof.
  intros Hnone.
  destruct (logout_run t u d env s) as (s1 & Hrun & Er & Eu & _).
  rewrite Hrun. cbn [fst snd]. split; [reflexivity|]. split; [|exact Eu].
  rewrite Er. clear Er Hrun.
  induction (db_refreshTokens s) as [|x l IH]; [reflexivity|].
  cbn [map]. rewrite IH by (intros row Hr; apply Hnone; right; exact Hr).
  destruct (String.eqb _ _) eqn:Eh; cbn [andb]; [|reflexivity].
  destruct (Nat.eqb _ _) eqn:En; [|reflexivity].
  apply String.eqb_eq in Eh. apply Nat.eqb_eq in En.
  exfalso. exact (Hnone x (or_introl eq_refl) Eh En).
Qed.

End Logout.

(** ** Unlinking an external identity *)

Lemma find_none_key p pid l :
  ~ In (p, pid) (oauth_keys l) -> find (oauth_key_eqb p pid) l = None.
Proof.
  intros Hn. destruct (find _ l) as [y|] eqn:Hf; [|reflexivity].
  apply find_In in Hf as [Hy Hk]. apply oauth_key_eqb_true in Hk as [<- <-].
  exfalso. apply Hn. unfold oauth_keys.
  apply (in_map (fun r => (oauthProviders.provider r, oauthProviders.providerUserId r))).
  exact Hy.
Qed.

Lemma unlink_not_linked p pid d env s :
  ~ In (p, pid) (oauth_keys (db_oauthProviders s)) ->
  removeOAuthProvider p pid d env s = (inr false, s).
Proof.
  intros Hn. unfold removeOAuthProvider, bind, select_first.
  rewrite (find_none_key _ _ _ Hn). reflexivity.
Qed.

Lemma unlink_linked p pid d env s link :
  wf s ->
  In link (db_oauthProviders s) ->
  oauthProviders.provider link = p ->
  oauthProviders.providerUserId link = pid ->
  exists s1,
    removeOAuthProvider p pid d env s = (inr true, s1)
    /\ ~ In (p, pid) (oauth_keys (db_oauthProviders s1))
    /\ (forall r, In r (db_oauthProviders s1) <->
                  In r (db_oauthProviders s) /\ r <> link)
    /\ db_users s1 = db_users s
    /\ db_refreshTokens s1 = db_refreshTokens s.
Proof.
  intros Hwf Hin Hp Hpid.
  pose proof (find_by_oauth_key s link Hwf Hin) as Hf. rewrite Hp, Hpid in Hf.
  unfold removeOAuthProvider at 1.
  unfold bind at 1, select_first at 1. rewrite Hf.
  unfold bind at 1, delete_oauthProviders at 1.
  match goal with
  | |- context [bind (logAuditEvent ?a ?b) _ ?c] =>
    destruct (logAuditEvent_run a b c) as (s' & Hlog & Eu & Eo & Er & Ev)
  end.
  erewrite bind_run; [|exact Hlog]. exists s'.
  cbn [db_users db_oauthProviders db_refreshTokens with_oauthProviders] in Eu, Eo, Er.
  assert (Hrows : forall r, In r (db_oauthProviders s') <->
                            In r (db_oauthProviders s) /\ r <> link).
  { intros r. rewrite Eo, filter_In. split.
    - intros [Hr Hne]. split; [exact Hr|]. intros ->.
      rewrite Nat.eqb_refl in Hne. discriminate.
    - intros [Hr Hne]. split; [exact Hr|].
      destruct (Nat.eqb _ _) eqn:En; [|reflexivity].
      apply Nat.eqb_eq in En. exfalso. apply Hne.
      apply (NoDup_key_eq oauthProviders.id (db_oauthProviders s));
        auto using wf_oauth_ids. }
  assert (Hgone : ~ In (p, pid) (oauth_keys (db_oauthProviders s'))).
  { unfold oauth_keys. intros Hk. apply in_map_iff in Hk as (r & Hkey & Hr).
    apply Hrows in Hr as [Hr Hne]. apply Hne.
    apply (NoDup_key_eq
             (fun r => (oauthProviders.provider r, oauthProviders.providerUserId r))
             (db_oauthProviders s)); auto.
    - apply (wf_oauth_keys _ Hwf).
    - rewrite Hkey, Hp, Hpid. reflexivity. }
  split; [reflexivity|]. split; [exact Hgone|]. split; [exact Hrows|].
  split; [exact Eu|exact Er].
Qed.

(** X8.  The outcomes of [removeOAuthProvider].  For an identity that is not
    linked it returns false and changes nothing.  For a linked one it
    returns true and deletes that link row only: every other link, every
    account and every session stays, and a second call returns false. *)
Theorem unlink_outcomes p pid d env s :
  wf s ->
  (~ In (p, pid) (oauth_keys (db_oauthProviders s)) ->
   removeOAuthProvider p pid d env s = (inr false, s))
  /\ (forall link,
         In link (db_oauthProviders s) ->
         oauthProviders.provider link = p ->
         oauthProviders.providerUserId link = pid ->
         exists s1,
           removeOAuthProvider p pid d env s = (inr true, s1)
           /\ ~ In (p, pid) (oauth_keys (db_oauthProviders s1))
           /\ (forall r, In r (db_oauthProviders s1) <->
                         In r (db_oauthProviders s) /\ r <> link)
           /\ db_users s1 = db_users s
           /\ db_refreshTokens s1 = db_refreshTokens s
           /\ forall d' env', removeOAuthProvider p pid d' env' s1 = (inr false, s1)).
Proof.
  intros Hwf. split; [apply unlink_not_linked|].
  intros link Hin Hp Hpid.
  destruct (unlink_linked p pid d env s link Hwf Hin Hp Hpid)
    as (s1 & Hrun & Hgone & Hrows & Eu & Er).
  exists s1. split; [exact Hrun|]. split; [exact Hgone|]. split; [exact Hrows|].
  split; [exact Eu|]. split; [exact Er|].
  intros d' env'. apply unlink_not_linked, Hgone.
Qed.

(** ** Signing in, and what can be done with the session *)

Lemma find_update_where {A} (p : A -> bool) (set : A -> A) (w : A -> bool) l :
  (forall x, p (set x) = p x) ->
  find p (map (fun r => if w r then set r else r) l)
  = option_map (fun r => if w r then set r else r) (find p l).
Proof.
  intros Hp. induction l as [|x l IH]; [reflexivity|]. cbn [map find].
  replace (p (if w x then set x else x)) with (p x)
    by (destruct (w x); [symmetry; apply Hp|reflexivity]).
  destruct (p x); [reflexivity|exact IH].
Qed.

Section Sessions.
Context {P : Platform}.

Lemma login_inr data d env s r s1 :
  login data d env s = (inr r, s1) ->
  exists user h,
    find (fun u => eq_col (users.email u) (login_email data)) (db_users s) = Some user
    /\ users.passwordHash user = Some h
    /\ falsy (Some h) = false
    /\ verifyPassword (login_password data) h = true
    /\ users.status user = active
    /\ r = mkLoginResult
             (user_view user)
             (generateAccessToken (users.id user) (users.email user) (now env))
             (generateRefreshToken (users.id user) (users.email user) (now env))
             "Bearer" (accessTokenExpiry config_jwt)
    /\ ~ In (hashToken (generateRefreshToken (users.id user) (users.email user)
                                             (now env)))
            (map refreshTokens.tokenHash (db_refreshTokens s))
    /\ db_users s1
       = map (fun x => if Nat.eqb (users.id x) (users.id user)
                       then set_lastLoginAt (now env) x else x) (db_users s)
    /\ db_refreshTokens s1
       = (db_refreshTokens s
          ++ [refreshTokens.mk (next_uuid s) (users.id user)
                (hashToken (generateRefreshToken (users.id user) (users.email user)
                                                 (now env)))
                (d_or_empty d) (now env + thirty_days) (now env) None])%list
    /\ db_oauthProviders s1 = db_oauthProviders s
    /\ db_verificationTokens s1 = db_verificationTokens s.
Proof.
  unfold login. intros H.
  apply bind_inr in H as (o & s0 & H0 & H).
  apply select_first_inr in H0 as [-> ->].
  destruct (find _ (db_users s)) as [user|] eqn:Hfind.
  2:{ apply bind_inr in H as (? & ? & _ & H). discriminate. }
  destruct (users.passwordHash user) as [h|] eqn:Hh.
  2:{ cbn [falsy] in H. apply bind_inr in H as (? & ? & _ & H). discriminate. }
  destruct (falsy (Some h)) eqn:Hfalsy.
  { apply bind_inr in H as (? & ? & _ & H). discriminate. }
  destruct (verifyPassword (login_password data) h) eqn:Hpw; cbn [negb] in H.
  2:{ apply bind_inr in H as (? & ? & _ & H). discriminate. }
  destruct (UserStatus_eqb (users.status user) active) eqn:Hst; cbn [negb] in H;
    [|discriminate].
  apply UserStatus_eqb_eq in Hst.
  cbv zeta in H.
  apply bind_inr in H as ([] & s2 & Hins & H).
  apply bind_inr in H as ([] & s3 & Hupd & H).
  apply bind_inr in H as ([] & s4 & Hlog & H).
  apply ret_inr in H as [-> ->].
  apply insert_refreshTokens_inr in Hins as (_ & Hfresh & ->).
  unfold update_users in Hupd. inversion Hupd; subst s3; clear Hupd.
  apply logAuditEvent_inr in Hlog as (Eu & Eo & Er & Ev).
  exists user, h. split; [reflexivity|]. split; [exact Hh|]. split; [exact Hfalsy|].
  split; [exact Hpw|]. split; [exact Hst|]. split; [reflexivity|].
  split; [exact Hfresh|]. rewrite Eu, Eo, Er, Ev. repeat split.
Qed.

Lemma refresh_accepts t d env s row u :
  wf s ->
  In row (db_refreshTokens s) ->
  refreshTokens.tokenHash row = hashToken t ->
  refreshTokens.revokedAt row = None ->
  now env < refreshTokens.expiresAt row ->
  In u (db_users s) ->
  users.id u = refreshTokens.userId row ->
  users.status u = active ->
  ~ In (hashToken (generateRefreshToken (users.id u) (users.email u) (now env)))
       (map refreshTokens.tokenHash (db_refreshTokens s)) ->
  exists s1,
    refreshAccessToken t d env s
    = (inr (mkRefreshResult
              (generateAccessToken (users.id u) (users.email u) (now env))
              (generateRefreshToken (users.id u) (users.email u) (now env))
              "Bearer" (accessTokenExpiry config_jwt)), s1).
Proof.
  intros Hwf Hin Hh Hrev Hexp Hu Hid Hst Hfresh.
  pose proof (find_by_refresh_hash s row _ _ Hwf Hin Hh Hexp) as Hf.
  pose proof (find_by_user_id s u Hwf Hu) as Hfu. rewrite Hid in Hfu.
  unfold refreshAccessToken. cbv zeta.
  erewrite bind_run; [|unfold select_first; rewrite Hf; reflexivity].
  cbv beta iota. rewrite Hrev.
  erewrite bind_run; [|unfold select_first; rewrite Hfu; reflexivity].
  cbv beta iota. rewrite Hst. cbn [UserStatus_eqb negb].
  erewrite bind_run; [|reflexivity].
  erewrite bind_run.
  2:{ apply insert_refreshTokens_fresh.
      - unfold has_user. cbn [db_users with_refreshTokens].
        apply (proj2 (has_user_In (users.id u) s)). eauto.
      - cbn [db_refreshTokens with_refreshTokens].
        rewrite map_update_where by reflexivity. exact Hfresh. }
  match goal with
  | |- context [bind (logAuditEvent ?a ?b) _ ?c] =>
    destruct (logAuditEvent_run a b c) as (s' & Hlog & _)
  end.
  erewrite bind_run; [|exact Hlog]. eexists. reflexivity.
Qed.

Lemma refresh_collides t d env s row u :
  wf s ->
  In row (db_refreshTokens s) ->
  refreshTokens.tokenHash row = hashToken t ->
  refreshTokens.revokedAt row = None ->
  now env < refreshTokens.expiresAt row ->
  In u (db_users s) ->
  users.id u = refreshTokens.userId row ->
  users.status u = active ->
  In (hashToken (generateRefreshToken (users.id u) (users.email u) (now env)))
     (map refreshTokens.tokenHash (db_refreshTokens s)) ->
  refreshAccessToken t d env s
  = (inl token_hash_taken,
     with_refreshTokens
       (map (fun r => if Nat.eqb (refreshTokens.id r) (refreshTokens.id row)
                      then revoke (now env) r else r) (db_refreshTokens s)) s).
Proof.
  intros Hwf Hin Hh Hrev Hexp Hu Hid Hst Htaken.
  pose proof (find_by_refresh_hash s row _ _ Hwf Hin Hh Hexp) as Hf.
  pose proof (find_by_user_id s u Hwf Hu) as Hfu. rewrite Hid in Hfu.
  unfold refreshAccessToken. cbv zeta.
  erewrite bind_run; [|unfold select_first; rewrite Hf; reflexivity].
  cbv beta iota. rewrite Hrev.
  erewrite bind_run; [|unfold select_first; rewrite Hfu; reflexivity].
  cbv beta iota. rewrite Hst. cbn [UserStatus_eqb negb].
  erewrite bind_run; [|reflexivity].
  unfold bind at 1. rewrite insert_refreshTokens_taken; [reflexivity| |].
  - unfold has_user. cbn [db_users with_refreshTokens].
    apply (proj2 (has_user_In (users.id u) s)). eauto.
  - cbn [db_refreshTokens with_refreshTokens].
    rewrite map_update_where by reflexivity. exact Htaken.
Qed.

(** X9.  The refresh token that [login] returns opens the session it was
    issued for: presented within 30 days, and unless the token signed in
    exchange is already stored, [refreshAccessToken] accepts it and returns
    a pair signed for the same account. *)
Theorem login_session_refreshes data d env s r s1 d' env' :
  wf s ->
  login data d env s = (inr r, s1) ->
  now env' < now env + thirty_days ->
  ~ In (hashToken (generateRefreshToken (uv_id (lr_user r)) (uv_email (lr_user r))
                                        (now env')))
       (map refreshTokens.tokenHash (db_refreshTokens s1)) ->
  exists s2,
    refreshAccessToken (lr_refreshToken r) d' env' s1
    = (inr (mkRefreshResult
              (generateAccessToken (uv_id (lr_user r)) (uv_email (lr_user r)) (now env'))
              (generateRefreshToken (uv_id (lr_user r)) (uv_email (lr_user r)) (now env'))
              "Bearer" (accessTokenExpiry config_jwt)), s2).
Proof.
  intros Hwf Hlogin Hnow Hfresh.
  assert (Hwf1 : wf s1).
  { pose proof (login_wf data d env s Hwf) as H. rewrite Hlogin in H. exact H. }
  apply login_inr in Hlogin
    as (user & h & Hfind & _ & _ & _ & Hst & -> & _ & Eu & Er & _).
  cbn [lr_user lr_refreshToken user_view uv_id uv_email] in *.
  apply find_In in Hfind as [Huser _].
  set (row := refreshTokens.mk (next_uuid s) (users.id user)
                (hashToken (generateRefreshToken (users.id user) (users.email user)
                                                 (now env)))
                (d_or_empty d) (now env + thirty_days) (now env) None) in *.
  apply (refresh_accepts _ d' env' s1 row (set_lastLoginAt (now env) user)); auto.
  - rewrite Er. apply in_or_app. right. left. reflexivity.
  - rewrite Eu. apply touched_user_In, Huser.
Qed.

(** X10.  Two sign-ins of one account at the same clock reading cannot both
    succeed: the second signs the same refresh token, the unique index on
    its hash rejects the row, and the call fails with that database error
    (not an authentication error), leaving the store as it was. *)
Theorem second_login_at_the_same_instant_fails data d env s r s1 d' env' :
  login data d env s = (inr r, s1) ->
  now env' = now env ->
  login data d' env' s1 = (inl token_hash_taken, s1).
Proof.
  intros Hlogin Hnow.
  apply login_inr in Hlogin
    as (user & h & Hfind & Hh & Hfalsy & Hpw & Hst & _ & _ & Eu & Er & _).
  unfold login. unfold bind at 1, select_first at 1.
  rewrite Eu, find_update_where by reflexivity. rewrite Hfind. cbn [option_map].
  rewrite Nat.eqb_refl.
  cbn [set_lastLoginAt users.passwordHash users.status users.id users.email].
  rewrite Hh, Hfalsy.
  rewrite Hpw, Hst. cbn [negb UserStatus_eqb]. cbv zeta.
  unfold bind at 1. rewrite Hnow. rewrite insert_refreshTokens_taken; [reflexivity| |].
  - apply has_user_In. exists (set_lastLoginAt (now env) user).
    split; [|reflexivity]. rewrite Eu. apply touched_user_In.
    apply find_In in Hfind. apply Hfind.
  - rewrite Er, map_app. apply in_or_app. right. left. reflexivity.
Qed.

(** X11.  Rotation is not all-or-nothing.  When a live refresh token is
    presented at an instant for which the token signed in exchange is
    already stored, the call fails with the unique-index error after the
    presented row has been revoked: no new pair is returned, and the
    presented token is refused from then on. *)
Theorem failed_rotation_still_revokes t d env s row u :
  wf s ->
  In row (db_refreshTokens s) ->
  refreshTokens.tokenHash row = hashToken t ->
  refreshTokens.revokedAt row = None ->
  now env < refreshTokens.expiresAt row ->
  In u (db_users s) ->
  users.id u = refreshTokens.userId row ->
  users.status u = active ->
  In (hashToken (generateRefreshToken (users.id u) (users.email u) (now env)))
     (map refreshTokens.tokenHash (db_refreshTokens s)) ->
  exists s1,
    refreshAccessToken t d env s = (inl token_hash_taken, s1)
    /\ In (revoke (now env) row) (db_refreshTokens s1)
    /\ forall trace d' env',
        refreshAccessToken t d' env' (run trace s1)
        = (inl (UnauthorizedError "Invalid or expired refresh token"), run trace s1).
Proof.
  intros Hwf Hin Hh Hrev Hexp Hu Hid Hst Htaken.
  pose proof (refresh_collides t d env s row u Hwf Hin Hh Hrev Hexp Hu Hid Hst Htaken)
    as Hrun.
  eexists. split; [exact Hrun|].
  assert (Hrow : In (revoke (now env) row)
                    (map (fun r => if Nat.eqb (refreshTokens.id r) (refreshTokens.id row)
                                   then revoke (now env) r else r)
                         (db_refreshTokens s))).
  { pose proof (update_where_In (revoke (now env))
                  (fun r => Nat.eqb (refreshTokens.id r) (refreshTokens.id row))
                  (db_refreshTokens s) row Hin) as H.
    cbv beta in H. rewrite Nat.eqb_refl in H. exact H. }
  split; [exact Hrow|].
  apply revoked_stays_rejected with (row := revoke (now env) row).
  - pose proof (refreshAccessToken_wf t d env s Hwf) as H. rewrite Hrun in H. exact H.
  - exact Hrow.
  - exact Hh.
  - discriminate.
Qed.

End Sessions.

(** ** Resetting a password *)

Lemma requestPasswordReset_run e d env s u :
  find (fun x => eq_col (users.email x) e) (db_users s) = Some u ->
  ~ In (generateToken env) (map verificationTokens.token (db_verificationTokens s)) ->
  exists s1,
    requestPasswordReset e d env s = (inr generic_reset_ack, s1)
    /\ db_users s1 = db_users s
    /\ db_refreshTokens s1 = db_refreshTokens s
    /\ db_verificationTokens s1
       = (db_verificationTokens s
          ++ [verificationTokens.mk (next_uuid s) (users.id u) (generateToken env)
                password_reset (now env + one_hour) None (now env)])%list.
Proof.
  intros Hfind Hfresh. unfold requestPasswordReset.
  unfold bind at 1, select_first at 1. rewrite Hfind. cbv zeta.
  erewrite bind_run.
  2:{ apply insert_verificationTokens_fresh; [|exact Hfresh].
      apply has_user_In. exists u. apply find_In in Hfind.
      split; [apply Hfind|reflexivity]. }
  unfold sendPasswordResetEmail. unfold bind at 1, ret at 1.
  match goal with
  | |- context [bind (logAuditEvent ?a ?b) _ ?c] =>
    destruct (logAuditEvent_run a b c) as (s' & Hlog & Eu & Eo & Er & Ev)
  end.
  erewrite bind_run; [|exact Hlog]. exists s'. split; [reflexivity|].
  rewrite Eu, Er, Ev. repeat split.
Qed.

Section Reset.
Context {P : Platform}.

Lemma resetPassword_live tok pw d env s rt :
  valid (validatePasswordStrength pw) = true ->
  find (one_time_lookup tok password_reset (now env)) (db_verificationTokens s)
  = Some rt ->
  verificationTokens.usedAt rt = None ->
  exists s2,
    resetPassword tok pw d env s = (inr (mkAck "Password reset successfully"), s2)
    /\ db_users s2
       = map (fun u => if Nat.eqb (users.id u) (verificationTokens.userId rt)
                       then set_passwordHash (hashPassword pw (salt env)) u else u)
             (db_users s).
Proof.
  intros Hv Hfind Hused. unfold resetPassword. rewrite Hv. cbn [negb].
  unfold bind at 1, select_first at 1. rewrite Hfind, Hused. cbv zeta.
  unfold bind at 1, update_users at 1.
  unfold bind at 1, update_verificationTokens at 1.
  unfold bind at 1, update_refreshTokens at 1.
  match goal with
  | |- context [bind (logAuditEvent ?a ?b) _ ?c] =>
    destruct (logAuditEvent_run a b c) as (s' & Hlog & Eu & _)
  end.
  erewrite bind_run; [|exact Hlog]. exists s'. split; [reflexivity|].
  rewrite Eu. reflexivity.
Qed.

Lemma resetPassword_rejects_weak tok pw d env s :
  valid (validatePasswordStrength pw) = false ->
  resetPassword tok pw d env s
  = (inl (ValidationError
            (String.concat ", " (errors (validatePasswordStrength pw)))), s).
Proof. intros Hv. unfold resetPassword. rewrite Hv. reflexivity. Qed.

Lemma login_denied_wrong_password data d env s u h :
  find (fun x => eq_col (users.email x) (login_email data)) (db_users s) = Some u ->
  users.passwordHash u = Some h ->
  verifyPassword (login_password data) h = false ->
  fst (login data d env s) = inl (UnauthorizedError "Invalid email or password").
Proof.
  intros Hfind Hh Hpw. unfold login.
  unfold bind at 1, select_first at 1. rewrite Hfind, Hh.
  destruct (falsy (Some h)).
  - match goal with
    | |- context [bind (logAuditEvent ?a ?b) _ ?c] =>
      destruct (logAuditEvent_run a b c) as (s' & Hlog & _)
    end.
    erewrite bind_run; [|exact Hlog]. reflexivity.
  - rewrite Hpw. cbn [negb].
    match goal with
    | |- context [bind (logAuditEvent ?a ?b) _ ?c] =>
      destruct (logAuditEvent_run a b c) as (s' & Hlog & _)
    end.
    erewrite bind_run; [|exact Hlog]. reflexivity.
Qed.

(** X12.  The password-reset round trip.  For an address that has an
    account, [requestPasswordReset] returns (unless the drawn token is
    already stored) and the token it mails is accepted by [resetPassword]
    within the hour; the account then holds the hash of the new password,
    and a sign-in with a password that does not verify against that hash is
    refused.  A new password that fails the strength check is refused
    before the token is looked at, so the token stays usable. *)
Theorem password_reset_round_trip e d env s u pw d' env' :
  wf s ->
  In u (db_users s) ->
  users.email u = Some e ->
  ~ In (generateToken env) (map verificationTokens.token (db_verificationTokens s)) ->
  valid (validatePasswordStrength pw) = true ->
  now env' < now env + one_hour ->
  exists s1 s2,
    requestPasswordReset e d env s = (inr generic_reset_ack, s1)
    /\ (forall weak,
           valid (validatePasswordStrength weak) = false ->
           snd (resetPassword (generateToken env) weak d' env' s1) = s1)
    /\ resetPassword (generateToken env) pw d' env' s1
       = (inr (mkAck "Password reset successfully"), s2)
    /\ (exists u2, In u2 (db_users s2)
                   /\ users.id u2 = users.id u
                   /\ users.email u2 = Some e
                   /\ users.passwordHash u2 = Some (hashPassword pw (salt env')))
    /\ (forall data d2 env2,
           login_email data = e ->
           verifyPassword (login_password data) (hashPassword pw (salt env')) = false ->
           fst (login data d2 env2 s2)
           = inl (UnauthorizedError "Invalid email or password")).
Proof.
  intros Hwf Hu He Hfresh Hv Hnow.
  pose proof (find_by_email (db_users s) u e (wf_user_emails _ Hwf) Hu He) as Hfind.
  destruct (requestPasswordReset_run e d env s u Hfind Hfresh)
    as (s1 & Hreq & Eu1 & _ & Ev1).
  assert (Hwf1 : wf s1).
  { pose proof (requestPasswordReset_wf e d env s Hwf) as H.
    rewrite Hreq in H. exact H. }
  set (rt := verificationTokens.mk (next_uuid s) (users.id u) (generateToken env)
               password_reset (now env + one_hour) None (now env)) in *.
  assert (Hrt : In rt (db_verificationTokens s1)).
  { rewrite Ev1. apply in_or_app. right. left. reflexivity. }
  destruct (resetPassword_live (generateToken env) pw d' env' s1 rt Hv)
    as (s2 & Hreset & Eu2).
  { apply find_by_token; auto. }
  { reflexivity. }
  assert (Hwf2 : wf s2).
  { pose proof (resetPassword_wf (generateToken env) pw d' env' s1 Hwf1) as H.
    rewrite Hreset in H. exact H. }
  set (u2 := set_passwordHash (hashPassword pw (salt env')) u).
  assert (Hu2 : In u2 (db_users s2)).
  { rewrite Eu2, Eu1.
    pose proof (update_where_In (set_passwordHash (hashPassword pw (salt env')))
                  (fun x => Nat.eqb (users.id x) (verificationTokens.userId rt))
                  (db_users s) u Hu) as H.
    cbn [verificationTokens.userId rt] in H. rewrite Nat.eqb_refl in H. exact H. }
  exists s1, s2. split; [exact Hreq|]. split.
  { intros weak Hweak. rewrite resetPassword_rejects_weak by exact Hweak. reflexivity. }
  split; [exact Hreset|]. split.
  { exists u2. split; [exact Hu2|]. repeat split. exact He. }
  intros data d2 env2 Hmail Hpw.
  apply login_denied_wrong_password
    with (u := u2) (h := hashPassword pw (salt env')); [|reflexivity|exact Hpw].
  rewrite Hmail. apply find_by_email; [apply (wf_user_emails _ Hwf2)|exact Hu2|exact He].
Qed.

End Reset.

(** ** One-time tokens are typed *)

Lemma lookup_other_type s row ty t :
  wf s -> In row (db_verificationTokens s) ->
  verificationTokens.tokenType row <> ty ->
  find (one_time_lookup (verificationTokens.token row) ty t) (db_verificationTokens s)
  = None.
Proof.
  intros Hwf Hin Hty.
  destruct (find _ (db_verificationTokens s)) as [y|] eqn:Hf; [|reflexivity].
  apply find_In in Hf as [Hy Hp]. unfold one_time_lookup in Hp.
  apply andb_prop in Hp as [Hp _]. apply andb_prop in Hp as [Hk Hp].
  apply String.eqb_eq in Hk. apply TokenType_eqb_eq in Hp.
  assert (y = row) as ->.
  { apply (NoDup_key_eq verificationTokens.token (db_verificationTokens s));
      auto using wf_verification_tokens. }
  contradiction.
Qed.

(** X13.  One-time tokens are not interchangeable: a stored password-reset
    token is never accepted by [verifyEmail], and a stored
    email-verification token is never accepted by [resetPassword], at any
    instant and after any calls; the refusal is a ValidationError and
    leaves the store as it is. *)
Theorem one_time_tokens_are_typed `{Platform} s row trace :
  wf s ->
  In row (db_verificationTokens s) ->
  (verificationTokens.tokenType row = password_reset ->
   forall env,
     verifyEmail (verificationTokens.token row) env (run trace s)
     = (inl (ValidationError "Invalid or expired verification token"), run trace s))
  /\ (verificationTokens.tokenType row = email_verification ->
      forall pw d env,
      exists m,
        resetPassword (verificationTokens.token row) pw d env (run trace s)
        = (inl (ValidationError m), run trace s)).
Proof.
  intros Hwf Hin.
  destruct (ev_verification _ _ (run_evolves trace s) row Hin)
    as (row' & Hin' & _ & _ & Htok & Hty & _).
  assert (Hwf' : wf (run trace s)) by (apply run_wf, Hwf).
  rewrite <- Htok. split.
  - intros Hrow env. unfold verifyEmail, bind, select_first.
    rewrite lookup_other_type; [reflexivity|exact Hwf'|exact Hin'|].
    rewrite Hty, Hrow. discriminate.
  - intros Hrow pw d env. unfold resetPassword.
    destruct (valid (validatePasswordStrength pw)); cbn [negb];
      [|eexists; reflexivity].
    unfold bind, select_first.
    rewrite lookup_other_type; [eexists; reflexivity|exact Hwf'|exact Hin'|].
    rewrite Hty, Hrow. discriminate.
Qed.

(** ** The errors a call can end with *)





Lemma find_email_none_free e l :
  find (fun x => eq_col (users.email x) e) l = None -> email_taken (Some e) l = false.
Proof. intros Hf. apply email_taken_false, find_none_email, Hf. Qed.

Section Failures.
Context {P : Platform}.

















End Failures.

(** ** The [authenticate] middleware *)

Lemma prefix_drop p h :
  String.prefix p h = true -> h = p ++ drop_chars (String.length p) h.
Proof.
  revert h. induction p as [|c p IH]; intros h H; [reflexivity|].
  destruct h as [|c' h]; [discriminate|]. cbn in H.
  destruct (Ascii.ascii_dec c c') as [->|]; [|discriminate].
  cbn. f_equal. apply IH, H.
Qed.

Lemma prefix_app p t : String.prefix p (p ++ t) = true.
Proof.
  induction p as [|c p IH]; [destruct t; reflexivity|].
  cbn. destruct (Ascii.ascii_dec c c); [exact IH|congruence].
Qed.

Lemma drop_app p t : drop_chars (String.length p) (p ++ t) = t.
Proof. induction p as [|c p IH]; [reflexivity|exact IH]. Qed.

Section Middleware.
Context {P : Platform}.

Lemma authenticate_bearer token t s :
  authenticate (Some ("Bearer " ++ token)) t s
  = pass_unauthorized
      (match verifyToken token t with
       | inl e => throw e
       | inr payload =>
         match jp_type payload with
         | refresh => throw (UnauthorizedError "Invalid token type")
         | access =>
           found <- select_first db_users
                      (fun u => Nat.eqb (users.id u) (jp_userId payload)) ;;
           match found with
           | None => throw (UnauthorizedError "User not found")
           | Some user =>
             if negb (UserStatus_eqb (users.status user) active)
             then throw (UnauthorizedError "Account is not active")
             else ret (select_auth_user user)
           end
         end
       end) s.
Proof.
  unfold authenticate. rewrite prefix_app. cbn [negb].
  change 7%nat with (String.length "Bearer "). rewrite drop_app. reflexivity.
Qed.

Lemma authenticate_read_only h t s : snd (authenticate h t s) = s.
Proof.
  unfold authenticate, pass_unauthorized.
  destruct h as [h|]; [|reflexivity].
  destruct (negb _); [reflexivity|].
  destruct (verifyToken _ t) as [e|payload].
  { unfold throw. destruct (instanceof e class_UnauthorizedError); reflexivity. }
  destruct (jp_type payload); [|reflexivity].
  unfold bind, select_first. destruct (find _ _) as [user|]; [|reflexivity].
  destruct (negb _); reflexivity.
Qed.

Lemma never_instanceof_UnauthorizedError e :
  instanceof e class_UnauthorizedError = false.
Proof. destruct e; reflexivity. Qed.

Lemma authenticate_error h t s e :
  fst (authenticate h t s) = inl e -> e = UnauthorizedError "Invalid token".
Proof.
  unfold authenticate, pass_unauthorized.
  destruct (_ s) as [[e'|a] s']; [|discriminate].
  rewrite never_instanceof_UnauthorizedError. cbn [fst].
  intros H. inversion H. reflexivity.
Qed.

Lemma authenticate_inr h t s u :
  fst (authenticate h t s) = inr u ->
  exists token payload row,
    h = Some ("Bearer " ++ token)
    /\ verifyToken token t = inr payload
    /\ jp_type payload = access
    /\ In row (db_users s)
    /\ users.id row = jp_userId payload
    /\ users.status row = active
    /\ u = select_auth_user row.
Proof.
  unfold authenticate, pass_unauthorized.
  destruct h as [h|]; [|discriminate].
  destruct (String.prefix "Bearer " h) eqn:Hp; cbn [negb]; [|discriminate].
  apply prefix_drop in Hp. change (String.length "Bearer ") with 7%nat in Hp.
  destruct (verifyToken _ t) as [e|payload] eqn:Hv.
  { unfold throw. destruct (instanceof e class_UnauthorizedError); discriminate. }
  destruct (jp_type payload) eqn:Hty; [|discriminate].
  unfold bind, select_first. destruct (find _ _) as [row|] eqn:Hf; [|discriminate].
  destruct (UserStatus_eqb _ _) eqn:Hst; cbn [negb]; [|discriminate].
  unfold ret. cbn [fst]. intros H. inversion H; subst u.
  apply find_In in Hf as [Hrow Hid]. apply Nat.eqb_eq in Hid.
  apply UserStatus_eqb_eq in Hst.
  exists (drop_chars 7 h), payload, row. repeat split; auto. f_equal. exact Hp.
Qed.

Lemma authenticate_accepts token t s payload row :
  wf s ->
  verifyToken token t = inr payload ->
  jp_type payload = access ->
  In row (db_users s) ->
  users.id row = jp_userId payload ->
  users.status row = active ->
  authenticate (Some ("Bearer " ++ token)) t s = (inr (select_auth_user row), s).
Proof.
  intros Hwf Hv Hty Hrow Hid Hst.
  rewrite authenticate_bearer. unfold pass_unauthorized.
  rewrite Hv, Hty. unfold bind, select_first.
  rewrite <- Hid, (find_by_user_id s row Hwf Hrow), Hst. reflexivity.
Qed.

(** X17.  Who [authenticate] lets in, and what a refusal looks like.  In a
    store that satisfies the schema's constraints, it attaches an account
    exactly when the header is 'Bearer ' followed by a token that
    [verifyToken] accepts as an access token of an existing, active account,
    and what it attaches are that account's columns.  The store is only
    read.  Every refusal, whatever its cause (no header, an expired token, a
    refresh token, an unknown or inactive account), reaches the caller as
    [UnauthorizedError 'Invalid token']: the errors thrown inside are not
    instances of [UnauthorizedError], so the [catch] replaces them. *)
Theorem authenticate_accepts_exactly h t s :
  wf s ->
  snd (authenticate h t s) = s
  /\ (forall e, fst (authenticate h t s) = inl e ->
                e = UnauthorizedError "Invalid token")
  /\ (forall u,
         fst (authenticate h t s) = inr u <->
         exists token payload row,
           h = Some ("Bearer " ++ token)
           /\ verifyToken token t = inr payload
           /\ jp_type payload = access
           /\ In row (db_users s)
           /\ users.id row = jp_userId payload
           /\ users.status row = active
           /\ u = select_auth_user row)
  /\ (forall token payload,
         verifyToken token t = inr payload ->
         jp_type payload = refresh ->
         fst (authenticate (Some ("Bearer " ++ token)) t s)
         = inl (UnauthorizedError "Invalid token")).
Proof.
  intros Hwf. split; [apply authenticate_read_only|].
  split; [apply authenticate_error|]. split.
  - intros u. split; [apply authenticate_inr|].
    intros (token & payload & row & -> & Hv & Hty & Hrow & Hid & Hst & ->).
    rewrite (authenticate_accepts token t s payload row); auto.
  - intros token payload Hv Hty. rewrite authenticate_bearer.
    unfold pass_unauthorized. rewrite Hv, Hty. reflexivity.
Qed.

(** X18.  [optionalAuth] and [authenticate] agree: [optionalAuth] never
    fails, and it attaches an account exactly when [authenticate] would
    have let the request through, the same account. *)
Theorem optionalAuth_agrees_with_authenticate h t s :
  optionalAuth h t s
  = (inr match fst (authenticate h t s) with
         | inr u => Some u
         | inl _ => None
         end, s).
Proof.
  unfold optionalAuth, authenticate, pass_unauthorized.
  destruct h as [h|]; [|reflexivity].
  destruct (negb _); [reflexivity|].
  destruct (verifyToken _ t) as [e|payload].
  { unfold throw, ret. destruct (instanceof e class_UnauthorizedError); reflexivity. }
  destruct (jp_type payload); [|reflexivity].
  unfold bind, select_first. destruct (find _ _) as [user|]; [|reflexivity].
  destruct (UserStatus_eqb _ _); reflexivity.
Qed.

(** X19.  An access token outlives the session it came with.  After a
    [login] that returned, and whatever calls follow (a logout, a password
    reset, a refresh), [authenticate] lets the returned access token through
    for as long as [verifyToken] accepts it: [authenticate] consults no
    session row. *)
Theorem access_token_outlives_the_session data d env s r s1 trace t payload :
  wf s ->
  login data d env s = (inr r, s1) ->
  verifyToken (lr_accessToken r) t = inr payload ->
  jp_userId payload = uv_id (lr_user r) ->
  jp_type payload = access ->
  exists u,
    authenticate (Some ("Bearer " ++ lr_accessToken r)) t (run trace s1)
    = (inr u, run trace s1)
    /\ au_id u = uv_id (lr_user r)
    /\ au_email u = uv_email (lr_user r)
    /\ au_status u = active.
Proof.
  intros Hwf Hlogin Hv Hid Hty.
  assert (Hwf1 : wf s1).
  { pose proof (login_wf data d env s Hwf) as H. rewrite Hlogin in H. exact H. }
  apply login_inr in Hlogin
    as (user & h & Hfind & _ & _ & _ & Hst & -> & _ & Eu & _).
  cbn [lr_user lr_accessToken user_view uv_id uv_email] in *.
  apply find_In in Hfind as [Huser _].
  assert (Hin1 : In (set_lastLoginAt (now env) user) (db_users s1)).
  { rewrite Eu. apply touched_user_In, Huser. }
  destruct (run_persist trace s1 _ Hin1) as (u' & Hu' & Eid & Email & Est & _).
  cbn [set_lastLoginAt users.id users.email users.status] in Eid, Email, Est.
  exists (select_auth_user u'). split.
  - apply authenticate_accepts with (payload := payload); auto.
    + apply run_wf, Hwf1.
    + congruence.
    + congruence.
  - cbn [select_auth_user au_id au_email au_status]. repeat split; congruence.
Qed.

End Middleware.

(** ** Start-up configuration *)

Lemma env_or_set v fallback : falsy v = false -> v = Some (env_or v fallback).
Proof. destruct v as [[|c x]|]; try discriminate. reflexivity. Qed.

(** X20.  What [validateConfig] enforces.  Outside production it accepts
    every environment.  In production it returns exactly when JWT_SECRET,
    DB_NAME, DB_USER and DB_PASSWORD are all set and non-empty and the
    secret has a [length] of at least 32, in UTF-16 code units as
    JavaScript counts it; the secret in use is then the one from the
    environment, not the built-in fallback. *)
Theorem validateConfig_guards_production e :
  (config_env e <> "production" -> validateConfig e = None)
  /\ (config_env e = "production" ->
      (validateConfig e = None <->
       (forall key, In key required_variables -> falsy (e key) = false)
       /\ (32 <= utf16_length (config_jwt_secret e))%nat))
  /\ (config_env e = "production" ->
      validateConfig e = None ->
      e "JWT_SECRET" = Some (config_jwt_secret e)).
Proof.
  assert (Hiff : config_env e = "production" ->
                 (validateConfig e = None <->
                  (forall key, In key required_variables -> falsy (e key) = false)
                  /\ (32 <= utf16_length (config_jwt_secret e))%nat)).
  { intros Hprod. unfold validateConfig. rewrite Hprod, String.eqb_refl.
    rewrite !andb_true_r. unfold required_variables. cbn [filter In].
    destruct (falsy (e "JWT_SECRET")) eqn:H1; cbn [length Nat.ltb Nat.leb];
      [split; [intros Hx; discriminate Hx|intros [H _]; specialize (H _ (or_introl eq_refl));
                            congruence]|].
    destruct (falsy (e "DB_NAME")) eqn:H2; cbn [length Nat.ltb Nat.leb];
      [split; [intros Hx; discriminate Hx|intros [H _];
                            specialize (H _ (or_intror (or_introl eq_refl)));
                            congruence]|].
    destruct (falsy (e "DB_USER")) eqn:H3; cbn [length Nat.ltb Nat.leb];
      [split; [intros Hx; discriminate Hx|intros [H _];
                            specialize (H _ (or_intror (or_intror (or_introl eq_refl))));
                            congruence]|].
    destruct (falsy (e "DB_PASSWORD")) eqn:H4; cbn [length Nat.ltb Nat.leb];
      [split; [intros Hx; discriminate Hx|intros [H _];
                            specialize (H _ (or_intror (or_intror (or_intror
                                                (or_introl eq_refl)))));
                            congruence]|].
    destruct (Nat.leb_spec (utf16_length (config_jwt_secret e)) 31) as [Hlt|Hge].
    - split; [intros Hx; discriminate Hx|intros [_ H]; lia].
    - split; [|reflexivity]. intros _. split; [|lia].
      intros key [<-|[<-|[<-|[<-|[]]]]]; assumption. }
  split; [|split; [exact Hiff|]].
  - intros Hdev. unfold validateConfig.
    destruct (String.eqb_spec (config_env e) "production") as [Hp|_]; [contradiction|].
    rewrite !andb_false_r. reflexivity.
  - intros Hprod Hok. apply (Hiff Hprod) in Hok as [Hset _].
    unfold config_jwt_secret. apply env_or_set, Hset. left. reflexivity.
Qed.

(** ** Hexadecimal tokens *)

Lemma toHex_length bytes :
  String.length (Crypto.toHex bytes) = (2 * List.length bytes)%nat.
Proof.
  induction bytes as [|b l IH]; [reflexivity|].
  cbn [Crypto.toHex String.length List.length]. rewrite IH. lia.
Qed.

Lemma substring_length s : forall n,
  (n <= String.length s)%nat -> String.length (String.substring 0 n s) = n.
Proof.
  induction s as [|c s IH]; intros [|n] H; cbn in *; try reflexivity; try lia.
  f_equal. apply IH. lia.
Qed.

Lemma hex_digit_hex n :
  In (Crypto.hex_digit n) (list_ascii_of_string "0123456789abcdef").
Proof.
  destruct n as [|p]; [cbn; auto|].
  do 4 (try destruct p as [p|p|]); cbn; auto 20.
Qed.

Lemma toHex_hex bytes :
  Forall (fun c => In c (list_ascii_of_string "0123456789abcdef"))
         (list_ascii_of_string (Crypto.toHex bytes)).
Proof.
  induction bytes as [|b l IH]; [constructor|].
  cbn [Crypto.toHex list_ascii_of_string].
  constructor; [apply hex_digit_hex|]. constructor; [apply hex_digit_hex|exact IH].
Qed.

Lemma substring_Forall (Q : ascii -> Prop) s : forall n,
  Forall Q (list_ascii_of_string s) ->
  Forall Q (list_ascii_of_string (String.substring 0 n s)).
Proof.
  induction s as [|c s IH]; intros [|n] H; cbn; try constructor.
  - inversion H; assumption.
  - apply IH. inversion H; assumption.
Qed.

(** X21.  The hexadecimal generators return what was asked for: given that
    [crypto.randomBytes(n)] returns [n] bytes, [generateToken(n)] has [2n]
    characters, [generateSecureRandom(n)] has exactly [n] (also for odd
    [n]), and all of them are digits or the letters a to f. *)
Theorem hex_generators_have_the_requested_length randomBytes n :
  (forall k, List.length (randomBytes k) = k) ->
  String.length (Crypto.generateToken randomBytes n) = (2 * n)%nat
  /\ String.length (Crypto.generateSecureRandom randomBytes n) = n
  /\ Forall (fun c => In c (list_ascii_of_string "0123456789abcdef"))
            (list_ascii_of_string (Crypto.generateToken randomBytes n))
  /\ Forall (fun c => In c (list_ascii_of_string "0123456789abcdef"))
            (list_ascii_of_string (Crypto.generateSecureRandom randomBytes n)).
Proof.
  intros Hlen. unfold Crypto.generateToken, Crypto.generateSecureRandom.
  split; [rewrite toHex_length, Hlen; reflexivity|].
  split.
  - apply substring_length. rewrite toHex_length, Hlen.
    pose proof (Nat.div_mod_eq (n + 1) 2) as Hd.
    pose proof (Nat.mod_upper_bound (n + 1) 2) as Hm. lia.
  - split; [apply toHex_hex|apply substring_Forall, toHex_hex].
Qed.

(** ** Accounts created by an external sign-in *)

Section PasswordlessAccounts.
Context {P : Platform}.

Lemma login_denied_no_password data d env s u :
  find (fun x => eq_col (users.email x) (login_email data)) (db_users s) = Some u ->
  falsy (users.passwordHash u) = true ->
  fst (login data d env s) = inl (UnauthorizedError "Invalid email or password").
Proof.
  intros Hfind Hh. unfold login.
  unfold bind at 1, select_first at 1. rewrite Hfind, Hh.
  match goal with
  | |- context [bind (logAuditEvent ?a ?b) _ ?c] =>
    destruct (logAuditEvent_run a b c) as (s' & Hlog & _)
  end.
  erewrite bind_run; [|exact Hlog]. reflexivity.
Qed.

Lemma login_denied_unknown data d env s :
  find (fun x => eq_col (users.email x) (login_email data)) (db_users s) = None ->
  fst (login data d env s) = inl (UnauthorizedError "Invalid email or password").
Proof.
  intros Hfind. unfold login.
  unfold bind at 1, select_first at 1. rewrite Hfind.
  match goal with
  | |- context [bind (logAuditEvent ?a ?b) _ ?c] =>
    destruct (logAuditEvent_run a b c) as (s' & Hlog & _)
  end.
  erewrite bind_run; [|exact Hlog]. reflexivity.
Qed.

Lemma no_new_password_refl s : no_new_password s s.
Proof. intros x Hx. right. exists x. auto. Qed.

Lemma no_new_password_trans a b c :
  no_new_password a b -> no_new_password b c -> no_new_password a c.
Proof.
  intros Hab Hbc x Hx.
  destruct (Hbc x Hx) as [Hn | (y & Hy & He & Hh)]; [left; exact Hn|].
  destruct (Hab y Hy) as [Hn | (z & Hz & He' & Hh')].
  - left. congruence.
  - right. exists z. repeat split; congruence.
Qed.

Lemma no_new_password_same s s' : db_users s' = db_users s -> no_new_password s s'.
Proof. intros E x Hx. right. exists x. rewrite <- E. auto. Qed.

Lemma update_users_no_new_password set w :
  (forall r, users.email (set r) = users.email r) ->
  (forall r, users.passwordHash (set r) = users.passwordHash r) ->
  respects no_new_password (update_users set w).
Proof.
  intros He Hh s x Hx. cbn [update_users snd with_users db_users] in Hx.
  apply In_update_where in Hx. destruct Hx as (r & Hr & [[_ ->]|[_ ->]]).
  - right. exists r. rewrite He, Hh. auto.
  - right. exists r. auto.
Qed.

Lemma insert_users_no_new_password v t :
  nu_passwordHash v = None -> respects no_new_password (insert_users v t).
Proof.
  intros Hv s. unfold insert_users. columns; try apply no_new_password_refl.
  destruct (email_taken _ _); [apply no_new_password_refl|].
  intros x Hx. cbn [snd bump_uuid with_users db_users] in Hx.
  apply in_app_iff in Hx. destruct Hx as [Hx|[<-|[]]].
  - right. exists x. auto.
  - left. exact Hv.
Qed.

Ltac no_new_password_prim :=
  first
    [ apply update_users_no_new_password; intros ?; reflexivity
    | apply insert_users_no_new_password; reflexivity
    | let s := fresh "s" in
      intros s; apply no_new_password_same;
      unfold update_oauthProviders, insert_oauthProviders, insert_refreshTokens,
        logAuditEvent;
      columns;
      repeat match goal with
             | |- context [if ?b then _ else _] => destruct b
             end;
      reflexivity ].

Lemma handleOAuthCallback_no_new_password p d env :
  respects no_new_password (handleOAuthCallback p d env).
Proof.
  unfold handleOAuthCallback, resolveOAuthUser, issueOAuthSession.
  walk no_new_password_refl no_new_password_trans no_new_password_prim.
Qed.

(** X22.  An account created by an external sign-in has no password: right
    after a callback for an unseen identity with an unseen address, whether
    the callback returned or not, [login] with that address is refused with
    'Invalid email or password' for every password. *)
Theorem oauth_created_account_has_no_password_login p d env s data d' env' :
  wf s ->
  find (oauth_key_eqb (op_provider p) (op_providerId p)) (db_oauthProviders s) = None ->
  (forall x, In x (db_users s) -> users.email x <> Some (op_email p)) ->
  login_email data = op_email p ->
  fst (login data d' env' (snd (handleOAuthCallback p d env s)))
  = inl (UnauthorizedError "Invalid email or password").
Proof.
  intros Hwf Hkey Hnone Hmail.
  pose proof (handleOAuthCallback_no_new_password p d env s) as Hkeep.
  destruct (find (fun x => eq_col (users.email x) (login_email data))
                 (db_users (snd (handleOAuthCallback p d env s))))
    as [u|] eqn:Hfind.
  - apply login_denied_no_password with (u := u); [exact Hfind|].
    apply find_In in Hfind as [Hin He]. apply eq_col_true in He.
    destruct (Hkeep u Hin) as [-> | (y & Hy & Hey & _)]; [reflexivity|].
    exfalso. apply (Hnone y Hy). congruence.
  - apply login_denied_unknown. exact Hfind.
Qed.

End PasswordlessAccounts.

(** ** Callers of the service: Firebase sign-in, Facebook deauthorization *)

Section Firebase.
Context {P : Platform}.
Variable verifyFirebaseToken : string -> Error + option DecodedIdToken.

Lemma firebase_refusals_keep_the_store failed enabled idToken d env s st m s' :
  firebaseAuth verifyFirebaseToken failed enabled idToken d env s
  = (inr (fb_refused st m), s') ->
  s' = s.
Proof.
  unfold firebaseAuth.
  destruct failed; [intros H; inversion H; reflexivity|].
  destruct enabled; cbn [negb]; [|intros H; inversion H; reflexivity].
  destruct (verifyFirebaseToken idToken) as [e|[tok|]];
    [discriminate| |intros H; inversion H; reflexivity].
  cbv zeta.
  destruct (mapFirebaseProvider _) as [p|].
  - intros H. apply bind_inr in H as (r & s1 & _ & H). inversion H.
  - destruct (negb _); [intros H; inversion H; reflexivity|].
    destruct (fb_email tok) as [[|c e]|]; try (intros H; inversion H; reflexivity).
    intros H. apply bind_inr in H as (r & s1 & _ & H). inversion H.
Qed.

Lemma firebase_session_inv failed enabled idToken d env s r s' :
  firebaseAuth verifyFirebaseToken failed enabled idToken d env s
  = (inr (fb_session r), s') ->
  exists tok p,
    failed = false /\ enabled = true
    /\ verifyFirebaseToken idToken = inr (Some tok)
    /\ (mapFirebaseProvider (fb_sign_in_provider tok) = Some p
        \/ (mapFirebaseProvider (fb_sign_in_provider tok) = None
            /\ fb_sign_in_provider tok = "password"
            /\ falsy (fb_email tok) = false
            /\ p = google))
    /\ exists profile,
        op_provider profile = p
        /\ op_providerId profile = fb_uid tok
        /\ op_accessToken profile = idToken
        /\ handleOAuthCallback profile (Some d) env s = (inr r, s').
Proof.
  unfold firebaseAuth.
  destruct failed; [discriminate|].
  destruct enabled; cbn [negb]; [|discriminate].
  destruct (verifyFirebaseToken idToken) as [e|[tok|]]; [discriminate| |discriminate].
  cbv zeta.
  destruct (mapFirebaseProvider _) as [p|] eqn:Hmap.
  - intros H. apply bind_inr in H as (r' & s1 & Hcb & H).
    apply ret_inr in H as [H ->]. inversion H; subst r'.
    exists tok, p. split; [reflexivity|]. split; [reflexivity|].
    split; [reflexivity|]. split; [left; exact Hmap|].
    eexists. split; [|split; [|split; [|exact Hcb]]]; reflexivity.
  - destruct (String.eqb _ "password") eqn:Hpw; cbn [negb]; [|discriminate].
    apply String.eqb_eq in Hpw.
    destruct (fb_email tok) as [[|c e]|] eqn:Hmail; try discriminate.
    intros H. apply bind_inr in H as (r' & s1 & Hcb & H).
    apply ret_inr in H as [H ->]. inversion H; subst r'.
    exists tok, google. split; [reflexivity|]. split; [reflexivity|].
    split; [reflexivity|].
    split; [right; split; [exact Hmap|]; split; [exact Hpw|];
            split; [rewrite Hmail; reflexivity|reflexivity]|].
    eexists. split; [|split; [|split; [|exact Hcb]]]; reflexivity.
Qed.

(** X23.  What [firebaseAuth] does to the store.  A reply that is not a
    session (validation failure, feature off, rejected token, unsupported
    provider, password sign-in without an address) leaves the store
    untouched.  A session is only issued for a token that Firebase verified,
    to the account that the link row for the token's uid points at: the
    row's subject id is the uid whenever the uid fits the column (at most
    255 characters), and in any case the uid or what the column stored of
    it; the link's provider is the mapped one, and [google] for a Firebase
    email/password sign-in. *)
Theorem firebase_sessions_follow_the_verified_uid failed enabled idToken d env s
        reply s' :
  wf s ->
  firebaseAuth verifyFirebaseToken failed enabled idToken d env s = (inr reply, s') ->
  match reply with
  | fb_refused _ _ => s' = s
  | fb_session r =>
    exists tok link,
      failed = false /\ enabled = true
      /\ verifyFirebaseToken idToken = inr (Some tok)
      /\ In link (db_oauthProviders s')
      /\ (fits 255 (fb_uid tok) -> oauthProviders.providerUserId link = fb_uid tok)
      /\ (oauthProviders.providerUserId link = fb_uid tok
          \/ varchar 255 (fb_uid tok) = Some (oauthProviders.providerUserId link))
      /\ oauthProviders.provider link
         = match mapFirebaseProvider (fb_sign_in_provider tok) with
           | Some p => p
           | None => google
           end
      /\ (mapFirebaseProvider (fb_sign_in_provider tok) = None ->
          fb_sign_in_provider tok = "password" /\ falsy (fb_email tok) = false)
      /\ oauthProviders.userId link = uv_id (or_user r)
      /\ exists u, In u (db_users s') /\ users.id u = uv_id (or_user r)
  end.
Proof.
  intros Hwf Hrun. destruct reply as [st m|r].
  - eapply firebase_refusals_keep_the_store, Hrun.
  - apply firebase_session_inv in Hrun
      as (tok & p & -> & -> & Hv & Hp & profile & Hprov & Huid & _ & Hcb).
    destruct (callback_leaves_link_stored profile (Some d) env s r s' Hwf Hcb)
      as (link & u & Hlink & Hlp & Hlid & Hluser & Hu & Hview).
    rewrite Huid in Hlid.
    exists tok, link.
    split; [reflexivity|]. split; [reflexivity|]. split; [exact Hv|].
    split; [exact Hlink|]. split.
    { intros Hfits. destruct Hlid as [Hlid|Hlid]; [exact Hlid|].
      rewrite (varchar_fits _ _ Hfits) in Hlid. congruence. }
    split; [exact Hlid|]. split.
    { rewrite Hlp, Hprov. destruct Hp as [->|(-> & _ & _ & ->)]; reflexivity. }
    split.
    { intros Hnone. destruct Hp as [Hp|(_ & Hpw & Hm & _)]; [congruence|].
      split; assumption. }
    split.
    { rewrite Hluser, Hview. reflexivity. }
    exists u. split; [exact Hu|]. rewrite Hview. reflexivity.
Qed.

End Firebase.

Lemma unlink_effects p pid d env s :
  wf s ->
  let out := removeOAuthProvider p pid d env s in
  (exists b, fst out = inr b)
  /\ ~ In (p, pid) (oauth_keys (db_oauthProviders (snd out)))
  /\ (forall r, In r (db_oauthProviders (snd out)) <->
                In r (db_oauthProviders s)
                /\ ~ (oauthProviders.provider r = p
                      /\ oauthProviders.providerUserId r = pid))
  /\ db_users (snd out) = db_users s
  /\ db_refreshTokens (snd out) = db_refreshTokens s.
Proof.
  intros Hwf. cbv zeta.
  destruct (find (oauth_key_eqb p pid) (db_oauthProviders s)) as [link|] eqn:Hf.
  - apply find_In in Hf as [Hin Hk]. apply oauth_key_eqb_true in Hk as [Hp Hpid].
    destruct (unlink_linked p pid d env s link Hwf Hin Hp Hpid)
      as (s1 & Hrun & Hgone & Hrows & Eu & Er).
    rewrite Hrun. cbn [fst snd]. split; [eauto|]. split; [exact Hgone|].
    split; [|split; assumption].
    intros r. rewrite Hrows. split.
    + intros [Hr Hne]. split; [exact Hr|]. intros [Hrp Hrpid]. apply Hne.
      apply (NoDup_key_eq
               (fun r => (oauthProviders.provider r, oauthProviders.providerUserId r))
               (db_oauthProviders s)); auto.
      * apply (wf_oauth_keys _ Hwf).
      * congruence.
    + intros [Hr Hne]. split; [exact Hr|]. intros ->. apply Hne. auto.
  - assert (Hn : ~ In (p, pid) (oauth_keys (db_oauthProviders s))).
    { unfold oauth_keys. intros Hk. apply in_map_iff in Hk as (r & Hkey & Hr).
      pose proof (find_none _ _ Hf r Hr) as Hno. cbv beta in Hno.
      inversion Hkey; subst.
      assert (oauth_key_eqb (oauthProviders.provider r)
                            (oauthProviders.providerUserId r) r = true)
        by (apply oauth_key_eqb_true; auto).
      congruence. }
    rewrite (unlink_not_linked p pid d env s Hn). cbn [fst snd].
    split; [eauto|]. split; [exact Hn|]. split; [|split; reflexivity].
    intros r. split; [|tauto]. intros Hr. split; [exact Hr|].
    intros [Hrp Hrpid]. apply Hn. unfold oauth_keys.
    apply in_map_iff. exists r. split; [congruence|exact Hr].
Qed.

(** X24.  [facebookDeauthorize] acts only on a signed request.  It confirms
    exactly when the request splits at its dots into a non-empty signature
    and a non-empty payload, the signature is the expected one for that
    payload, and the payload names a user id.  A confirmed request removes
    the Facebook link of that id and nothing else: every other link, every
    account and every session stays.  Every other request is refused and
    leaves the store untouched; the call itself never throws. *)
Theorem facebook_deauthorize_needs_a_valid_signature
        parse_payload expected_signature signed_request ip_ ua env s :
  wf s ->
  let out := facebookDeauthorize parse_payload expected_signature signed_request
                                 ip_ ua env s in
  (forall e, fst out <> inl e)
  /\ (forall st m, fst out = inr (deauthorize_refused st m) -> snd out = s)
  /\ (forall uid,
         fst out = inr (deauthorize_confirmed uid) <->
         exists raw sig payload rest,
           signed_request = Some raw
           /\ split_on "." raw = sig :: payload :: rest
           /\ sig <> "" /\ payload <> ""
           /\ sig = expected_signature payload
           /\ parse_payload payload = Some (payload_value (Some uid))
           /\ uid <> "")
  /\ (forall uid,
         fst out = inr (deauthorize_confirmed uid) ->
         ~ In (facebook, uid) (oauth_keys (db_oauthProviders (snd out)))
         /\ (forall r, In r (db_oauthProviders (snd out)) <->
                       In r (db_oauthProviders s)
                       /\ ~ (oauthProviders.provider r = facebook
                             /\ oauthProviders.providerUserId r = uid))
         /\ db_users (snd out) = db_users s
         /\ db_refreshTokens (snd out) = db_refreshTokens s).
Proof.
  intros Hwf. cbv zeta. unfold facebookDeauthorize.
  (* a refusal: nothing is thrown, the store is kept, and the conditions of
     a confirmation must fail *)
  assert (Hrefused :
            forall st m (out : (Error + DeauthorizeReply) * Store),
              out = (inr (deauthorize_refused st m), s) ->
              (forall uid,
                  ~ exists raw sig payload rest,
                      signed_request = Some raw
                      /\ split_on "." raw = sig :: payload :: rest
                      /\ sig <> "" /\ payload <> ""
                      /\ sig = expected_signature payload
                      /\ parse_payload payload = Some (payload_value (Some uid))
                      /\ uid <> "") ->
              (forall e, fst out <> inl e)
              /\ (forall st m, fst out = inr (deauthorize_refused st m) -> snd out = s)
              /\ (forall uid,
                     fst out = inr (deauthorize_confirmed uid) <->
                     exists raw sig payload rest,
                       signed_request = Some raw
                       /\ split_on "." raw = sig :: payload :: rest
                       /\ sig <> "" /\ payload <> ""
                       /\ sig = expected_signature payload
                       /\ parse_payload payload = Some (payload_value (Some uid))
                       /\ uid <> "")
              /\ (forall uid,
                     fst out = inr (deauthorize_confirmed uid) ->
                     ~ In (facebook, uid) (oauth_keys (db_oauthProviders (snd out)))
                     /\ (forall r, In r (db_oauthProviders (snd out)) <->
                                   In r (db_oauthProviders s)
                                   /\ ~ (oauthProviders.provider r = facebook
                                         /\ oauthProviders.providerUserId r = uid))
                     /\ db_users (snd out) = db_users s
                     /\ db_refreshTokens (snd out) = db_refreshTokens s)).
  { intros st m out -> Hno. cbn [fst snd].
    split; [discriminate|]. split; [reflexivity|]. split; [|discriminate].
    intros uid. split; [discriminate|]. intros H. destruct (Hno uid H). }
  destruct signed_request as [[|c raw]|].
  - eapply Hrefused; [reflexivity|].
    intros uid (raw & sig & payload & rest & Hsr & Hsp & _).
    inversion Hsr; subst raw. discriminate Hsp.
  - cbv zeta.
    destruct (split_on "." (String c raw)) as [|sig [|payload rest]] eqn:Hsplit;
      cbn [nth_error].
    + eapply Hrefused; [reflexivity|].
      intros uid (raw' & sig' & payload' & rest' & Hsr & Hsp & _).
      inversion Hsr; subst raw'. congruence.
    + eapply Hrefused; [reflexivity|].
      intros uid (raw' & sig' & payload' & rest' & Hsr & Hsp & _).
      inversion Hsr; subst raw'. congruence.
    + destruct (falsy (Some sig) || falsy (Some payload)) eqn:Hempty.
      { eapply Hrefused; [reflexivity|].
        intros uid (raw' & sig' & payload' & rest' & Hsr & Hsp & Hs & Hp & _).
        inversion Hsr; subst raw'. rewrite Hsplit in Hsp. inversion Hsp; subst.
        destruct sig'; [congruence|]. destruct payload'; [congruence|].
        discriminate Hempty. }
      destruct (parse_payload payload) as [data|] eqn:Hparse.
      2:{ eapply Hrefused; [reflexivity|].
          intros uid (raw' & sig' & payload' & rest' & Hsr & Hsp & _ & _ & _ & Hpp & _).
          inversion Hsr; subst raw'. rewrite Hsplit in Hsp. inversion Hsp; subst.
          congruence. }
      destruct (String.eqb sig (expected_signature payload)) eqn:Hsig; cbn [negb].
      2:{ eapply Hrefused; [reflexivity|].
          intros uid (raw' & sig' & payload' & rest' & Hsr & Hsp & _ & _ & Hs & _).
          inversion Hsr; subst raw'. rewrite Hsplit in Hsp. inversion Hsp; subst.
          rewrite String.eqb_refl in Hsig. discriminate. }
      apply String.eqb_eq in Hsig.
      destruct data as [|[[|c' uid']|]].
      * eapply Hrefused; [reflexivity|].
        intros uid (raw' & sig' & payload' & rest' & Hsr & Hsp & _ & _ & _ & Hpp & _).
        inversion Hsr; subst raw'. rewrite Hsplit in Hsp. inversion Hsp; subst.
        congruence.
      * eapply Hrefused; [reflexivity|].
        intros uid (raw' & sig' & payload' & rest' & Hsr & Hsp & _ & _ & _ & Hpp & Hu).
        inversion Hsr; subst raw'. rewrite Hsplit in Hsp. inversion Hsp; subst.
        rewrite Hparse in Hpp. inversion Hpp. congruence.
      * clear Hrefused. set (uid := String c' uid').
        set (d := Some (mkDeviceInfo ua ip_ None None)).
        destruct (unlink_effects facebook uid d env s Hwf)
          as ((b & Hb) & Hgone & Hrows & Eu & Er).
        unfold bind, ret.
        destruct (removeOAuthProvider facebook uid d env s) as [[e|b'] s1] eqn:Hrun;
          cbn [fst snd] in *; [discriminate|].
        split; [discriminate|]. split; [discriminate|]. split.
        { intros uid0. split.
          - intros H. inversion H; subst uid0.
            exists (String c raw), sig, payload, rest.
            split; [reflexivity|]. split; [exact Hsplit|].
            destruct sig; [discriminate Hempty|].
            destruct payload; [discriminate Hempty|].
            repeat split; try discriminate; auto.
          - intros (raw' & sig' & payload' & rest' & Hsr & Hsp & _ & _ & _ & Hpp & _).
            inversion Hsr; subst raw'. rewrite Hsplit in Hsp. inversion Hsp; subst.
            rewrite Hparse in Hpp. inversion Hpp. reflexivity. }
        intros uid0 H. inversion H; subst uid0.
        split; [exact Hgone|]. split; [exact Hrows|]. split; assumption.
      * eapply Hrefused; [reflexivity|].
        intros uid (raw' & sig' & payload' & rest' & Hsr & Hsp & _ & _ & _ & Hpp & _).
        inversion Hsr; subst raw'. rewrite Hsplit in Hsp. inversion Hsp; subst.
        congruence.
  - eapply Hrefused; [reflexivity|].
    intros uid (raw & sig & payload & rest & Hsr & _). discriminate Hsr.
Qed.

(** ** Tokens handed to an account that is not active *)

Section InactiveAccounts.
Context {P : Platform}.

Lemma refresh_needs_active_owner t d env s uid :
  (forall row, In row (db_refreshTokens s) ->
               refreshTokens.tokenHash row = hashToken t ->
               refreshTokens.userId row = uid) ->
  (forall u, In u (db_users s) -> users.id u = uid -> users.status u <> active) ->
  exists m, refreshAccessToken t d env s = (inl (UnauthorizedError m), s).
Proof.
  intros Hrow Huser. unfold refreshAccessToken, bind, select_first.
  destruct (find _ (db_refreshTokens s)) as [token|] eqn:Hf;
    [|eexists; reflexivity].
  apply find_In in Hf as [Hin Hk]. apply andb_prop in Hk as [Hk _].
  apply String.eqb_eq in Hk. pose proof (Hrow token Hin Hk) as Hid.
  destruct (refreshTokens.revokedAt token); [eexists; reflexivity|].
  destruct (find _ (db_users s)) as [user|] eqn:Hu; [|eexists; reflexivity].
  apply find_In in Hu as [Hu Heq]. apply Nat.eqb_eq in Heq.
  destruct (UserStatus_eqb (users.status user) active) eqn:Hst; cbn [negb];
    [|eexists; reflexivity].
  apply UserStatus_eqb_eq in Hst. exfalso.
  apply (Huser user Hu); congruence.
Qed.

Lemma authenticate_needs_active_account token t s uid :
  (forall payload, verifyToken token t = inr payload -> jp_userId payload = uid) ->
  (forall u, In u (db_users s) -> users.id u = uid -> users.status u <> active) ->
  fst (authenticate (Some ("Bearer " ++ token)) t s)
  = inl (UnauthorizedError "Invalid token").
Proof.
  intros Hdec Huser.
  destruct (fst (authenticate (Some ("Bearer " ++ token)) t s)) as [e|a] eqn:Hrun.
  - f_equal. eapply authenticate_error, Hrun.
  - apply authenticate_inr in Hrun
      as (token' & payload & row & Hh & Hv & _ & Hrow & Hid & Hst & _).
    cbn [append] in Hh. inversion Hh as [Htok]. subst token'. exfalso. apply (Huser row Hrow); [|exact Hst].
    rewrite Hid. apply Hdec, Hv.
Qed.

(** X25.  What an account that is not active can do with the tokens
    [handleOAuthCallback] hands it: nothing.  The callback does not look at
    the status, but from then on, whatever calls follow,
    [refreshAccessToken] refuses the refresh token with an
    UnauthorizedError and changes nothing, and [authenticate] refuses the
    access token (given that the token decodes to the account it was signed
    for). *)
Theorem oauth_tokens_of_an_inactive_account_are_refused p d env s r s1 u trace :
  wf s ->
  handleOAuthCallback p d env s = (inr r, s1) ->
  In u (db_users s1) ->
  users.id u = uv_id (or_user r) ->
  users.status u <> active ->
  (forall d' env',
      exists m,
        refreshAccessToken (or_refreshToken r) d' env' (run trace s1)
        = (inl (UnauthorizedError m), run trace s1))
  /\ (forall t,
         (forall payload, verifyToken (or_accessToken r) t = inr payload ->
                          jp_userId payload = uv_id (or_user r)) ->
         fst (authenticate (Some ("Bearer " ++ or_accessToken r)) t (run trace s1))
         = inl (UnauthorizedError "Invalid token")).
Proof.
  intros Hwf Hcb Hu Hid Hst.
  assert (Hwf1 : wf s1).
  { pose proof (handleOAuthCallback_wf p d env s Hwf) as H. rewrite Hcb in H. exact H. }
  assert (Hwft : wf (run trace s1)) by (apply run_wf, Hwf1).
  (* the account stays what it is *)
  assert (Hstays : forall x, In x (db_users (run trace s1)) ->
                             users.id x = uv_id (or_user r) ->
                             users.status x <> active).
  { intros x Hx Hxid.
    destruct (run_persist trace s1 u Hu) as (u' & Hu' & Eid & _ & Est & _).
    assert (x = u') as ->.
    { apply (NoDup_key_eq users.id (db_users (run trace s1)));
        auto using wf_user_ids. congruence. }
    congruence. }
  split.
  - intros d' env'. apply refresh_needs_active_owner with (uid := uv_id (or_user r));
      [|exact Hstays].
    (* the row of the refresh token belongs to the account *)
    unfold handleOAuthCallback in Hcb.
    apply bind_inr in Hcb as ([user b] & s' & Hres & Hcb). cbn [fst snd] in Hcb.
    apply issue_session_inr in Hcb as (_ & _ & Hview & _ & Htok & _ & _ & Er).
    set (issued := refreshTokens.mk (next_uuid s') (users.id user)
                     (hashToken (generateRefreshToken (users.id user)
                                                      (users.email user) (now env)))
                     (d_or_empty d) (now env + thirty_days) (now env) None) in *.
    assert (Hissued : In issued (db_refreshTokens s1)).
    { rewrite Er. apply in_or_app. right. left. reflexivity. }
    destruct (ev_refresh _ _ (run_evolves trace s1) issued Hissued)
      as (row' & Hrow' & _ & Euid & Ehash & _).
    intros row Hrow Hh.
    assert (row = row') as ->.
    { apply (NoDup_key_eq refreshTokens.tokenHash (db_refreshTokens (run trace s1)));
        auto using wf_refresh_hashes.
      rewrite Hh, Ehash, Htok. reflexivity. }
    rewrite Euid, Hview. reflexivity.
  - intros t Hdec. apply authenticate_needs_active_account
      with (uid := uv_id (or_user r)); assumption.
Qed.

End InactiveAccounts.

(** ** Several reset tokens for one account *)

Section SiblingTokens.
Context {P : Platform}.



End SiblingTokens.

(** ** A rotation hands out a token that rotates *)

Section Chain.
Context {P : Platform}.

Lemma refresh_inr t d env s r s1 :
  refreshAccessToken t d env s = (inr r, s1) ->
  exists old user,
    In old (db_refreshTokens s)
    /\ refreshTokens.tokenHash old = hashToken t
    /\ In user (db_users s)
    /\ users.id user = refreshTokens.userId old
    /\ users.status user = active
    /\ r = mkRefreshResult
             (generateAccessToken (users.id user) (users.email user) (now env))
             (generateRefreshToken (users.id user) (users.email user) (now env))
             "Bearer" (accessTokenExpiry config_jwt)
    /\ db_users s1 = db_users s
    /\ db_refreshTokens s1
       = rotated (now env) old
           (refreshTokens.mk (next_uuid s) (users.id user)
              (hashToken (generateRefreshToken (users.id user) (users.email user)
                                               (now env)))
              (d_or_empty d) (now env + thirty_days) (now env) None)
           (db_refreshTokens s).
Proof.
  unfold refreshAccessToken. cbv zeta. intros H.
  apply bind_inr in H as (o & s0 & H0 & H).
  apply select_first_inr in H0 as [-> ->].
  destruct (find _ (db_refreshTokens s)) as [old|] eqn:Hf; [|discriminate].
  destruct (refreshTokens.revokedAt old); [discriminate|].
  apply bind_inr in H as (o & s0 & H0 & H).
  apply select_first_inr in H0 as [-> ->].
  destruct (find _ (db_users s)) as [user|] eqn:Hu; [|discriminate].
  destruct (UserStatus_eqb (users.status user) active) eqn:Hst; cbn [negb] in H;
    [|discriminate].
  apply UserStatus_eqb_eq in Hst.
  apply bind_inr in H as ([] & s2 & Hupd & H).
  apply bind_inr in H as ([] & s3 & Hins & H).
  apply bind_inr in H as ([] & s4 & Hlog & H).
  apply ret_inr in H as [-> ->].
  unfold update_refreshTokens in Hupd. inversion Hupd; subst s2; clear Hupd.
  apply insert_refreshTokens_inr in Hins as (_ & _ & ->).
  apply logAuditEvent_inr in Hlog as (Eu & _ & Er & _).
  apply find_In in Hf as [Hold Hk]. apply andb_prop in Hk as [Hk _].
  apply String.eqb_eq in Hk.
  apply find_In in Hu as [Huser Hid]. apply Nat.eqb_eq in Hid.
  exists old, user. split; [exact Hold|]. split; [exact Hk|]. split; [exact Huser|].
  split; [exact Hid|]. split; [exact Hst|]. split; [reflexivity|].
  rewrite Eu, Er. split; reflexivity.
Qed.

(** X27.  The refresh token handed out by a rotation rotates in its turn:
    it is the token signed for the owner of the presented one, and presented
    within 30 days of the rotation that issued it (unless the token signed
    in exchange is already stored) [refreshAccessToken] accepts it and
    returns a pair signed for the same account. *)
Theorem rotated_token_refreshes t d env s r s1 d' env' old user :
  wf s ->
  refreshAccessToken t d env s = (inr r, s1) ->
  In old (db_refreshTokens s) ->
  refreshTokens.tokenHash old = hashToken t ->
  In user (db_users s) ->
  users.id user = refreshTokens.userId old ->
  now env' < now env + thirty_days ->
  ~ In (hashToken (generateRefreshToken (users.id user) (users.email user) (now env')))
       (map refreshTokens.tokenHash (db_refreshTokens s1)) ->
  fr_refreshToken r = generateRefreshToken (users.id user) (users.email user) (now env)
  /\ exists s2,
      refreshAccessToken (fr_refreshToken r) d' env' s1
      = (inr (mkRefreshResult
                (generateAccessToken (users.id user) (users.email user) (now env'))
                (generateRefreshToken (users.id user) (users.email user) (now env'))
                "Bearer" (accessTokenExpiry config_jwt)), s2).
Proof.
  intros Hwf Hrun Hold Hh Huser Hid Hnow Hfresh.
  assert (Hwf1 : wf s1).
  { pose proof (refreshAccessToken_wf t d env s Hwf) as H. rewrite Hrun in H. exact H. }
  apply refresh_inr in Hrun
    as (old' & user' & Hold' & Hh' & Huser' & Hid' & Hst & -> & Eu & Er).
  assert (old' = old) as ->.
  { apply (NoDup_key_eq refreshTokens.tokenHash (db_refreshTokens s));
      auto using wf_refresh_hashes. congruence. }
  assert (user' = user) as ->.
  { apply (NoDup_key_eq users.id (db_users s)); auto using wf_user_ids. congruence. }
  cbn [fr_refreshToken]. split; [reflexivity|].
  set (issued := refreshTokens.mk (next_uuid s) (users.id user)
                   (hashToken (generateRefreshToken (users.id user) (users.email user)
                                                    (now env)))
                   (d_or_empty d) (now env + thirty_days) (now env) None) in *.
  apply (refresh_accepts _ d' env' s1 issued user); auto.
  - rewrite Er. unfold rotated. apply in_or_app. right. left. reflexivity.
  - rewrite Eu. exact Huser.
Qed.

End Chain.

(** ** What [login] writes to the audit log *)

Section LoginAudit.
Context {P : Platform}.




End LoginAudit.

(** ** The properties above on the scenarios of [Demo] *)

(** Alice's account, as registered, is still there after her login and her
    request for a password reset. *)
Lemma accounts_are_never_removed_witness :
  exists u u',
    In u (db_users Demo.after_register)
    /\ In u' (db_users
                (@run Demo.platform
                      [(ReqLogin Demo.alice_login None, Demo.env_at 60000 "");
                       (ReqForgotPassword "alice@x.com" None,
                        Demo.env_at 120000 "beef")]
                      Demo.after_register))
    /\ users.id u' = users.id u
    /\ users.email u' = Some "alice@x.com".
Proof.
  set (u := users.mk 0%nat (Some "alice@x.com") false (Some "salt|Str0ng!Pass")
                     (Some "Alice") None None active Demo.t0 Demo.t0 None).
  assert (Hu : In u (db_users Demo.after_register)).
  { vm_compute. left. reflexivity. }
  destruct (@accounts_are_never_removed Demo.platform
              [(ReqLogin Demo.alice_login None, Demo.env_at 60000 "");
               (ReqForgotPassword "alice@x.com" None, Demo.env_at 120000 "beef")]
              Demo.after_register u Hu)
    as (u' & Hu' & Hid & Hmail & _).
  exists u, u'. split; [exact Hu|]. split; [exact Hu'|].
  split; [exact Hid|exact Hmail].
Defined.


(** Alice presents the mailed token thirty seconds after registering. *)
Lemma registration_token_verifies_witness :
  exists r s1 s2,
    @register Demo.platform Demo.alice None (Demo.env_at 0 "c0ffee") empty_store
    = (inr r, s1)
    /\ verifyEmail "c0ffee" (Demo.env_at 30000 "") s1
       = (inr (mkAck "Email verified successfully"), s2)
    /\ exists u, In u (db_users s2) /\ users.emailVerified u = true.
Proof.
  destruct (@register Demo.platform Demo.alice None (Demo.env_at 0 "c0ffee")
                      empty_store) as [[e|r] s1] eqn:Hrun.
  - vm_compute in Hrun. discriminate.
  - destruct (@registration_token_verifies Demo.platform Demo.alice None
                (Demo.env_at 0 "c0ffee") empty_store r s1 (Demo.env_at 30000 "")
                wf_empty Hrun)
      as (s2 & Hverify & (u & Hu & _ & _ & Hv) & _).
    + reflexivity.
    + exists r, s1, s2. split; [reflexivity|]. split; [exact Hverify|].
      exists u. split; assumption.
Defined.


(** An address that is too long by spaces only is stored cut to 255
    characters; registered again, it is not found by the lookup and is
    refused by the unique index instead of a ConflictError. *)
Lemma padded_address_registers_once :
  exists r s1,
    @register Demo.platform (mkRegisterDto Demo.padded_address "Str0ng!Pass" None)
              None (Demo.env_at 0 "c0ffee") empty_store
    = (inr r, s1)
    /\ ru_email (rr_user r) = Some (take_chars 255 Demo.padded_address)
    /\ ru_email (rr_user r) <> Some Demo.padded_address
    /\ @register Demo.platform (mkRegisterDto Demo.padded_address "An0ther!Pass" None)
                 None (Demo.env_at 90000 "f00d") s1
       = (inl (UniqueViolation "users_email_unique"), s1).
Proof.
  destruct (@register Demo.platform (mkRegisterDto Demo.padded_address "Str0ng!Pass" None)
                      None (Demo.env_at 0 "c0ffee") empty_store) as [res s1] eqn:Hrun.
  vm_compute in Hrun. injection Hrun as <- <-.
  eexists. eexists. split; [reflexivity|].
  split; [vm_compute; reflexivity|]. split; [vm_compute; discriminate|].
  vm_compute. reflexivity.
Qed.

(** Alice logs out ten seconds after her login; ten seconds later her refresh
    token is presented. *)
Lemma logout_ends_the_session_witness :
  wf Demo.after_login
  /\ exists s1,
      @logout Demo.platform Demo.alice_refresh_token 0%nat None
              (Demo.env_at 70000 "") Demo.after_login
      = (inr (mkAck "Logged out successfully"), s1)
      /\ fst (@refreshAccessToken Demo.platform Demo.alice_refresh_token None
                                  (Demo.env_at 80000 "") s1)
         = inl (UnauthorizedError "Invalid or expired refresh token").
Proof.
  assert (Hwf : wf Demo.after_login).
  { apply (@run_wf Demo.platform), (@run_wf Demo.platform), wf_empty. }
  split; [exact Hwf|].
  set (row := hd (refreshTokens.mk 0%nat 0%nat "" noDevice 0 0 None)
                 (db_refreshTokens Demo.after_login)).
  destruct (@logout_ends_the_session Demo.platform Demo.alice_refresh_token 0%nat None
              (Demo.env_at 70000 "") Demo.after_login row Hwf)
    as (s1 & Hrun & Hdead).
  - vm_compute. left. reflexivity.
  - vm_compute. reflexivity.
  - vm_compute. reflexivity.
  - exists s1. split; [exact Hrun|].
    pose proof (Hdead [] None (Demo.env_at 80000 "")) as H. cbn [run] in H.
    rewrite H. reflexivity.
Defined.

(** A string that is no stored token is used to log Alice out. *)
Lemma logout_of_a_foreign_token_changes_nothing_witness :
  fst (@logout Demo.platform "not-a-token" 0%nat None (Demo.env_at 70000 "")
               Demo.after_login)
  = inr (mkAck "Logged out successfully")
  /\ db_refreshTokens (snd (@logout Demo.platform "not-a-token" 0%nat None
                                    (Demo.env_at 70000 "") Demo.after_login))
     = db_refreshTokens Demo.after_login.
Proof.
  destruct (@logout_of_a_foreign_token_changes_nothing Demo.platform "not-a-token"
              0%nat None (Demo.env_at 70000 "") Demo.after_login) as (Hok & Hsame & _).
  - intros row Hin Hh. vm_compute in Hin. destruct Hin as [<-|[]].
    vm_compute in Hh. discriminate.
  - split; assumption.
Defined.

(** Bob's Google identity is unlinked, twice. *)
Lemma unlink_outcomes_witness :
  wf Demo.after_bob
  /\ exists s1,
      removeOAuthProvider google "g-1" None (Demo.env_at 9000 "") Demo.after_bob
      = (inr true, s1)
      /\ db_users s1 = db_users Demo.after_bob
      /\ removeOAuthProvider google "g-1" None (Demo.env_at 9500 "") s1
         = (inr false, s1).
Proof.
  assert (Hwf : wf Demo.after_bob).
  { apply (@run_wf Demo.platform), wf_empty. }
  split; [exact Hwf|].
  set (link := hd (oauthProviders.mk 0%nat 0%nat google "" None None None None [] 0 0)
                  (db_oauthProviders Demo.after_bob)).
  destruct (unlink_outcomes google "g-1" None (Demo.env_at 9000 "") Demo.after_bob Hwf)
    as (_ & Hlinked).
  destruct (Hlinked link) as (s1 & Hrun & _ & _ & Eu & _ & Hagain).
  - vm_compute. left. reflexivity.
  - reflexivity.
  - reflexivity.
  - exists s1. split; [exact Hrun|]. split; [exact Eu|]. apply Hagain.
Defined.

(** Alice logs in and refreshes five seconds later. *)
Lemma login_session_refreshes_witness :
  wf Demo.after_register
  /\ exists r s1 s2 r',
      @login Demo.platform Demo.alice_login None (Demo.env_at 60000 "")
             Demo.after_register = (inr r, s1)
      /\ @refreshAccessToken Demo.platform (lr_refreshToken r) None
                             (Demo.env_at 65000 "") s1 = (inr r', s2).
Proof.
  assert (Hwf : wf Demo.after_register).
  { apply (@run_wf Demo.platform), wf_empty. }
  split; [exact Hwf|].
  destruct (@login Demo.platform Demo.alice_login None (Demo.env_at 60000 "")
                   Demo.after_register) as [[e|r] s1] eqn:Hrun.
  - vm_compute in Hrun. discriminate.
  - destruct (@login_session_refreshes Demo.platform Demo.alice_login None
                (Demo.env_at 60000 "") Demo.after_register r s1 None
                (Demo.env_at 65000 "") Hwf Hrun) as (s2 & Hrefresh).
    + reflexivity.
    + pose proof Hrun as Hc. vm_compute in Hc. inversion Hc; subst r s1.
      vm_compute. intros [H|[]]. discriminate H.
    + exists r, s1, s2. eexists. split; [reflexivity|exact Hrefresh].
Defined.

(** Alice logs in twice at the same clock reading. *)
Lemma second_login_at_the_same_instant_fails_witness :
  exists r s1,
    @login Demo.platform Demo.alice_login None (Demo.env_at 60000 "")
           Demo.after_register = (inr r, s1)
    /\ @login Demo.platform Demo.alice_login None (Demo.env_at 60000 "") s1
       = (inl token_hash_taken, s1).
Proof.
  destruct (@login Demo.platform Demo.alice_login None (Demo.env_at 60000 "")
                   Demo.after_register) as [[e|r] s1] eqn:Hrun.
  - vm_compute in Hrun. discriminate.
  - exists r, s1. split; [reflexivity|].
    apply (@second_login_at_the_same_instant_fails Demo.platform Demo.alice_login None
             (Demo.env_at 60000 "") Demo.after_register r s1 None
             (Demo.env_at 60000 "") Hrun eq_refl).
Defined.

(** Alice refreshes 400 ms after her login: the token signed in exchange is
    the one she presents, since [iat] has whole seconds. *)
Lemma failed_rotation_still_revokes_witness :
  wf Demo.after_login
  /\ exists s1,
      @refreshAccessToken Demo.platform Demo.alice_refresh_token None
                          (Demo.env_at 60400 "") Demo.after_login
      = (inl token_hash_taken, s1)
      /\ fst (@refreshAccessToken Demo.platform Demo.alice_refresh_token None
                                  (Demo.env_at 65000 "") s1)
         = inl (UnauthorizedError "Invalid or expired refresh token").
Proof.
  assert (Hwf : wf Demo.after_login).
  { apply (@run_wf Demo.platform), (@run_wf Demo.platform), wf_empty. }
  split; [exact Hwf|].
  set (row := hd (refreshTokens.mk 0%nat 0%nat "" noDevice 0 0 None)
                 (db_refreshTokens Demo.after_login)).
  set (u := hd (users.mk 0%nat None false None None None None active 0 0 None)
               (db_users Demo.after_login)).
  destruct (@failed_rotation_still_revokes Demo.platform Demo.alice_refresh_token None
              (Demo.env_at 60400 "") Demo.after_login row u Hwf)
    as (s1 & Hrun & _ & Hdead).
  - vm_compute. left. reflexivity.
  - vm_compute. reflexivity.
  - vm_compute. reflexivity.
  - vm_compute. reflexivity.
  - vm_compute. left. reflexivity.
  - vm_compute. reflexivity.
  - vm_compute. reflexivity.
  - vm_compute. left. reflexivity.
  - exists s1. split; [exact Hrun|].
    pose proof (Hdead [] None (Demo.env_at 65000 "")) as H. cbn [run] in H.
    rewrite H. reflexivity.
Defined.

(** Alice asks for a reset, sets a new password a minute later, and her old
    password no longer signs her in. *)
Lemma password_reset_round_trip_witness :
  wf Demo.after_login
  /\ exists s1 s2,
      requestPasswordReset "alice@x.com" None (Demo.env_at 120000 "beef")
                           Demo.after_login
      = (inr generic_reset_ack, s1)
      /\ @resetPassword Demo.platform "beef" "N3w!Passw0rd" None
                        (Demo.env_at 180000 "") s1
         = (inr (mkAck "Password reset successfully"), s2)
      /\ fst (@login Demo.platform Demo.alice_login None (Demo.env_at 240000 "") s2)
         = inl (UnauthorizedError "Invalid email or password").
Proof.
  assert (Hwf : wf Demo.after_login).
  { apply (@run_wf Demo.platform), (@run_wf Demo.platform), wf_empty. }
  split; [exact Hwf|].
  set (u := hd (users.mk 0%nat None false None None None None active 0 0 None)
               (db_users Demo.after_login)).
  destruct (@password_reset_round_trip Demo.platform "alice@x.com" None
              (Demo.env_at 120000 "beef") Demo.after_login u "N3w!Passw0rd" None
              (Demo.env_at 180000 "") Hwf)
    as (s1 & s2 & Hreq & _ & Hreset & _ & Hlogin).
  - vm_compute. left. reflexivity.
  - vm_compute. reflexivity.
  - vm_compute. intros [H|[]]. discriminate H.
  - vm_compute. reflexivity.
  - vm_compute. reflexivity.
  - exists s1, s2. split; [exact Hreq|]. split; [exact Hreset|].
    apply Hlogin; reflexivity.
Defined.

(** Alice's reset token is presented to [verifyEmail], and her verification
    token to [resetPassword]. *)
Lemma one_time_tokens_are_typed_witness :
  wf Demo.after_forgot
  /\ verifyEmail "beef" (Demo.env_at 130000 "") Demo.after_forgot
     = (inl (ValidationError "Invalid or expired verification token"),
        Demo.after_forgot)
  /\ exists m,
      @resetPassword Demo.platform "c0ffee" "N3w!Passw0rd" None
                     (Demo.env_at 130000 "") Demo.after_forgot
      = (inl (ValidationError m), Demo.after_forgot).
Proof.
  assert (Hwf : wf Demo.after_forgot).
  { apply (@run_wf Demo.platform), (@run_wf Demo.platform), (@run_wf Demo.platform),
      wf_empty. }
  split; [exact Hwf|].
  set (dummy := verificationTokens.mk 0%nat 0%nat "" email_verification 0 None 0).
  split.
  - destruct (@one_time_tokens_are_typed Demo.platform Demo.after_forgot
                (nth 1 (db_verificationTokens Demo.after_forgot) dummy) [] Hwf)
      as (Hreset & _).
    + vm_compute. right. left. reflexivity.
    + apply (Hreset eq_refl (Demo.env_at 130000 "")).
  - destruct (@one_time_tokens_are_typed Demo.platform Demo.after_forgot
                (nth 0 (db_verificationTokens Demo.after_forgot) dummy) [] Hwf)
      as (_ & Hverify).
    + vm_compute. left. reflexivity.
    + apply (Hverify eq_refl "N3w!Passw0rd" None (Demo.env_at 130000 "")).
Defined.




(** The access token of Alice's login, presented a minute later. *)
Lemma authenticate_accepts_exactly_witness :
  wf Demo.after_login
  /\ exists u,
      fst (@authenticate Demo.platform
             (Some ("Bearer " ++ @generateAccessToken Demo.platform 0%nat
                                   (Some "alice@x.com") (Demo.t0 + 60000)))
             (Demo.t0 + 120000) Demo.after_login) = inr u
      /\ au_id u = 0%nat.
Proof.
  assert (Hwf : wf Demo.after_login).
  { apply (@run_wf Demo.platform), (@run_wf Demo.platform), wf_empty. }
  split; [exact Hwf|].
  set (row := hd (users.mk 0%nat None false None None None None active 0 0 None)
                 (db_users Demo.after_login)).
  exists (select_auth_user row). split; [|reflexivity].
  destruct (@authenticate_accepts_exactly Demo.platform
              (Some ("Bearer " ++ @generateAccessToken Demo.platform 0%nat
                                    (Some "alice@x.com") (Demo.t0 + 60000)))
              (Demo.t0 + 120000) Demo.after_login Hwf) as (_ & _ & Hiff & _).
  apply Hiff.
  exists (@generateAccessToken Demo.platform 0%nat (Some "alice@x.com")
                               (Demo.t0 + 60000)),
         (mkJwtPayload 0%nat (Some "alice@x.com") access), row.
  split; [reflexivity|]. split; [vm_compute; reflexivity|].
  split; [reflexivity|]. split; [vm_compute; left; reflexivity|].
  split; [reflexivity|]. split; reflexivity.
Defined.

(** Alice logs in, logs out thirty seconds later, and her access token still
    authenticates thirty seconds after that. *)
Lemma access_token_outlives_the_session_witness :
  wf Demo.after_register
  /\ exists r s1 u,
      @login Demo.platform Demo.alice_login None (Demo.env_at 60000 "")
             Demo.after_register = (inr r, s1)
      /\ fst (@authenticate Demo.platform (Some ("Bearer " ++ lr_accessToken r))
                (Demo.t0 + 120000)
                (@run Demo.platform
                      [(ReqLogout (lr_refreshToken r) 0%nat None,
                        Demo.env_at 90000 "")] s1))
         = inr u
      /\ au_id u = 0%nat.
Proof.
  assert (Hwf : wf Demo.after_register).
  { apply (@run_wf Demo.platform), wf_empty. }
  split; [exact Hwf|].
  destruct (@login Demo.platform Demo.alice_login None (Demo.env_at 60000 "")
                   Demo.after_register) as [[e|r] s1] eqn:Hrun.
  - vm_compute in Hrun. discriminate.
  - pose proof Hrun as Hc. vm_compute in Hc. injection Hc as Hr Hs.
    destruct (@access_token_outlives_the_session Demo.platform Demo.alice_login None
                (Demo.env_at 60000 "") Demo.after_register r s1
                [(ReqLogout (lr_refreshToken r) 0%nat None, Demo.env_at 90000 "")]
                (Demo.t0 + 120000) (mkJwtPayload 0%nat (Some "alice@x.com") access)
                Hwf Hrun) as (u & Hauth & Hid & _).
    + rewrite <- Hr. vm_compute. reflexivity.
    + rewrite <- Hr. reflexivity.
    + reflexivity.
    + exists r, s1, u. split; [reflexivity|]. rewrite Hauth. split; [reflexivity|].
      rewrite Hid, <- Hr. reflexivity.
Defined.

(** A production environment with the four variables set; the same with a
    secret of sixteen times U+00E9, which is 32 bytes long but has a
    [length] of 16; and an empty environment (hence development). *)
Lemma validateConfig_guards_production_witness :
  let production := fun (secret key : string) =>
             if String.eqb key "NODE_ENV" then Some "production"
             else if String.eqb key "JWT_SECRET" then Some secret
                  else if String.eqb key "DB_NAME" then Some "auth"
                       else if String.eqb key "DB_USER" then Some "auth"
                            else if String.eqb key "DB_PASSWORD" then Some "pw"
                                 else None in
  let e := production "0123456789abcdef0123456789abcdef" in
  validateConfig e = None
  /\ e "JWT_SECRET" = Some (config_jwt_secret e)
  /\ String.length Demo.accented_secret = 32%nat
  /\ validateConfig (production Demo.accented_secret) <> None
  /\ validateConfig (fun _ => None) = None.
Proof.
  intros production e.
  destruct (validateConfig_guards_production e) as (_ & _ & Hsecret).
  destruct (validateConfig_guards_production (production Demo.accented_secret))
    as (_ & Hiff & _).
  destruct (validateConfig_guards_production (fun _ => None)) as (Hdev & _).
  split; [reflexivity|]. split; [apply Hsecret; reflexivity|].
  split; [reflexivity|]. split; [|apply Hdev; discriminate].
  intros Hok. apply (Hiff eq_refl) in Hok as [_ Hlen].
  vm_compute in Hlen. repeat apply le_S_n in Hlen. inversion Hlen.
Defined.

(** With a byte source that returns the byte 0x2a. *)
Lemma hex_generators_have_the_requested_length_witness :
  String.length (Crypto.generateToken (fun k => repeat x2a k) 32) = 64%nat
  /\ String.length (Crypto.generateSecureRandom (fun k => repeat x2a k) 7) = 7%nat.
Proof.
  destruct (hex_generators_have_the_requested_length (fun k => repeat x2a k) 32)
    as (H32 & _).
  { intros k. apply repeat_length. }
  destruct (hex_generators_have_the_requested_length (fun k => repeat x2a k) 7)
    as (_ & H7 & _).
  { intros k. apply repeat_length. }
  split; [exact H32|exact H7].
Defined.

(** Bob, who signed in with Google, tries a password. *)
Lemma oauth_created_account_has_no_password_login_witness :
  wf empty_store
  /\ fst (@login Demo.platform (mkLoginDto "bob@x.com" "Str0ng!Pass") None
                 (Demo.env_at 5000 "") Demo.after_bob)
     = inl (UnauthorizedError "Invalid email or password").
Proof.
  split; [exact wf_empty|].
  apply (@oauth_created_account_has_no_password_login Demo.platform Demo.bob None
           (Demo.env_at 0 "") empty_store (mkLoginDto "bob@x.com" "Str0ng!Pass") None
           (Demo.env_at 5000 "") wf_empty).
  - reflexivity.
  - intros x [].
  - reflexivity.
Defined.

(** Dana signs in through Firebase with e-mail and password: the identity
    is stored under the provider [google]. *)
Lemma firebase_sessions_follow_the_verified_uid_witness :
  let verify := fun _ : string =>
                  inr (Some (mkDecodedIdToken "uid-1" (Some "dana@x.com")
                                              (Some "Dana") None "password")) in
  wf empty_store
  /\ exists r s' link,
      @firebaseAuth Demo.platform verify false true "id-token" noDevice
                    (Demo.env_at 0 "") empty_store
      = (inr (fb_session r), s')
      /\ In link (db_oauthProviders s')
      /\ oauthProviders.provider link = google
      /\ oauthProviders.providerUserId link = "uid-1".
Proof.
  intros verify. split; [exact wf_empty|].
  destruct (@firebaseAuth Demo.platform verify false true "id-token" noDevice
                          (Demo.env_at 0 "") empty_store) as [[e|[st m|r]] s'] eqn:Hrun.
  - vm_compute in Hrun. discriminate.
  - vm_compute in Hrun. discriminate.
  - pose proof (@firebase_sessions_follow_the_verified_uid Demo.platform verify
                  false true "id-token" noDevice (Demo.env_at 0 "") empty_store
                  (fb_session r) s' wf_empty Hrun) as H.
    cbv beta iota in H.
    destruct H as (tok & link & _ & _ & Hv & Hlink & Huid & _ & Hprov & _).
    inversion Hv; subst tok.
    exists r, s', link. split; [reflexivity|]. split; [exact Hlink|].
    split; [exact Hprov|]. apply Huid. apply Nat.leb_le. vm_compute. reflexivity.
Defined.

(** Facebook tells the service that the identity fb-9, linked to Alice's
    account, has removed the app. *)
Lemma facebook_deauthorize_needs_a_valid_signature_witness :
  let parse := fun payload : string =>
                 if String.eqb payload "eyJ1c2VyX2lkIjoiZmItOSJ9"
                 then Some (payload_value (Some "fb-9")) else None in
  let expected := fun payload : string => "hmac(" ++ payload ++ ")" in
  let s := snd (@handleOAuthCallback Demo.platform Demo.alice_facebook None
                                     (Demo.env_at 90000 "") Demo.after_register) in
  let out := facebookDeauthorize parse expected
               (Some "hmac(eyJ1c2VyX2lkIjoiZmItOSJ9).eyJ1c2VyX2lkIjoiZmItOSJ9")
               None None (Demo.env_at 95000 "") s in
  wf s
  /\ fst out = inr (deauthorize_confirmed "fb-9")
  /\ db_users (snd out) = db_users s
  /\ db_refreshTokens (snd out) = db_refreshTokens s.
Proof.
  intros parse expected s out.
  assert (Hwf : wf s).
  { apply (@handleOAuthCallback_wf Demo.platform), (@run_wf Demo.platform), wf_empty. }
  split; [exact Hwf|].
  destruct (facebook_deauthorize_needs_a_valid_signature parse expected
              (Some "hmac(eyJ1c2VyX2lkIjoiZmItOSJ9).eyJ1c2VyX2lkIjoiZmItOSJ9")
              None None (Demo.env_at 95000 "") s Hwf) as (_ & _ & Hiff & Heffects).
  assert (Hok : fst out = inr (deauthorize_confirmed "fb-9")).
  { apply Hiff.
    exists "hmac(eyJ1c2VyX2lkIjoiZmItOSJ9).eyJ1c2VyX2lkIjoiZmItOSJ9",
           "hmac(eyJ1c2VyX2lkIjoiZmItOSJ9)", "eyJ1c2VyX2lkIjoiZmItOSJ9", [].
    repeat split; try reflexivity; discriminate. }
  split; [exact Hok|].
  destruct (Heffects "fb-9" Hok) as (_ & _ & Eu & Er). split; assumption.
Defined.

(** Bob's account is suspended; he signs in with Google once more and
    presents the refresh token he was handed. *)
Lemma oauth_tokens_of_an_inactive_account_are_refused_witness :
  wf Demo.bob_suspended
  /\ exists r s1 m,
      @handleOAuthCallback Demo.platform Demo.bob_again None (Demo.env_at 5000 "")
                           Demo.bob_suspended = (inr r, s1)
      /\ @refreshAccessToken Demo.platform (or_refreshToken r) None
                             (Demo.env_at 6000 "") s1
         = (inl (UnauthorizedError m), s1).
Proof.
  assert (Hwf : wf Demo.bob_suspended).
  { apply (update_users_wf (Demo.set_status suspended) (fun _ => true));
      [intros; reflexivity|intros; reflexivity|].
    apply (@run_wf Demo.platform), wf_empty. }
  split; [exact Hwf|].
  destruct (@handleOAuthCallback Demo.platform Demo.bob_again None (Demo.env_at 5000 "")
                                 Demo.bob_suspended) as [[e|r] s1] eqn:Hrun.
  - vm_compute in Hrun. discriminate.
  - pose proof Hrun as Hc. vm_compute in Hc. injection Hc as Hr Hs.
    set (u := hd (users.mk 0%nat None false None None None None active 0 0 None)
                 (db_users s1)).
    destruct (@oauth_tokens_of_an_inactive_account_are_refused Demo.platform
                Demo.bob_again None (Demo.env_at 5000 "") Demo.bob_suspended r s1 u []
                Hwf Hrun) as (Hrefresh & _).
    + unfold u. rewrite <- Hs. vm_compute. left. reflexivity.
    + unfold u. rewrite <- Hs, <- Hr. reflexivity.
    + unfold u. rewrite <- Hs. vm_compute. discriminate.
    + destruct (Hrefresh None (Demo.env_at 6000 "")) as (m & Hm).
      exists r, s1, m. split; [reflexivity|exact Hm].
Defined.


(** Alice refreshes five seconds after her login, and again five seconds
    later with the token she got. *)
Lemma rotated_token_refreshes_witness :
  wf Demo.after_login
  /\ exists r s1 r' s2,
      @refreshAccessToken Demo.platform Demo.alice_refresh_token None
                          (Demo.env_at 65000 "") Demo.after_login = (inr r, s1)
      /\ @refreshAccessToken Demo.platform (fr_refreshToken r) None
                             (Demo.env_at 70000 "") s1 = (inr r', s2).
Proof.
  assert (Hwf : wf Demo.after_login).
  { apply (@run_wf Demo.platform), (@run_wf Demo.platform), wf_empty. }
  split; [exact Hwf|].
  destruct (@refreshAccessToken Demo.platform Demo.alice_refresh_token None
                                (Demo.env_at 65000 "") Demo.after_login)
    as [[e|r] s1] eqn:Hrun.
  - vm_compute in Hrun. discriminate.
  - pose proof Hrun as Hc. vm_compute in Hc. injection Hc as Hr Hs.
    set (old := hd (refreshTokens.mk 0%nat 0%nat "" noDevice 0 0 None)
                   (db_refreshTokens Demo.after_login)).
    set (user := hd (users.mk 0%nat None false None None None None active 0 0 None)
                    (db_users Demo.after_login)).
    destruct (@rotated_token_refreshes Demo.platform Demo.alice_refresh_token None
                (Demo.env_at 65000 "") Demo.after_login r s1 None
                (Demo.env_at 70000 "") old user Hwf Hrun) as (_ & s2 & Hrun2).
    + vm_compute. left. reflexivity.
    + vm_compute. reflexivity.
    + vm_compute. left. reflexivity.
    + vm_compute. reflexivity.
    + vm_compute. reflexivity.
    + rewrite <- Hs. vm_compute. intros [H|[H|[]]]; discriminate H.
    + exists r, s1. eexists _, s2. split; [reflexivity|exact Hrun2].
Defined.

